(** * DeConveil: the CNV-aware DESeq2-style fitting pipeline

    A shallow embedding of [deconveil/dds.py] (class [deconveil_fit]) and of
    the per-gene solver [irls_glm] of the [utils_pydeseqCN] notebook, with the
    properties of the specification stated and settled against it. They are
    followed by further properties of the class, of its variance stabilising
    transformation and of the notebook's [fit_moments_dispersions].

    Conventions
    - a numpy [float64] is a primitive binary64 float of the kernel, so NaN,
      signed zeros and infinities behave as in the program;
    - a one-dimensional array is a list, a matrix is the list of its rows
      (rows are samples, columns are genes, as in the count matrix); the
      labels of a frame are the positions of its rows and columns;
    - a raised Python exception is the [Raise] branch of [result];
    - the dictionaries [self.obsm], [self.layers], [self.varm] and [self.uns]
      are finite maps from the key strings of the source to tagged values;
    - the two data frames of [self.data] live in a store of arrays and are
      held by reference, so that rebinding a local name and writing through
      a reference are different things;
    - routines of numpy, scipy, pandas and pydeseq2, and the methods of the
      [inference] object, are parameters gathered in records. *)

From Stdlib Require Import ZArith Floats Uint63 Lia.
From stdpp Require Import base option list strings gmap.

Set Warnings "-inexact-float".
#[local] Open Scope string_scope.
#[local] Open Scope float_scope.

(** ** Exceptions and the result monad *)

Inductive exn : Type :=
| ValueError (msg : string)
| KeyError (key : string)
| AttributeError (attr : string)
| IndexError
| TypeError
| LinAlgError
| AssertionError
| NotImplementedError.

Inductive result (A : Type) : Type :=
| Ok (a : A)
| Raise (e : exn).
Arguments Ok {A} a.
Arguments Raise {A} e.

#[global] Instance result_ret : MRet result := fun A a => Ok a.
#[global] Instance result_bind : MBind result := fun A B f r =>
  match r with Ok a => f a | Raise e => Raise e end.
#[global] Instance result_fmap : FMap result := fun A B f r =>
  match r with Ok a => Ok (f a) | Raise e => Raise e end.

Definition is_ok {A} (r : result A) : bool :=
  match r with Ok _ => true | Raise _ => false end.

(** [for x in l: ...] over a fallible body, collecting the values. *)
Fixpoint mapR {A B} (f : A -> result B) (l : list A) : result (list B) :=
  match l with
  | [] => Ok []
  | x :: l' => y ← f x; ys ← mapR f l'; Ok (y :: ys)
  end.

(** ** Arrays *)

Abbreviation vec := (list float).
Abbreviation matrix := (list (list float)).

Module Np.

(** [int64 -> float64] conversion of a count. *)
Definition of_Z (z : Z) : float :=
  match z with
  | Z0 => 0
  | Zpos _ => PrimFloat.of_uint63 (Uint63.of_Z z)
  | Zneg p => - PrimFloat.of_uint63 (Uint63.of_Z (Zpos p))
  end.

Definition of_nat (n : nat) : float := of_Z (Z.of_nat n).

Definition of_bool (b : bool) : float := if b then 1 else 0.

(** [float64 -> int64] conversion of numpy: the fraction is dropped; NaN, the
    infinities and every magnitude beyond [int64] come out of the conversion
    instruction as the least [int64]. *)
Definition int64_min : Z := (- 2 ^ 63)%Z.

Definition int64_of_float (x : float) : Z :=
  match Prim2SF x with
  | S754_zero _ => 0%Z
  | S754_finite s m e =>
      let mag := match e with
                 | Zneg k => (Zpos m / 2 ^ Zpos k)%Z
                 | _ => (Zpos m * 2 ^ e)%Z
                 end in
      let z := if s then (- mag)%Z else mag in
      if (int64_min <=? z)%Z && (z <? 2 ^ 63)%Z then z else int64_min
  | _ => int64_min
  end.

(** The same on the values of a frame, as pandas' [astype(int)] does it: NaN
    and the infinities are refused, every other float is converted as
    above. *)
Definition to_int (x : float) : result Z :=
  match Prim2SF x with
  | S754_infinity _ | S754_nan =>
      Raise (ValueError "Cannot convert non-finite values (NA or inf) to integer")
  | _ => Ok (int64_of_float x)
  end.

(** [x > y] and [x >= y]: false as soon as one side is NaN. *)
Definition gt (x y : float) : bool := y <? x.
Definition ge (x y : float) : bool := y <=? x.

(** [np.maximum] and [np.minimum]: the ufunc inner loops choose
    [in1 >= in2 || isnan(in1) ? in1 : in2] (resp. [<=]), so that a NaN on
    either side comes out. *)
Definition maximum (x y : float) : float :=
  if (y <=? x) || PrimFloat.is_nan x then x else y.
Definition minimum (x y : float) : float :=
  if (x <=? y) || PrimFloat.is_nan x then x else y.

(** [np.clip(x, lo, hi)]: the clip loop computes [min(max(x, lo), hi)] where
    a NaN [x] is kept and comparisons are strict. *)
Definition clip_max (a b : float) : float :=
  if PrimFloat.is_nan a then a else if b <? a then a else b.
Definition clip_min (a b : float) : float :=
  if PrimFloat.is_nan a then a else if a <? b then a else b.
Definition clip (x lo hi : float) : float := clip_min (clip_max x lo) hi.

(** [np.full(n, x)] and [np.full((n, m), x)]. *)
Definition full {A} (n : nat) (x : A) : list A := replicate n x.
Definition full2 {A} (n m : nat) (x : A) : list (list A) := replicate n (replicate m x).

(** [a.shape] of a frame given by its rows; a frame without rows has width
    zero in this representation. *)
Definition ncols {A} (m : list (list A)) : nat :=
  match m with [] => 0%nat | r :: _ => length r end.
Definition shape {A} (m : list (list A)) : nat * nat := (length m, ncols m).

(** Broadcasting of two one-dimensional operands: equal lengths pair up, a
    length-one operand is repeated, anything else is numpy's
    "operands could not be broadcast together". *)
Definition broadcast {A B C} (f : A -> B -> C) (xs : list A) (ys : list B) : result (list C) :=
  if (length xs =? length ys)%nat then Ok (zip_with f xs ys)
  else match xs, ys with
       | [x], _ => Ok (map (f x) ys)
       | _, [y] => Ok (map (fun x => f x y) xs)
       | _, _ => Raise (ValueError "operands could not be broadcast together")
       end.

(** The same for two matrices of equal shape, row by row. *)
Definition broadcast2 {A B C} (f : A -> B -> C) (xs : list (list A)) (ys : list (list B))
  : result (list (list C)) :=
  if (length xs =? length ys)%nat
  then mapR (fun p => broadcast f p.1 p.2) (zip xs ys)
  else Raise (ValueError "operands could not be broadcast together").

(** [m op v[:, None]]: row [i] of [m] combined with entry [i] of [v]. *)
Definition broadcast_rows {A B C} (f : A -> B -> C) (m : list (list A)) (v : list B)
  : result (list (list C)) :=
  if (length m =? length v)%nat then Ok (zip_with (fun r x => map (fun a => f a x) r) m v)
  else match v with
       | [x] => Ok (map (map (fun a => f a x)) m)
       | _ => Raise (ValueError "operands could not be broadcast together")
       end.

(** [m op v[None, :]]: each row of [m] combined with [v] entry by entry. *)
Definition broadcast_cols {A B C} (f : A -> B -> C) (m : list (list A)) (v : list B)
  : result (list (list C)) :=
  mapR (fun r => broadcast f r v) m.

(** [x op= y] in place: [y] is broadcast to the shape of [x]. *)
Definition inplace {A B} (f : A -> B -> A) (xs : list A) (ys : list B) : result (list A) :=
  if (length xs =? length ys)%nat then Ok (zip_with f xs ys)
  else match ys with
       | [y] => Ok (map (fun x => f x y) xs)
       | _ => Raise (ValueError "operands could not be broadcast together")
       end.

(** [a[idx]] with an integer index array. *)
Definition take {A} (idx : list nat) (a : list A) : result (list A) :=
  mapR (fun j => match a !! j with Some x => Ok x | None => Raise IndexError end) idx.

(** [m[:, idx]] with an integer index array. *)
Definition take_cols {A} (idx : list nat) (m : list (list A)) : result (list (list A)) :=
  mapR (take idx) m.

(** [a[mask]] with a boolean mask, which must have the length of [a]. *)
Fixpoint select {A} (mask : list bool) (a : list A) : list A :=
  match mask, a with
  | b :: mask', x :: a' => if b then x :: select mask' a' else select mask' a'
  | _, _ => []
  end.

Definition compress {A} (mask : list bool) (a : list A) : result (list A) :=
  if (length mask =? length a)%nat then Ok (select mask a) else Raise IndexError.

Definition compress_cols {A} (mask : list bool) (m : list (list A)) : result (list (list A)) :=
  mapR (compress mask) m.

(** [mask.sum()] *)
Definition count_true (mask : list bool) : nat := length (List.filter id mask).

(** [np.arange(n)[mask]]. *)
Definition where_true (mask : list bool) : list nat :=
  select mask (seq 0 (length mask)).

(** [a[mask] = v]: the values of [v] go, in order, to the positions where
    the mask holds. *)
Fixpoint put {A} (a : list A) (mask : list bool) (v : list A) : list A :=
  match a, mask with
  | x :: a', b :: mask' =>
      if b then match v with
                | y :: v' => y :: put a' mask' v'
                | [] => x :: put a' mask' []
                end
      else x :: put a' mask' v
  | _, _ => a
  end.

Definition put_mask {A} (a : list A) (mask : list bool) (v : list A) : result (list A) :=
  if negb (length mask =? length a)%nat then Raise IndexError
  else if (length v =? count_true mask)%nat then Ok (put a mask v)
  else match v with
       | [y] => Ok (put a mask (replicate (count_true mask) y))
       | _ => Raise (ValueError "cannot assign input values to the output values where the mask is true")
       end.

(** Rows written by label, as [frame.update(other)] and [frame.loc[idx] = v]
    do: a label that the frame does not have is passed over. *)
Definition put_at {A} (a : list A) (idx : list nat) (v : list A) : list A :=
  foldl (fun a p => <[p.1 := p.2]> a) a (zip idx v).

(** [np.isinf] *)
Definition isinf (x : float) : bool := (x =? infinity) || (x =? neg_infinity).

(** [m[:, mask] = v] for a matrix [v] with one row per row of [m]. *)
Definition put_cols {A} (m : list (list A)) (mask : list bool) (v : list (list A))
  : result (list (list A)) :=
  if (length m =? length v)%nat
  then mapR (fun p => put_mask p.1 mask p.2) (zip m v)
  else Raise (ValueError "could not broadcast input array").

(** [m.T] for a matrix with [n] columns. *)
Definition transpose {A} (n : nat) (m : list (list A)) : list (list A) :=
  map (fun j => omap (fun r => r !! j) m) (seq 0 n).

(** [b.any()], [b.all()], and their [axis=0] and [axis=1] forms. *)
Definition any (b : list bool) : bool := existsb id b.
Definition all (b : list bool) : bool := forallb id b.
Definition any_axis1 (m : list (list bool)) : list bool := map any m.
Definition any_axis0 (n : nat) (m : list (list bool)) : list bool := map any (transpose n m).
Definition all_axis0 (n : nat) (m : list (list bool)) : list bool := map all (transpose n m).

End Np.

(** ** The per-gene solver ([utils_pydeseqCN]) *)

Module Utils.

(** [scipy.optimize.OptimizeResult], as far as the solver reads it. *)
Record OptimizeResult : Type := { res_x : vec; res_success : bool }.

Inductive optimizer_t : Type := BFGS | L_BFGS_B.

(** The numerical routines the solver calls: numpy's transcendental
    functions, reductions and products, [np.linalg], [scipy.linalg.solve],
    [scipy.optimize.minimize] and pydeseq2's [nb_nll]. *)
Record Numeric : Type := {
  np_exp : float -> float;
  np_log : float -> float;
  np_mean : vec -> float;
  np_sum : vec -> float;
  matmul : matrix -> matrix -> result matrix;
  matvec : matrix -> vec -> result vec;
  vecmat : vec -> matrix -> result vec;
  matrix_rank : matrix -> nat;
  qr : matrix -> result (matrix * matrix);
  solve : matrix -> vec -> result vec;
  inv : matrix -> result matrix;
  nb_nll : list Z -> vec -> float -> result float;
  minimize : (vec -> result float) -> vec -> (vec -> result vec) -> optimizer_t ->
             option (list (float * float)) -> result OptimizeResult
}.

(** What the solver did beyond the reweighting steps: a record of the calls
    to the two fallback routines, in order. *)
Inductive event : Type :=
| EvMinimize (success : bool)
| EvGridFit.

(** Computations of the solver: they may raise, and they append to the
    record of calls. [None] is not an outcome of the program: it says that the
    bound the model puts on the turns of the loop was reached
    ([irls_glm_returns] shows that the solver never ends this way). *)
Definition Solver (A : Type) : Type := list event -> option (result A * list event).

#[global] Instance Solver_ret : MRet Solver := fun A a log => Some (Ok a, log).
#[global] Instance Solver_bind : MBind Solver := fun A B f m log =>
  match m log with
  | Some (Ok a, log') => f a log'
  | Some (Raise e, log') => Some (Raise e, log')
  | None => None
  end.

Definition lift {A} (r : result A) : Solver A := fun log => Some (r, log).
Definition emit (ev : event) : Solver unit := fun log => Some (Ok tt, (log ++ [ev])%list).
Definition out_of_fuel {A} : Solver A := fun _ => None.

(** The record of calls of a whole run, started from the empty record. *)
Definition calls {A} (m : Solver A) : list event :=
  match m [] with Some (_, log) => log | None => [] end.

(** [np.linspace(start, stop, num)]: [num] evenly spaced values, the last
    one set to [stop]. *)
Definition linspace (start stop : float) (num : nat) : vec :=
  match num with
  | O => []
  | S O => [start]
  | S n =>
      let step := (stop - start) / Np.of_nat n in
      (map (fun i => Np.of_nat i * step + start) (seq 0 n) ++ [stop])%list
  end.

(** [np.unravel_index(np.argmin(m, axis=None), m.shape)]: the row and the
    column of the first least entry, a NaN counting as least. *)
Definition argmin_flat (v : vec) : nat :=
  (foldl (fun '(i, best, at_) x =>
            let better := match best with
                          | None => true
                          | Some b => negb (PrimFloat.is_nan b) && ((x <? b) || PrimFloat.is_nan x)
                          end in
            if better then (S i, Some x, i) else (S i, best, at_))
         (0%nat, None, 0%nat) v).2.

Definition argmin2 (m : matrix) : nat * nat :=
  let k := argmin_flat (concat m) in
  let w := Np.ncols m in
  ((k / w)%nat, (k mod w)%nat).

(** [x[:, None]] for a number [x]: a numpy scalar takes no index ("invalid
    index to scalar variable"), so the expression has no value. (A Python
    [float] in the same place is "not subscriptable", a [TypeError].) *)
Definition scalar_getitem (x : float) : result Empty_set := Raise IndexError.

(** [v[i]] *)
Definition item (v : vec) (i : nat) : result float :=
  match v !! i with Some x => Ok x | None => Raise IndexError end.

(** [grid_fit_beta(counts, size_factors, design_matrix, disp, cnv, min_mu,
    grid_length, min_beta, max_beta)]. The parameters keep the names of the
    signature and have the types that the one call of the notebook gives
    them: [irls_glm] calls [grid_fit_beta(counts, size_factors, cnv, X, disp)]
    by position, which binds [design_matrix] to the CNV vector, [disp] to the
    design matrix and [cnv] to the dispersion, a number. The closure [loss]
    starts by evaluating [cnv[:, None]]; nothing of it can be evaluated after
    that. *)
Definition grid_fit_beta (counts : list Z) (size_factors : vec) (design_matrix : vec)
    (disp : matrix) (cnv : float) (min_mu : float) (grid_length : nat)
    (min_beta max_beta : float) : result vec :=
  let x_grid := linspace min_beta max_beta grid_length in
  let y_grid := linspace min_beta max_beta grid_length in
  let loss := fun beta : matrix =>
    c ← scalar_getitem cnv;
    match c : Empty_set return result vec with end in
  ll_grid ← mapR (fun x => loss (map (fun y => [x; y]) y_grid)) x_grid;
  let min_idxs := argmin2 ll_grid in
  x1 ← item x_grid 1;
  x0 ← item x_grid 0;
  let delta := x1 - x0 in
  xm ← item x_grid min_idxs.1;
  ym ← item y_grid min_idxs.2;
  let fine_x_grid := linspace (xm - delta) (xm + delta) grid_length in
  let fine_y_grid := linspace (ym - delta) (ym + delta) grid_length in
  ll_grid ← mapR (fun x => loss (map (fun y => [x; y]) fine_y_grid)) fine_x_grid;
  let min_idxs := argmin2 ll_grid in
  bx ← item fine_x_grid min_idxs.1;
  by_ ← item fine_y_grid min_idxs.2;
  Ok [bx; by_].

Section irls.

Context (num : Numeric).

Variables (counts : list Z) (size_factors : vec) (design_matrix : matrix) (cnv : vec)
          (disp : float) (min_mu beta_tol min_beta max_beta : float)
          (optimizer : optimizer_t) (maxiter : Z).

Let X := design_matrix.
Let num_vars : nat := Np.ncols design_matrix.
Let countsF : vec := map Np.of_Z counts.

(** [np.diag(np.repeat(1e-6, num_vars))] *)
Definition ridge_factor : matrix :=
  map (fun i => map (fun j => if (i =? j)%nat then 1e-6 else 0) (seq 0 num_vars)) (seq 0 num_vars).

(** [np.diag(m)] of a matrix. *)
Definition diag (m : matrix) : vec := omap id (imap (fun i r => r !! i) m).

(** [np.maximum(cnv * size_factors * np.exp(X @ beta), min_mu)] *)
Definition mu_of (beta : vec) : result vec :=
  xb ← matvec num X beta;
  cs ← Np.broadcast PrimFloat.mul cnv size_factors;
  m ← Np.broadcast PrimFloat.mul cs (map (np_exp num) xb);
  Ok (map (fun v => Np.maximum v min_mu) m).

(** [(X.T * W) @ X + ridge_factor] *)
Definition XtWX_ridge (W : vec) : result matrix :=
  xtw ← mapR (fun r => Np.broadcast PrimFloat.mul r W) (Np.transpose num_vars X);
  a ← matmul num xtw X;
  Np.broadcast2 PrimFloat.add a ridge_factor.

(** The initial coefficients: least squares on the log of the normalised
    counts when the design has full column rank, else the log base mean as
    intercept. *)
Definition beta_init : result vec :=
  q ← Np.broadcast PrimFloat.div countsF cnv;
  q ← Np.broadcast PrimFloat.div q size_factors;
  if (matrix_rank num X =? num_vars)%nat then
    '(Q, R) ← qr num X;
    let y := map (fun v => np_log num (v + 0.1)) q in
    qty ← matvec num (Np.transpose (Np.ncols Q) Q) y;
    solve num R qty
  else
    match num_vars with
    | O => Raise IndexError
    | S _ => Ok (<[0%nat := np_mean num (map (np_log num) q)]> (Np.full num_vars 0))
    end.

(** The closure [f] handed to the minimiser. *)
Definition f (beta : vec) : result float :=
  mu_ ← mu_of beta;
  nll ← nb_nll num counts mu_ disp;
  rb ← matvec num ridge_factor (map (fun b => b * b) beta);
  Ok (nll + 0.5 * np_sum num rb).

(** The closure [df], its gradient. *)
Definition df (beta : vec) : result vec :=
  mu_ ← mu_of beta;
  xtc ← matvec num (Np.transpose num_vars X) countsF;
  w ← Np.broadcast (fun c m => (1 / disp + c) * m / (1 / disp + m)) countsF mu_;
  wx ← vecmat num w X;
  rb ← matvec num ridge_factor beta;
  g ← Np.broadcast PrimFloat.add (map PrimFloat.opp xtc) wx;
  Np.broadcast PrimFloat.add g rb.

(** The body of [if sum(np.abs(beta_hat) > max_beta) > 0 or i >= maxiter:],
    up to its [break]: the quasi-Newton fit from [beta_init], then the grid
    search when that fit failed and the design has at most two columns. The
    grid search gets five arguments by position and keeps its defaults
    [min_mu=0.5], [grid_length=60], [min_beta=-30], [max_beta=30]. *)
Definition fallback (b0 : vec) : Solver (vec * vec * bool) :=
  res ← lift (minimize num f b0 df optimizer
                (match optimizer with
                 | L_BFGS_B => Some (replicate num_vars (min_beta, max_beta))
                 | BFGS => None
                 end));
  _ ← emit (EvMinimize (res_success res));
  let beta := res_x res in
  mu ← lift (mu_of beta);
  let converged := res_success res in
  if negb (res_success res) && (num_vars <=? 2)%nat then
    _ ← emit EvGridFit;
    beta ← lift (grid_fit_beta counts size_factors cnv X disp 0.5 60 (-30) 30);
    mu ← lift (mu_of beta);
    mret (beta, mu, converged)
  else mret (beta, mu, converged).

(** The [while dev_ratio > beta_tol:] loop. [i] counts the turns as in the
    source; [fuel] bounds the recursion. *)
Fixpoint irls_loop (fuel : nat) (b0 : vec) (i : Z) (beta mu : vec) (dev dev_ratio : float)
  : Solver (vec * vec * bool) :=
  if Np.gt dev_ratio beta_tol then
    let W := map (fun m => m / (1.0 + m * disp)) mu in
    lz ← lift (q ← Np.broadcast PrimFloat.div mu cnv;
               q ← Np.broadcast PrimFloat.div q size_factors;
               Ok (map (np_log num) q));
    r ← lift (Np.broadcast (fun c m => (c - m) / m) countsF mu);
    z ← lift (Np.broadcast PrimFloat.add lz r);
    H ← lift (XtWX_ridge W);
    wz ← lift (Np.broadcast PrimFloat.mul W z);
    rhs ← lift (matvec num (Np.transpose num_vars X) wz);
    beta_hat ← lift (solve num H rhs);
    let i := (i + 1)%Z in
    if existsb (fun b => Np.gt (abs b) max_beta) beta_hat || (maxiter <=? i)%Z then
      fallback b0
    else
      let beta := beta_hat in
      mu ← lift (mu_of beta);
      let old_dev := dev in
      nll ← lift (nb_nll num counts mu disp);
      let dev := -2 * nll in
      let dev_ratio := abs (dev - old_dev) / (abs dev + 0.1) in
      match fuel with
      | O => out_of_fuel
      | S fuel' => irls_loop fuel' b0 i beta mu dev dev_ratio
      end
  else mret (beta, mu, true).

(** [irls_glm]: returns [(beta, mu, H, converged)]. *)
Definition irls_glm : Solver (vec * vec * vec * bool) :=
  b0 ← lift beta_init;
  let beta := b0 in
  let dev := 1000.0 in
  let dev_ratio := 1.0 in
  mu ← lift (mu_of beta);
  '(beta, mu, converged) ← irls_loop (Z.to_nat maxiter) b0 0 beta mu dev dev_ratio;
  let W := map (fun m => m / (1.0 + m * disp)) mu in
  let W_sq := map PrimFloat.sqrt W in
  XtWX ← lift (XtWX_ridge W);
  xi ← lift (iX ← inv num XtWX; matmul num X iX);
  xix ← lift (matmul num xi (Np.transpose num_vars X));
  h ← lift (Np.broadcast PrimFloat.mul W_sq (diag xix));
  H ← lift (Np.broadcast PrimFloat.mul h W_sq);
  mret (beta, mu, H, converged).

End irls.

(** [fit_moments_dispersions(normed_counts, size_factors, cnv)]. The copy
    number is an array of one dimension (a value per sample) or of two (a
    row per sample, a column per gene). *)
Inductive cnv_array : Type :=
| Cnv1 (v : vec)
| Cnv2 (m : matrix).

(** [np.nan_to_num] with its default arguments: NaN becomes zero, an
    infinity the largest finite number of its sign. *)
Definition nan_to_num (x : float) : float :=
  if PrimFloat.is_nan x then 0
  else if x =? infinity then 0x1.fffffffffffffp+1023
  else if x =? neg_infinity then -0x1.fffffffffffffp+1023
  else x.

Section moments.

Context (num : Numeric).

(** [a.mean(0)] and [a.var(0, ddof=1)] of a matrix. *)
Context (mean_axis0 var_axis0 : matrix -> vec).

Definition fit_moments_dispersions (normed_counts : matrix) (size_factors : vec)
    (cnv : cnv_array) : result vec :=
  let all_zero :=
    Np.all_axis0 (Np.ncols normed_counts) (map (map (fun x => x =? 0)) normed_counts) in
  normed_counts ← Np.compress_cols (map negb all_zero) normed_counts;
  q ← match cnv with
      | Cnv1 v => Np.broadcast PrimFloat.div (map (fun c => 1 / c) v) size_factors
      | Cnv2 m =>
          r ← mapR (fun row => Np.broadcast PrimFloat.div (map (fun c => 1 / c) row)
                                 size_factors) m;
          Ok (concat r)
      end;
  let s_mean_inv := np_mean num q in
  let mu := mean_axis0 normed_counts in
  let sigma := var_axis0 normed_counts in
  r ← Np.broadcast (fun s m => (s - s_mean_inv * m) / (m * m)) sigma mu;
  Ok (map nan_to_num r).

End moments.

End Utils.

(** ** The class [deconveil_fit] ([dds.py]) *)

Module Dds.

(** *** Objects and the array store

    The buffer of a data frame or of a numpy array is a cell of the store;
    [df.to_numpy()] gives an array on the same buffer, an arithmetic
    expression gives an array on a new one. Gene labels are taken to be
    unique, so that a gene is known by its column position. *)

Inductive ndarray : Type :=
| IntArr (m : list (list Z))
| FloatArr (m : matrix).

Abbreviation loc := nat (only parsing).
Abbreviation store := (list ndarray) (only parsing).

Inductive pyref : Type :=
| DataFrame (l : loc)
| NdArray (l : loc).

Definition buffer (r : pyref) : loc :=
  match r with DataFrame l => l | NdArray l => l end.

Definition alloc (h : store) (a : ndarray) : store * loc := ((h ++ [a])%list, length h).

Definition deref (h : store) (r : pyref) : result ndarray :=
  match h !! buffer r with
  | Some a => Ok a
  | None => Raise (ValueError "dangling reference")
  end.

(** [obj.to_numpy()]: a view for a frame; an array has no such method. *)
Definition to_numpy (r : pyref) : result pyref :=
  match r with
  | DataFrame l => Ok (NdArray l)
  | NdArray _ => Raise (AttributeError "to_numpy")
  end.

Definition nd_shape (a : ndarray) : nat * nat :=
  match a with IntArr m => Np.shape m | FloatArr m => Np.shape m end.

(** The entries of a buffer read as floats (numpy's promotion of [int64]). *)
Definition as_float (a : ndarray) : matrix :=
  match a with
  | IntArr m => map (map Np.of_Z) m
  | FloatArr m => m
  end.

(** [obj.astype(int)] of the object behind [r]: a frame refuses NaN and the
    infinities, an array converts them as it converts every float. *)
Definition astype_int (r : pyref) (a : ndarray) : result (list (list Z)) :=
  match a with
  | IntArr m => Ok m
  | FloatArr m =>
      match r with
      | DataFrame _ => mapR (mapR Np.to_int) m
      | NdArray _ => Ok (map (map Np.int64_of_float) m)
      end
  end.

(** The counts of a buffer, which holds integers once [__init__] has
    converted it. *)
Definition as_counts (a : ndarray) : result (list (list Z)) :=
  match a with
  | IntArr m => Ok m
  | FloatArr _ => Raise TypeError
  end.

(** What the dictionaries [obsm], [layers], [varm] and [uns] and the late
    attributes of the object hold. These are kept by value; whether pandas or
    numpy wraps them is not tracked. [VFrame] is a frame of counts with its
    column labels, [VIdx] a list of gene labels or positions. *)
Inductive value : Type :=
| VNum (x : float)
| VVec (v : vec)
| VMat (m : matrix)
| VMask (b : list bool)
| VIdx (i : list nat)
| VFrame (columns : list nat) (c : list (list Z))
| VCoeffs (a : float * float)
| VStr (s : string).

Definition get (d : gmap string value) (k : string) : result value :=
  match d !! k with Some v => Ok v | None => Raise (KeyError k) end.

Definition get_num (d : gmap string value) (k : string) : result float :=
  v ← get d k; match v with VNum x => Ok x | _ => Raise TypeError end.
Definition get_vec (d : gmap string value) (k : string) : result vec :=
  v ← get d k; match v with VVec x => Ok x | _ => Raise TypeError end.
Definition get_mat (d : gmap string value) (k : string) : result matrix :=
  v ← get d k; match v with VMat x => Ok x | _ => Raise TypeError end.
Definition get_mask (d : gmap string value) (k : string) : result (list bool) :=
  v ← get d k; match v with VMask x => Ok x | _ => Raise TypeError end.
Definition get_coeffs (d : gmap string value) (k : string) : result (float * float) :=
  v ← get d k; match v with VCoeffs x => Ok x | _ => Raise TypeError end.
Definition get_str (d : gmap string value) (k : string) : result string :=
  v ← get d k; match v with VStr x => Ok x | _ => Raise TypeError end.

(** [v == x] for a string [x]. *)
Definition is_str (v : value) (x : string) : bool :=
  match v with VStr y => String.eqb y x | _ => false end.

(** [k in d] *)
Definition has (d : gmap string value) (k : string) : bool := bool_decide (is_Some (d !! k)).

(** An attribute set after construction: reading it before is an
    [AttributeError]. *)
Definition attr (d : gmap string value) (k : string) : result value :=
  match d !! k with Some v => Ok v | None => Raise (AttributeError k) end.
Definition attr_idx (d : gmap string value) (k : string) : result (list nat) :=
  v ← attr d k; match v with VIdx x => Ok x | _ => Raise TypeError end.
Definition attr_frame (d : gmap string value) (k : string)
  : result (list nat * list (list Z)) :=
  v ← attr d k; match v with VFrame cols x => Ok (cols, x) | _ => Raise TypeError end.

(** *** Collaborators *)

(** The sample metadata: a table of strings, column by column. *)
Abbreviation Metadata := (list (string * list string)) (only parsing).

Inductive fit_type_t : Type :=
| Parametric
| Mean
| OtherFit (name : string).

(** The object [self.inference] (an [Inference]): the batched routines,
    one column per gene. [irls_glm] returns
    [(mle_lfcs, mu, hat_diagonals, converged)], [alpha_mle] returns
    [(dispersions, converged)], [dispersion_trend_gamma_glm] returns
    [(coeffs, predictions, converged)]. The three optional arguments of
    [alpha_mle] are [None] when the call leaves them out. *)
Record Inference : Type := {
  lin_reg_mu : list (list Z) -> vec -> matrix -> float -> matrix;
  irls_glm : list (list Z) -> matrix -> vec -> matrix -> vec -> float -> float ->
             matrix * matrix * matrix * list bool;
  alpha_mle : list (list Z) -> matrix -> matrix -> vec -> float -> float ->
              option float -> option bool -> option bool -> vec * list bool;
  fit_rough_dispersions : matrix -> matrix -> vec;
  fit_moments_dispersions2 : matrix -> vec -> vec;
  dispersion_trend_gamma_glm : vec -> vec -> (float * float) * vec * bool
}.

(** Routines of numpy, scipy, pandas and pydeseq2 that the class calls. *)
Record Lib : Type := {
  np_log : float -> float;
  mean_axis0 : matrix -> vec;
  polygamma : Z -> float -> float;
  f_ppf : float -> nat -> Z -> float;
  trim_mean : vec -> float -> float;
  trimmed_mean : matrix -> float -> vec;
  mean_absolute_deviation : vec -> float;
  n_or_more_replicates : matrix -> Z -> list bool;
  robust_method_of_moments_disp : matrix -> matrix -> vec;
  deseq2_norm_fit : list (list Z) -> vec * list bool;
  deseq2_norm_transform : list (list Z) -> vec -> list bool -> matrix * vec;
  build_design_matrix : Metadata -> list string -> option (list string) ->
                        option (list string) -> result matrix;
  test_valid_counts : ndarray -> result unit;
  dispersion_trend : vec -> float * float -> vec;
  value_counts : matrix -> nat
}.

(** *** The object *)

(** The arguments of the constructor that the object keeps unchanged. *)
Record params : Type := {
  metadata : Metadata;
  design_factors : list string;
  continuous_factors : option (list string);
  ref_level : option (list string);
  min_mu : float;
  min_disp : float;
  max_disp : float;
  n_obs : nat;
  n_vars : nat;
  refit_cooks : bool;
  min_replicates : Z;
  beta_tol : float;
  quiet : bool
}.

(** One call of [self.inference.irls_glm], with its arguments. *)
Record irls_call : Type := {
  call_counts : list (list Z);
  call_cnv : matrix;
  call_size_factors : vec;
  call_design_matrix : matrix;
  call_disp : vec;
  call_min_mu : float;
  call_beta_tol : float
}.

(** The object, together with the array store its references point into.
    [irls_calls] is a history variable: the calls made to
    [self.inference.irls_glm] so far, oldest first. *)
Record deconveil_fit : Type := {
  heap : store;
  cfg : params;
  fit_type : fit_type_t;
  data : gmap string pyref;
  obsm : gmap string value;
  layers : gmap string value;
  varm : gmap string value;
  uns : gmap string value;
  attrs : gmap string value;
  logmeans : option vec;
  filtered_genes : option (list bool);
  irls_calls : list irls_call
}.

Definition set_heap (h : store) (s : deconveil_fit) : deconveil_fit :=
  {| heap := h; cfg := cfg s; fit_type := fit_type s; data := data s; obsm := obsm s;
     layers := layers s; varm := varm s; uns := uns s; attrs := attrs s;
     logmeans := logmeans s; filtered_genes := filtered_genes s;
     irls_calls := irls_calls s |}.
Definition set_fit_type (t : fit_type_t) (s : deconveil_fit) : deconveil_fit :=
  {| heap := heap s; cfg := cfg s; fit_type := t; data := data s; obsm := obsm s;
     layers := layers s; varm := varm s; uns := uns s; attrs := attrs s;
     logmeans := logmeans s; filtered_genes := filtered_genes s;
     irls_calls := irls_calls s |}.
Definition set_data (k : string) (r : pyref) (s : deconveil_fit) : deconveil_fit :=
  {| heap := heap s; cfg := cfg s; fit_type := fit_type s; data := <[k := r]> (data s);
     obsm := obsm s; layers := layers s; varm := varm s; uns := uns s; attrs := attrs s;
     logmeans := logmeans s; filtered_genes := filtered_genes s;
     irls_calls := irls_calls s |}.
Definition set_obsm (k : string) (v : value) (s : deconveil_fit) : deconveil_fit :=
  {| heap := heap s; cfg := cfg s; fit_type := fit_type s; data := data s;
     obsm := <[k := v]> (obsm s); layers := layers s; varm := varm s; uns := uns s;
     attrs := attrs s; logmeans := logmeans s; filtered_genes := filtered_genes s;
     irls_calls := irls_calls s |}.
Definition set_layers (k : string) (v : value) (s : deconveil_fit) : deconveil_fit :=
  {| heap := heap s; cfg := cfg s; fit_type := fit_type s; data := data s; obsm := obsm s;
     layers := <[k := v]> (layers s); varm := varm s; uns := uns s; attrs := attrs s;
     logmeans := logmeans s; filtered_genes := filtered_genes s;
     irls_calls := irls_calls s |}.
Definition set_varm (k : string) (v : value) (s : deconveil_fit) : deconveil_fit :=
  {| heap := heap s; cfg := cfg s; fit_type := fit_type s; data := data s; obsm := obsm s;
     layers := layers s; varm := <[k := v]> (varm s); uns := uns s; attrs := attrs s;
     logmeans := logmeans s; filtered_genes := filtered_genes s;
     irls_calls := irls_calls s |}.
Definition set_uns (k : string) (v : value) (s : deconveil_fit) : deconveil_fit :=
  {| heap := heap s; cfg := cfg s; fit_type := fit_type s; data := data s; obsm := obsm s;
     layers := layers s; varm := varm s; uns := <[k := v]> (uns s); attrs := attrs s;
     logmeans := logmeans s; filtered_genes := filtered_genes s;
     irls_calls := irls_calls s |}.
Definition set_attr (k : string) (v : value) (s : deconveil_fit) : deconveil_fit :=
  {| heap := heap s; cfg := cfg s; fit_type := fit_type s; data := data s; obsm := obsm s;
     layers := layers s; varm := varm s; uns := uns s; attrs := <[k := v]> (attrs s);
     logmeans := logmeans s; filtered_genes := filtered_genes s;
     irls_calls := irls_calls s |}.
Definition set_norm_fit (lm : vec) (fg : list bool) (s : deconveil_fit) : deconveil_fit :=
  {| heap := heap s; cfg := cfg s; fit_type := fit_type s; data := data s; obsm := obsm s;
     layers := layers s; varm := varm s; uns := uns s; attrs := attrs s;
     logmeans := Some lm; filtered_genes := Some fg;
     irls_calls := irls_calls s |}.
Definition record_call (c : irls_call) (s : deconveil_fit) : deconveil_fit :=
  {| heap := heap s; cfg := cfg s; fit_type := fit_type s; data := data s; obsm := obsm s;
     layers := layers s; varm := varm s; uns := uns s; attrs := attrs s;
     logmeans := logmeans s; filtered_genes := filtered_genes s;
     irls_calls := (irls_calls s ++ [c])%list |}.

(** The history after a sub-object has run on the same inference object. *)
Definition record_calls_of (sub : deconveil_fit) (s : deconveil_fit) : deconveil_fit :=
  {| heap := heap s; cfg := cfg s; fit_type := fit_type s; data := data s; obsm := obsm s;
     layers := layers s; varm := varm s; uns := uns s; attrs := attrs s;
     logmeans := logmeans s; filtered_genes := filtered_genes s;
     irls_calls := irls_calls sub |}.

(** Runs of the methods: [None] says that the bound on the turns of the
    trend-fitting loop was reached, which is not an outcome of the program;
    [Some (Raise e)] is an exception, [Some (Ok s)] the object after the
    call. *)
Definition run (A : Type) : Type := option (result A).

#[global] Instance run_ret : MRet run := fun A a => Some (Ok a).
#[global] Instance run_bind : MBind run := fun A B f m =>
  match m with
  | Some (Ok a) => f a
  | Some (Raise e) => Some (Raise e)
  | None => None
  end.

Definition lift {A} (r : result A) : run A := Some r.
Definition raise {A} (e : exn) : run A := Some (Raise e).

(** [self.data[k]] *)
Definition data_ref (s : deconveil_fit) (k : string) : result pyref :=
  match data s !! k with Some r => Ok r | None => Raise (KeyError k) end.

(** [self.data["counts"].to_numpy()] and [self.data["cnv"].to_numpy()], read
    through the store. *)
Definition counts_to_numpy (s : deconveil_fit) : result (list (list Z)) :=
  r ← data_ref s "counts"; r ← to_numpy r; a ← deref (heap s) r; as_counts a.

Definition cnv_to_numpy (s : deconveil_fit) : result pyref :=
  r ← data_ref s "cnv"; to_numpy r.

(** [a op x] for an array [a] and a scalar: the result is a new array. *)
Definition nd_arith (f : float -> float) (r : pyref) (s : deconveil_fit)
  : result (pyref * deconveil_fit) :=
  a ← deref (heap s) r;
  let '(h, l) := alloc (heap s) (FloatArr (map (map f) (as_float a))) in
  Ok (NdArray l, set_heap h s).

(** The values of the frame [self.data[k]], read as floats. *)
Definition data_values (s : deconveil_fit) (k : string) : result matrix :=
  r ← data_ref s k; a ← deref (heap s) r; Ok (as_float a).

(** [cnv / 2 + 0.1], entry by entry. *)
Definition rescaled (cnv : matrix) : matrix := map (map (fun x => x / 2 + 0.1)) cnv.

(** The counts the object holds, read through the store. *)
Definition counts_values (s : deconveil_fit) : result (list (list Z)) :=
  r ← data_ref s "counts"; a ← deref (heap s) r; as_counts a.

(** [~(counts == 0).all(axis=0)]: the genes with at least one count. *)
Definition non_zero_mask (c : list (list Z)) : list bool :=
  map negb (Np.all_axis0 (Np.ncols c) (map (map (Z.eqb 0)) c)).

(** Gene [g] of the count matrix [c] has no count in any sample. *)
Definition all_zero_gene (c : list (list Z)) (g : nat) : Prop :=
  (g < Np.ncols c)%nat /\ forall row, row ∈ c -> row !! g = Some 0%Z.

(** *** The methods *)

Section methods.

Context (inference : Inference) (lib : Lib).

(** [__init__]. The arguments [n_cpus] and [inference] only choose the
    inference object, which is a parameter of this section. *)
Definition __init__ (h : store) (counts cnv : pyref) (metadata : Metadata)
    (design_factors : list string) (continuous_factors ref_level : option (list string))
    (fit_type : fit_type_t) (min_mu min_disp max_disp : float) (refit_cooks : bool)
    (min_replicates : Z) (beta_tol : float) (quiet : bool) : result deconveil_fit :=
  c ← deref h counts;
  ci ← astype_int counts c;
  let '(h, l) := alloc h (IntArr ci) in
  let counts_int := match counts with DataFrame _ => DataFrame l | NdArray _ => NdArray l end in
  v ← deref h cnv;
  if negb ((Np.shape ci).1 =? (nd_shape v).1)%nat && negb ((Np.shape ci).2 =? (nd_shape v).2)%nat
  then Raise (ValueError "Matrices must have the same dimensions for element-wise operations.")
  else
    _ ← test_valid_counts lib c;
    design_matrix ← build_design_matrix lib metadata design_factors continuous_factors ref_level;
    match counts_int with
    | NdArray _ => Raise (AttributeError "columns")
    | DataFrame _ =>
        let n_obs := (Np.shape ci).1 in
        let n_vars := (Np.shape ci).2 in
        Ok {| heap := h;
              cfg := {| metadata := metadata; design_factors := design_factors;
                        continuous_factors := continuous_factors; ref_level := ref_level;
                        min_mu := min_mu; min_disp := min_disp;
                        max_disp := Np.maximum max_disp (Np.of_nat n_obs);
                        n_obs := n_obs; n_vars := n_vars; refit_cooks := refit_cooks;
                        min_replicates := min_replicates; beta_tol := beta_tol;
                        quiet := quiet |};
              fit_type := fit_type;
              data := <["cnv" := cnv]> (<["counts" := counts_int]> ∅);
              obsm := <["design_matrix" := VMat design_matrix]> ∅;
              layers := ∅; varm := ∅; uns := ∅; attrs := ∅;
              logmeans := None; filtered_genes := None; irls_calls := [] |}
    end.

(** [_fit_iterate_size_factors]: after its first three assignments the method
    reads [self.obs_names], an attribute this class never sets. *)
Definition _fit_iterate_size_factors (s : deconveil_fit) : result deconveil_fit :=
  Raise (AttributeError "obs_names").

(** [(self.data["counts"] == 0).any().all()]: for a frame, [any] works column
    by column; for an array it is over all entries. *)
Definition every_gene_has_zero (r : pyref) (c : list (list Z)) : bool :=
  match r with
  | DataFrame _ => Np.all (Np.any_axis0 (Np.ncols c) (map (map (Z.eqb 0)) c))
  | NdArray _ => Np.any (concat (map (map (Z.eqb 0)) c))
  end.

(** [fit_size_factors()], with the default arguments [fit_type="ratio"] and
    [control_genes=None], which is how the class itself calls it. *)
Definition fit_size_factors (s : deconveil_fit) : result deconveil_fit :=
  r ← data_ref s "counts";
  a ← deref (heap s) r;
  c ← as_counts a;
  let _control_mask := Np.full (Np.ncols c) true in
  s ← (if every_gene_has_zero r c then _fit_iterate_size_factors s
       else
         let '(logmeans, filtered_genes) := deseq2_norm_fit lib c in
         let s := set_norm_fit logmeans filtered_genes s in
         _control_mask ← Np.inplace andb _control_mask filtered_genes;
         let '(normed_counts, size_factors) :=
           deseq2_norm_transform lib c logmeans _control_mask in
         Ok (set_obsm "size_factors" (VVec size_factors)
               (set_layers "normed_counts" (VMat normed_counts) s)));
  normed_counts ← get_mat (layers s) "normed_counts";
  Ok (set_varm "_normed_means" (VVec (mean_axis0 lib normed_counts)) s).

(** [_fit_MoM_dispersions] *)
Definition _fit_MoM_dispersions (s : deconveil_fit) : result deconveil_fit :=
  s ← (if has (layers s) "normed_counts" then Ok s else fit_size_factors s);
  normed_counts ← get_mat (layers s) "normed_counts";
  design_matrix ← get_mat (obsm s) "design_matrix";
  size_factors ← get_vec (obsm s) "size_factors";
  let rde := fit_rough_dispersions inference normed_counts design_matrix in
  let mde := fit_moments_dispersions2 inference normed_counts size_factors in
  alpha_hat ← Np.broadcast Np.minimum rde mde;
  non_zero ← get_mask (varm s) "non_zero";
  mom ← Np.put_mask (Np.full (n_vars (cfg s)) nan) non_zero
          (map (fun a => Np.clip a (min_disp (cfg s)) (max_disp (cfg s))) alpha_hat);
  Ok (set_varm "_MoM_dispersions" (VVec mom) s).

(** [fit_genewise_dispersions(vst)] *)
Definition fit_genewise_dispersions (vst : bool) (s : deconveil_fit) : result deconveil_fit :=
  s ← (if has (obsm s) "size_factors" then Ok s else fit_size_factors s);
  r ← data_ref s "counts";
  a ← deref (heap s) r;
  c ← as_counts a;
  let non_zero := non_zero_mask c in
  let s := set_varm "non_zero" (VMask non_zero) s in
  non_zero_idx ← Np.compress non_zero (seq 0 (n_vars (cfg s)));
  let s := set_attr "non_zero_genes" (VIdx non_zero_idx)
             (set_attr "non_zero_idx" (VIdx non_zero_idx) s) in
  s ← _fit_MoM_dispersions s;
  design_matrix ← get_mat (obsm s) "design_matrix";
  counts ← counts_to_numpy s;
  cnv ← cnv_to_numpy s;
  cnv ← deref (heap s) cnv;
  let cnv := as_float cnv in
  size_factors ← get_vec (obsm s) "size_factors";
  counts_nz ← Np.take_cols non_zero_idx counts;
  '(mu_hat_, s) ←
    (if (value_counts lib design_matrix =? Np.ncols design_matrix)%nat
     then Ok (lin_reg_mu inference counts_nz size_factors design_matrix (min_mu (cfg s)), s)
     else
       cnv_nz ← Np.take_cols non_zero_idx cnv;
       mom ← get_vec (varm s) "_MoM_dispersions";
       disp ← Np.take non_zero_idx mom;
       let '(_, mu_hat_, _, _) :=
         irls_glm inference counts_nz cnv_nz size_factors design_matrix disp
           (min_mu (cfg s)) (beta_tol (cfg s)) in
       Ok (mu_hat_,
           record_call {| call_counts := counts_nz; call_cnv := cnv_nz;
                          call_size_factors := size_factors;
                          call_design_matrix := design_matrix; call_disp := disp;
                          call_min_mu := min_mu (cfg s);
                          call_beta_tol := beta_tol (cfg s) |} s));
  let mu_param_name := if vst then "_vst_mu_hat" else "_mu_hat" in
  mu_full ← Np.put_cols (Np.full2 (n_obs (cfg s)) (n_vars (cfg s)) nan) non_zero mu_hat_;
  let s := set_layers mu_param_name (VMat mu_full) s in
  mu_nz ← Np.take_cols non_zero_idx mu_full;
  mom ← get_vec (varm s) "_MoM_dispersions";
  alpha_hat ← Np.take non_zero_idx mom;
  let '(dispersions_, l_bfgs_b_converged_) :=
    alpha_mle inference counts_nz design_matrix mu_nz alpha_hat
      (min_disp (cfg s)) (max_disp (cfg s)) None None None in
  gw ← Np.put_mask (Np.full (n_vars (cfg s)) nan) non_zero
         (map (fun d => Np.clip d (min_disp (cfg s)) (max_disp (cfg s))) dispersions_);
  let s := set_varm "genewise_dispersions" (VVec gw) s in
  gc ← Np.put_mask (Np.full (n_vars (cfg s)) nan) non_zero (map Np.of_bool l_bfgs_b_converged_);
  Ok (set_varm "_genewise_converged" (VVec gc) s).

(** [_fit_mean_dispersion_trend(vst)] *)
Definition _fit_mean_dispersion_trend (vst : bool) (s : deconveil_fit) : result deconveil_fit :=
  gw ← get_vec (varm s) "genewise_dispersions";
  let mean_disp :=
    trim_mean lib (filter (fun d => Np.gt d (10 * min_disp (cfg s)) = true) gw) 0.001 in
  let s := set_uns "mean_disp" (VNum mean_disp) s in
  let s := set_uns "disp_function_type" (VStr "mean") s in
  Ok (set_varm "fitted_dispersions" (VVec (Np.full (n_vars (cfg s)) mean_disp)) s).

(** [disp_function(x)]. When the type is not ["parametric"], the second test
    reads [self.disp_function_type], an attribute that is never set (the type
    is kept in [self.uns]). *)
Definition disp_function (x : vec) (s : deconveil_fit) : result vec :=
  t ← get_str (uns s) "disp_function_type";
  if String.eqb t "parametric" then
    coeffs ← get_coeffs (uns s) "trend_coeffs";
    Ok (dispersion_trend lib x coeffs)
  else Raise (AttributeError "disp_function_type").

(** The [while] loop of [_fit_parametric_dispersion_trend]. [targets] and
    [covariates] are two series over the same genes, dropped together: a row
    is the position of a gene among the non-zero genes with its target and
    its covariate. The loop gives the coefficients, or [None] when the
    method turns to the mean trend. *)
Fixpoint trend_loop (fuel : nat) (genewise : vec) (old_coeffs coeffs : float * float)
    (rows : list (nat * (float * float))) : run (option (float * float)) :=
  if (Np.gt coeffs.1 1e-10 && Np.gt coeffs.2 1e-10)
     && Np.ge (let l1 := np_log lib (abs (coeffs.1 / old_coeffs.1)) in
               let l2 := np_log lib (abs (coeffs.2 / old_coeffs.2)) in
               l1 * l1 + l2 * l2) 1e-6
  then
    match fuel with
    | O => None
    | S fuel' =>
        let old_coeffs := coeffs in
        let '(coeffs, predictions, converged) :=
          dispersion_trend_gamma_glm inference (map (fun r => r.2.2) rows)
            (map (fun r => r.2.1) rows) in
        if negb converged || ((coeffs.1 <=? 1e-10) || (coeffs.2 <=? 1e-10)) then mret None
        else
          rows ← lift (g ← Np.take (map fst rows) genewise;
                       pred_ratios ← Np.broadcast PrimFloat.div g predictions;
                       let far := map (fun r => (r <? 1e-4) || (15 <=? r)) pred_ratios in
                       Np.compress (map negb far) rows);
          trend_loop fuel' genewise old_coeffs coeffs rows
    end
  else mret (Some coeffs).

(** [_fit_parametric_dispersion_trend(vst)] *)
Definition _fit_parametric_dispersion_trend (fuel : nat) (vst : bool) (s : deconveil_fit)
  : run deconveil_fit :=
  s ← lift (if has (varm s) "genewise_dispersions" then Ok s
            else fit_genewise_dispersions vst s);
  genewise ← lift (get_vec (varm s) "genewise_dispersions");
  rows ← lift (non_zero_idx ← attr_idx (attrs s) "non_zero_idx";
               non_zero_genes ← attr_idx (attrs s) "non_zero_genes";
               targets ← Np.take non_zero_idx genewise;
               normed_means ← get_vec (varm s) "_normed_means";
               nm ← Np.take non_zero_idx normed_means;
               let covariates := map (fun m => 1 / m) nm in
               if negb (length targets =? length non_zero_genes)%nat
               then Raise (ValueError "Length of values does not match length of index")
               else Ok (filter (fun r => (Np.isinf r.2.2 || PrimFloat.is_nan r.2.2) = false)
                          (zip (seq 0 (length non_zero_genes)) (zip targets covariates))));
  fit ← trend_loop fuel genewise (0.1, 0.1) (1.0, 1.0) rows;
  match fit with
  | None => lift (_fit_mean_dispersion_trend vst s)
  | Some coeffs =>
      if vst then mret (set_uns "vst_trend_coeffs" (VCoeffs coeffs) s)
      else
        let s := set_uns "trend_coeffs" (VCoeffs coeffs) s in
        let s := set_varm "fitted_dispersions" (VVec (Np.full (n_vars (cfg s)) nan)) s in
        let s := set_uns "disp_function_type" (VStr "parametric") s in
        lift (non_zero ← get_mask (varm s) "non_zero";
              normed_means ← get_vec (varm s) "_normed_means";
              x ← Np.compress non_zero normed_means;
              fitted ← disp_function x s;
              fd ← Np.put_mask (Np.full (n_vars (cfg s)) nan) non_zero fitted;
              Ok (set_varm "fitted_dispersions" (VVec fd) s))
  end.

(** [fit_dispersion_trend()], for [vst=False]. *)
Definition fit_dispersion_trend (fuel : nat) (s : deconveil_fit) : run deconveil_fit :=
  s ← lift (if has (varm s) "genewise_dispersions" then Ok s
            else fit_genewise_dispersions false s);
  match fit_type s with
  | Parametric => _fit_parametric_dispersion_trend fuel false s
  | Mean => lift (_fit_mean_dispersion_trend false s)
  | OtherFit _ => raise NotImplementedError
  end.

(** [fit_dispersion_prior] *)
Definition fit_dispersion_prior (fuel : nat) (s : deconveil_fit) : run deconveil_fit :=
  s ← (if has (varm s) "fitted_dispersions" then mret s else fit_dispersion_trend fuel s);
  lift (
    let num_samples := n_obs (cfg s) in
    design_matrix ← get_mat (obsm s) "design_matrix";
    let num_vars := Np.ncols design_matrix in
    non_zero_genes ← attr_idx (attrs s) "non_zero_genes";
    let gene_index := seq 0 (length non_zero_genes) in
    genewise ← get_vec (varm s) "genewise_dispersions";
    fitted ← get_vec (varm s) "fitted_dispersions";
    g ← Np.take gene_index genewise;
    f ← Np.take gene_index fitted;
    disp_residuals ← Np.broadcast (fun a b => np_log lib a - np_log lib b) g f;
    let above_min_disp := map (fun d => Np.ge d (100 * min_disp (cfg s))) g in
    sel ← Np.compress above_min_disp disp_residuals;
    let mad := mean_absolute_deviation lib sel in
    let squared_logres := mad * mad in
    let s := set_uns "_squared_logres" (VNum squared_logres) s in
    let df := (Z.of_nat num_samples - Z.of_nat num_vars)%Z in
    Ok (set_uns "prior_disp_var"
          (VNum (Np.maximum (squared_logres - polygamma lib 1 (Np.of_Z df / 2)) 0.25)) s)).

(** [fit_MAP_dispersions] *)
Definition fit_MAP_dispersions (fuel : nat) (s : deconveil_fit) : run deconveil_fit :=
  s ← (if has (uns s) "prior_disp_var" then mret s else fit_dispersion_prior fuel s);
  lift (
    design_matrix ← get_mat (obsm s) "design_matrix";
    counts ← counts_to_numpy s;
    non_zero_idx ← attr_idx (attrs s) "non_zero_idx";
    counts_nz ← Np.take_cols non_zero_idx counts;
    mu_hat ← get_mat (layers s) "_mu_hat";
    mu_nz ← Np.take_cols non_zero_idx mu_hat;
    fitted ← get_vec (varm s) "fitted_dispersions";
    alpha_hat ← Np.take non_zero_idx fitted;
    prior_disp_var ← get_num (uns s) "prior_disp_var";
    let '(dispersions_, l_bfgs_b_converged_) :=
      alpha_mle inference counts_nz design_matrix mu_nz alpha_hat
        (min_disp (cfg s)) (max_disp (cfg s)) (Some prior_disp_var) (Some true) (Some true) in
    non_zero ← get_mask (varm s) "non_zero";
    map_disp ← Np.put_mask (Np.full (n_vars (cfg s)) nan) non_zero
                 (map (fun d => Np.clip d (min_disp (cfg s)) (max_disp (cfg s))) dispersions_);
    let s := set_varm "MAP_dispersions" (VVec map_disp) s in
    mc ← Np.put_mask (Np.full (n_vars (cfg s)) nan) non_zero
           (map Np.of_bool l_bfgs_b_converged_);
    let s := set_varm "_MAP_converged" (VVec mc) s in
    let s := set_varm "dispersions" (VVec map_disp) s in
    genewise ← get_vec (varm s) "genewise_dispersions";
    fitted ← get_vec (varm s) "fitted_dispersions";
    squared_logres ← get_num (uns s) "_squared_logres";
    outlier_genes ← Np.broadcast
                      (fun g f => Np.gt (np_log lib g)
                                    (np_log lib f + 2 * PrimFloat.sqrt squared_logres))
                      genewise fitted;
    let s := set_varm "_outlier_genes" (VMask outlier_genes) s in
    unshrunk ← Np.compress outlier_genes genewise;
    dispersions ← Np.put_mask map_disp outlier_genes unshrunk;
    Ok (set_varm "dispersions" (VVec dispersions) s)).

(** [fit_LFC]. The local name [cnv] is bound in turn to the view of the
    frame, to the array [cnv / 2] and to the array [cnv + 0.1]. *)
Definition fit_LFC (fuel : nat) (s : deconveil_fit) : run deconveil_fit :=
  s ← (if has (varm s) "dispersions" then mret s else fit_MAP_dispersions fuel s);
  lift (
    design_matrix ← get_mat (obsm s) "design_matrix";
    counts ← counts_to_numpy s;
    cnv ← cnv_to_numpy s;
    '(cnv, s) ← nd_arith (fun x => x / 2) cnv s;
    '(cnv, s) ← nd_arith (fun x => x + 0.1) cnv s;
    non_zero_idx ← attr_idx (attrs s) "non_zero_idx";
    counts_nz ← Np.take_cols non_zero_idx counts;
    cnv ← deref (heap s) cnv;
    cnv_nz ← Np.take_cols non_zero_idx (as_float cnv);
    size_factors ← get_vec (obsm s) "size_factors";
    dispersions ← get_vec (varm s) "dispersions";
    disp ← Np.take non_zero_idx dispersions;
    let '(mle_lfcs_, mu_, hat_diagonals_, converged_) :=
      irls_glm inference counts_nz cnv_nz size_factors design_matrix disp
        (min_mu (cfg s)) (beta_tol (cfg s)) in
    let s := record_call {| call_counts := counts_nz; call_cnv := cnv_nz;
                            call_size_factors := size_factors;
                            call_design_matrix := design_matrix; call_disp := disp;
                            call_min_mu := min_mu (cfg s);
                            call_beta_tol := beta_tol (cfg s) |} s in
    let num_vars := Np.ncols design_matrix in
    let s := set_varm "LFC" (VMat (Np.full2 (n_vars (cfg s)) num_vars nan)) s in
    non_zero_genes ← attr_idx (attrs s) "non_zero_genes";
    if negb ((length mle_lfcs_ =? length non_zero_genes)%nat
             && forallb (fun r => (length r =? num_vars)%nat) mle_lfcs_)
    then Raise (ValueError "Shape of passed values does not match the indices")
    else
      let s := set_varm "LFC"
                 (VMat (Np.put_at (Np.full2 (n_vars (cfg s)) num_vars nan)
                          non_zero_genes mle_lfcs_)) s in
      let s := set_obsm "_mu_LFC" (VMat mu_) s in
      let s := set_obsm "_hat_diagonals" (VMat hat_diagonals_) s in
      non_zero ← get_mask (varm s) "non_zero";
      lc ← Np.put_mask (Np.full (n_vars (cfg s)) nan) non_zero (map Np.of_bool converged_);
      Ok (set_varm "_LFC_converged" (VVec lc) s)).

(** [calculate_cooks] *)
Definition calculate_cooks (fuel : nat) (s : deconveil_fit) : run deconveil_fit :=
  s ← (if has (varm s) "dispersions" then mret s else fit_MAP_dispersions fuel s);
  lift (
    design_matrix ← get_mat (obsm s) "design_matrix";
    let num_vars := Np.ncols design_matrix in
    non_zero_mask ← get_mask (varm s) "non_zero";
    normed_counts ← get_mat (layers s) "normed_counts";
    nc_nz ← Np.compress_cols non_zero_mask normed_counts;
    let dispersions := robust_method_of_moments_disp lib nc_nz design_matrix in
    r ← data_ref s "counts";
    r ← to_numpy r;
    let s := set_data "counts" r s in
    a ← deref (heap s) r;
    counts ← as_counts a;
    counts_nz ← Np.compress_cols non_zero_mask counts;
    mu_LFC ← get_mat (obsm s) "_mu_LFC";
    squared_pearson_res ←
      Np.broadcast2 (fun c m => let r := Np.of_Z c - m in r * r) counts_nz mu_LFC;
    V ← Np.broadcast_cols (fun m d => m * m * d) mu_LFC dispersions;
    V ← Np.broadcast2 PrimFloat.add V mu_LFC;
    squared_pearson_res ← Np.broadcast2 PrimFloat.div squared_pearson_res V;
    let squared_pearson_res := map (map (fun x => x / Np.of_nat num_vars)) squared_pearson_res in
    hat_diagonals ← get_mat (obsm s) "_hat_diagonals";
    let diag_mul := map (map (fun h => h / ((1 - h) * (1 - h)))) hat_diagonals in
    squared_pearson_res ← Np.broadcast2 PrimFloat.mul squared_pearson_res diag_mul;
    cooks ← Np.put_cols (Np.full2 (n_obs (cfg s)) (n_vars (cfg s)) nan) non_zero_mask
              squared_pearson_res;
    Ok (set_layers "cooks" (VMat cooks) s)).

(** [_replace_outliers] *)
Definition _replace_outliers (fuel : nat) (s : deconveil_fit) : run deconveil_fit :=
  s ← (if has (layers s) "cooks" then mret s else calculate_cooks fuel s);
  lift (
    let num_samples := n_obs (cfg s) in
    design_matrix ← get_mat (obsm s) "design_matrix";
    let num_vars := Np.ncols design_matrix in
    let replaceable := n_or_more_replicates lib design_matrix (min_replicates (cfg s)) in
    let s := set_obsm "replaceable" (VMask replaceable) s in
    if (Np.count_true replaceable =? 0)%nat
    then Ok (set_varm "replaced" (VMask (Np.full (n_vars (cfg s)) false)) s)
    else
      let cooks_cutoff :=
        f_ppf lib 0.99 num_vars (Z.of_nat num_samples - Z.of_nat num_vars) in
      cooks ← get_mat (layers s) "cooks";
      let idx := map (map (fun c => Np.gt c cooks_cutoff)) cooks in
      let replaced := Np.any_axis0 (Np.ncols idx) idx in
      let s := set_varm "replaced" (VMask replaced) s in
      if (0 <? Np.count_true replaced)%nat then
        r ← data_ref s "counts";
        counts ← match r with
                 | NdArray _ => a ← deref (heap s) r; as_counts a
                 | DataFrame _ => Raise TypeError
                 end;
        counts_to_refit ← Np.compress_cols replaced counts;
        let columns := Np.where_true replaced in
        let s := set_attr "counts_to_refit" (VFrame columns counts_to_refit) s in
        size_factors ← get_vec (obsm s) "size_factors";
        normed ← Np.broadcast_rows (fun c sf => Np.of_Z c / sf) counts_to_refit size_factors;
        let trim_base_mean := trimmed_mean lib normed 0.2 in
        if negb ((length trim_base_mean =? length columns)%nat
                 && (length size_factors =? length counts_to_refit)%nat)
        then Raise (ValueError "Shape of passed values does not match the indices")
        else
          replacement_counts ←
            mapR (fun sf => mapR (fun t => Np.to_int (t * sf)) trim_base_mean) size_factors;
          idx_replaced ← Np.compress_cols replaced idx;
          replace_mask ← Np.broadcast_rows (fun i r => r && i) idx_replaced replaceable;
          let rows := Np.any_axis1 replace_mask in
          replacement_counts_trimmed ← Np.compress rows replacement_counts;
          kept ← Np.compress rows counts_to_refit;
          if negb (bool_decide (Np.shape replacement_counts_trimmed = Np.shape kept))
          then Raise AssertionError
          else
            Ok (set_attr "counts_to_refit"
                  (VFrame columns (Np.put counts_to_refit rows replacement_counts_trimmed)) s)
      else Ok s).

(** [_refit_without_outliers]. The sub-object is built on the same store and
    shares the frame [self.data["cnv"]] with its parent. *)
Definition _refit_without_outliers (fuel : nat) (s : deconveil_fit) : run deconveil_fit :=
  if negb (refit_cooks (cfg s)) then raise AssertionError else
  s ← (if has (varm s) "replaced" then mret s else _replace_outliers fuel s);
  '(columns, counts_to_refit) ← lift (attr_frame (attrs s) "counts_to_refit");
  let new_all_zeroes :=
    Np.all_axis0 (Np.ncols counts_to_refit) (map (map (Z.eqb 0)) counts_to_refit) in
  new_all_zeroes_genes ← lift (Np.compress new_all_zeroes columns);
  let s := set_attr "new_all_zeroes_genes" (VIdx new_all_zeroes_genes) s in
  replaced ← lift (get_mask (varm s) "replaced");
  refitted ← lift (Np.put_mask replaced replaced (map negb new_all_zeroes));
  let s := set_varm "refitted" (VMask refitted) s in
  s ← lift (if (0 <? Np.count_true new_all_zeroes)%nat then
              normed_means ← get_vec (varm s) "_normed_means";
              let s := set_varm "_normed_means"
                         (VVec (foldl (fun a i => <[i := 0]> a) normed_means
                                  new_all_zeroes_genes)) s in
              lfc ← get_mat (varm s) "LFC";
              Ok (set_varm "LFC"
                    (VMat (foldl (fun a i => alter (map (fun _ => 0)) i a) lfc
                             new_all_zeroes_genes)) s)
            else Ok s);
  if (Np.count_true refitted =? 0)%nat then mret s else
  counts_to_refit ← lift (Np.compress_cols (map negb new_all_zeroes) counts_to_refit);
  columns ← lift (Np.compress (map negb new_all_zeroes) columns);
  let s := set_attr "counts_to_refit" (VFrame columns counts_to_refit) s in
  cnv ← lift (data_ref s "cnv");
  let '(h, l) := alloc (heap s) (IntArr counts_to_refit) in
  sub_dds ← lift (__init__ h (DataFrame l) cnv (metadata (cfg s)) (design_factors (cfg s))
                    (continuous_factors (cfg s)) (ref_level (cfg s)) Parametric
                    (min_mu (cfg s)) (min_disp (cfg s)) (max_disp (cfg s))
                    (refit_cooks (cfg s)) (min_replicates (cfg s)) (beta_tol (cfg s)) false);
  let sub_dds := {| heap := heap sub_dds; cfg := cfg sub_dds; fit_type := fit_type sub_dds;
                    data := data sub_dds; obsm := obsm sub_dds; layers := layers sub_dds;
                    varm := varm sub_dds; uns := uns sub_dds; attrs := attrs sub_dds;
                    logmeans := logmeans sub_dds; filtered_genes := filtered_genes sub_dds;
                    irls_calls := irls_calls s |} in
  size_factors ← lift (get_vec (obsm s) "size_factors");
  let sub_dds := set_obsm "size_factors" (VVec size_factors) sub_dds in
  sub_dds ← lift (counts ← (r ← data_ref sub_dds "counts";
                            a ← deref (heap sub_dds) r; as_counts a);
                  nc ← Np.broadcast_rows (fun c sf => Np.of_Z c / sf) counts size_factors;
                  Ok (set_layers "normed_counts" (VMat nc) sub_dds));
  sub_dds ← lift (fit_genewise_dispersions false sub_dds);
  sub_dds ← lift (t ← get (uns s) "disp_function_type";
                  let sub_dds := set_uns "disp_function_type" t sub_dds in
                  sub_dds ← (if is_str t "parametric" then
                               c ← get (uns s) "trend_coeffs";
                               Ok (set_uns "trend_coeffs" c sub_dds)
                             else if is_str t "mean" then
                               m ← get (uns s) "mean_disp";
                               Ok (set_uns "mean_disp" m sub_dds)
                             else Ok sub_dds);
                  nc ← get_mat (layers sub_dds) "normed_counts";
                  let normed_means := mean_axis0 lib nc in
                  let sub_dds := set_varm "_normed_means" (VVec normed_means) sub_dds in
                  fitted ← disp_function normed_means sub_dds;
                  let sub_dds := set_varm "fitted_dispersions" (VVec fitted) sub_dds in
                  sq ← get (uns s) "_squared_logres";
                  pv ← get (uns s) "prior_disp_var";
                  Ok (set_uns "prior_disp_var" pv (set_uns "_squared_logres" sq sub_dds)));
  sub_dds ← fit_MAP_dispersions fuel sub_dds;
  sub_dds ← fit_LFC fuel sub_dds;
  let s := record_calls_of sub_dds (set_heap (heap sub_dds) s) in
  lift (
    normed_means ← get_vec (varm s) "_normed_means";
    sub_means ← get_vec (varm sub_dds) "_normed_means";
    v ← Np.put_mask normed_means refitted sub_means;
    let s := set_varm "_normed_means" (VVec v) s in
    lfc ← get_mat (varm s) "LFC";
    sub_lfc ← get_mat (varm sub_dds) "LFC";
    v ← Np.put_mask lfc refitted sub_lfc;
    let s := set_varm "LFC" (VMat v) s in
    genewise ← get_vec (varm s) "genewise_dispersions";
    sub_genewise ← get_vec (varm sub_dds) "genewise_dispersions";
    v ← Np.put_mask genewise refitted sub_genewise;
    let s := set_varm "genewise_dispersions" (VVec v) s in
    fitted ← get_vec (varm s) "fitted_dispersions";
    sub_fitted ← get_vec (varm sub_dds) "fitted_dispersions";
    v ← Np.put_mask fitted refitted sub_fitted;
    let s := set_varm "fitted_dispersions" (VVec v) s in
    dispersions ← get_vec (varm s) "dispersions";
    sub_dispersions ← get_vec (varm sub_dds) "dispersions";
    v ← Np.put_mask dispersions refitted sub_dispersions;
    let s := set_varm "dispersions" (VVec v) s in
    cooks ← get_mat (layers s) "cooks";
    replaceable ← get_mask (obsm s) "replaceable";
    if negb ((length replaceable =? length cooks)%nat
             && forallb (fun row : vec => (length refitted =? length row)%nat) cooks)
    then Raise IndexError
    else
    let replace_cooks :=
      zip_with (fun (r : bool) (row : vec) =>
                  if r then zip_with (fun (b : bool) c => if b then 0 else c) refitted row
                  else row)
               replaceable cooks in
    Ok (set_layers "replace_cooks" (VMat replace_cooks) s)).

(** [refit] *)
Definition refit (fuel : nat) (s : deconveil_fit) : run deconveil_fit :=
  s ← _replace_outliers fuel s;
  replaced ← lift (get_mask (varm s) "replaced");
  if (0 <? Np.count_true replaced)%nat then _refit_without_outliers fuel s
  else mret (set_varm "refitted" (VMask (Np.full (n_vars (cfg s)) false)) s).

(** [deseq2(fit_type)] *)
Definition deseq2 (fuel : nat) (fit_type : option fit_type_t) (s : deconveil_fit)
  : run deconveil_fit :=
  let s := match fit_type with Some t => set_fit_type t s | None => s end in
  s ← lift (fit_size_factors s);
  s ← lift (fit_genewise_dispersions false s);
  s ← fit_dispersion_trend fuel s;
  s ← fit_dispersion_prior fuel s;
  s ← fit_MAP_dispersions fuel s;
  s ← fit_LFC fuel s;
  s ← calculate_cooks fuel s;
  if refit_cooks (cfg s) then refit fuel s else mret s.
End methods.

(** *** The variance stabilising transformation

    [vst], [vst_fit] and [vst_transform]. Beside the exceptions of the
    methods they call, they raise [RuntimeError]. The attribute
    [vst_fit_type] exists once [vst] or [vst_fit] has assigned it; it is kept
    here beside the object. [vst_transform] is taken with its default
    argument [counts=None], which is how [vst] calls it. *)

Inductive vst_exn : Type :=
| Exn (e : exn)
| RuntimeError (msg : string).

Inductive vst_result (A : Type) : Type :=
| Returns (a : A)
| Raises (e : vst_exn).
Arguments Returns {A} a.
Arguments Raises {A} e.

Definition vst_run (A : Type) : Type := option (vst_result A).

#[global] Instance vst_run_ret : MRet vst_run := fun A a => Some (Returns a).
#[global] Instance vst_run_bind : MBind vst_run := fun A B f m =>
  match m with
  | Some (Returns a) => f a
  | Some (Raises e) => Some (Raises e)
  | None => None
  end.

Definition of_run {A} (r : run A) : vst_run A :=
  match r with
  | Some (Ok a) => Some (Returns a)
  | Some (Raise e) => Some (Raises (Exn e))
  | None => None
  end.

Record vst_object : Type := {
  obj : deconveil_fit;
  vst_fit_type : option fit_type_t
}.

Section vst.

Context (inference : Inference) (lib : Lib).

(** [np.log2] and [np.arcsinh] *)
Context (np_log2 np_arcsinh : float -> float).

(** [vst_fit(use_design)]. Without the design, the method stores a copy of
    the design matrix and then builds the intercept design from
    [self.obs_names], an attribute this class never sets. *)
Definition vst_fit (fuel : nat) (use_design : bool) (o : vst_object) : vst_run vst_object :=
  let s := obj o in
  s ← of_run (if negb (has (obsm s) "size_factors")
                 || match logmeans s with None => true | Some _ => false end
              then lift (fit_size_factors lib s) else mret s);
  let t := match vst_fit_type o with Some t => t | None => fit_type s end in
  if use_design then
    s ← of_run (match t with
                | Parametric => _fit_parametric_dispersion_trend inference lib fuel true s
                | _ => lift (fit_genewise_dispersions inference lib true s)
                end);
    mret {| obj := s; vst_fit_type := Some t |}
  else
    design_matrix ← of_run (lift (get (obsm s) "design_matrix"));
    let s := set_obsm "design_matrix_buffer" design_matrix s in
    Some (Raises (Exn (AttributeError "obs_names"))).

(** The two closed forms of [vst_transform], for one normalised count. *)
Definition vst_parametric (a0 a1 x : float) : float :=
  np_log2 ((1 + a1 + 2 * a0 * x + 2 * PrimFloat.sqrt (a0 * x * (1 + a1 + a0 * x)))
           / (4 * a0)).

Definition vst_mean (mean_disp x : float) : float :=
  (2 * np_arcsinh (PrimFloat.sqrt (mean_disp * x)) - np_log lib mean_disp - np_log lib 4)
  / np_log lib 2.

(** [vst_transform()] *)
Definition vst_transform (o : vst_object) : vst_result matrix :=
  let s := obj o in
  if negb (has (obsm s) "size_factors")
  then Raises (RuntimeError "The vst_fit method should be called prior to vst_transform.")
  else
    match get_mat (layers s) "normed_counts" with
    | Raise e => Raises (Exn e)
    | Ok normed_counts =>
        match vst_fit_type o with
        | None => Raises (Exn (AttributeError "vst_fit_type"))
        | Some Parametric =>
            if negb (has (uns s) "vst_trend_coeffs")
            then Raises (RuntimeError "Fit the dispersion curve prior to applying VST.")
            else
              match get_coeffs (uns s) "vst_trend_coeffs" with
              | Raise e => Raises (Exn e)
              | Ok (a0, a1) => Returns (map (map (vst_parametric a0 a1)) normed_counts)
              end
        | Some Mean =>
            match get_vec (varm s) "vst_genewise_dispersions" with
            | Raise e => Raises (Exn e)
            | Ok gene_dispersions =>
                let use_for_mean :=
                  map (fun d => Np.gt d (10 * min_disp (cfg s))) gene_dispersions in
                let mean_disp := trim_mean lib (Np.select use_for_mean gene_dispersions) 0.001 in
                Returns (map (map (vst_mean mean_disp)) normed_counts)
            end
        | Some (OtherFit _) => Raises (Exn NotImplementedError)
        end
    end.

(** [vst(use_design, fit_type)] *)
Definition vst (fuel : nat) (use_design : bool) (fit_type' : option fit_type_t)
    (o : vst_object) : vst_run vst_object :=
  let o := {| obj := obj o;
              vst_fit_type := Some (match fit_type' with
                                    | Some t => t
                                    | None => fit_type (obj o)
                                    end) |} in
  o ← vst_fit fuel use_design o;
  v ← Some (vst_transform o);
  mret {| obj := set_layers "vst_counts" (VMat v) (obj o); vst_fit_type := vst_fit_type o |}.

End vst.

End Dds.

(** ** An executable instance of the collaborators

    The properties below hold for every behaviour of the library routines
    and of the inference object. To run the model on small inputs, this
    module gives them a definite, simple reading: reductions and products are left-to-right
    folds, [exp], [log] and [gammaln] are short series, [qr] and
    [matrix_rank] are Gram-Schmidt on the columns, [solve] and [inv] are
    Gaussian elimination, and the minimiser gives up at once, handing back
    its start point with the success flag it is told to report. The
    inference object runs the solver above gene by gene, estimates a
    dispersion by a search over a fixed grid (a coarse stand-in for the
    optimiser: it moves from the start value only to a point of the grid),
    and fits the trend by least squares; the statistics are the textbook
    ones. *)

Module Ref.

Definition sum (v : vec) : float := foldl PrimFloat.add 0 v.

Definition mean (v : vec) : float := sum v / Np.of_nat (length v).

Definition dot (u v : vec) : result float :=
  if (length u =? length v)%nat then Ok (sum (zip_with PrimFloat.mul u v))
  else Raise (ValueError "matmul: mismatch in the core dimension").

Definition matvec (a : matrix) (v : vec) : result vec := mapR (fun r => dot r v) a.

Definition matmul (a b : matrix) : result matrix :=
  mapR (fun r => mapR (dot r) (Np.transpose (Np.ncols b) b)) a.

Definition vecmat (v : vec) (a : matrix) : result vec :=
  matvec (Np.transpose (Np.ncols a) a) v.

Definition exp_series (y : float) : float :=
  1 + y * (1 + y / 2 * (1 + y / 3 * (1 + y / 4 * (1 + y / 5 * (1 + y / 6 * (1 + y / 7)))))).

(** Below -746 the exponential is zero in binary64; this takes in minus
    infinity, on which the series has no value. *)
Definition exp (x : float) : float :=
  if x <? -746 then 0
  else Nat.iter 10 (fun t => t * t) (exp_series (x / 1024)).

Definition log (x : float) : float :=
  if x =? 0 then neg_infinity
  else if 0 <? x then Nat.iter 40 (fun y => y + 2 * (x - exp y) / (x + exp y)) 0
  else nan.

Definition gammaln (x : float) : float :=
  let p := x * (x + 1) * (x + 2) * (x + 3) * (x + 4) * (x + 5) * (x + 6) * (x + 7) in
  let z := x + 8 in
  (z - 0.5) * log z - z + 0.9189385332046727 + 1 / (12 * z) - 1 / (360 * z * z * z)
  + 1 / (1260 * z * z * z * z * z) - log p.

(** pydeseq2's [nb_nll(counts, mu, alpha)]. *)
Definition nb_nll (counts : list Z) (mu : vec) (alpha : float) : result float :=
  let n := Np.of_nat (length counts) in
  let alpha_neg1 := 1 / alpha in
  terms ← Np.broadcast (fun c m =>
             let logbinom := gammaln (c + alpha_neg1) - gammaln (c + 1) - gammaln alpha_neg1 in
             - logbinom + (c + alpha_neg1) * log (alpha_neg1 + m) - c * log m)
           (map Np.of_Z counts) mu;
  Ok (n * alpha_neg1 * log alpha + sum terms).

(** Gram-Schmidt on the columns of [x]: for each column, its coefficients on
    the orthonormal columns found so far, and the norm of what remains. *)
Definition dot0 (u v : vec) : float := sum (zip_with PrimFloat.mul u v).

Definition gram_schmidt (cols : list vec) : list (vec * vec * float) :=
  foldl (fun acc c =>
           let coeffs := map (fun '(q, _, _) => dot0 q c) acc in
           let v := foldl (fun v '(q, r) => zip_with (fun vi qi => vi - r * qi) v q)
                          c (zip (map (fun '(q, _, _) => q) acc) coeffs) in
           let norm := PrimFloat.sqrt (dot0 v v) in
           (acc ++ [(map (fun vi => vi / norm) v, coeffs, norm)])%list)
        [] cols.

Definition matrix_rank (x : matrix) : nat :=
  length (filter (fun '(_, _, norm) => (1e-9 <? norm) = true)
                 (gram_schmidt (Np.transpose (Np.ncols x) x))).

Definition qr (x : matrix) : result (matrix * matrix) :=
  let p := Np.ncols x in
  let gs := gram_schmidt (Np.transpose p x) in
  let q := Np.transpose (length x) (map (fun '(q, _, _) => q) gs) in
  let rT := map (fun '(_, coeffs, norm) =>
                   take p (coeffs ++ norm :: replicate p 0)%list) gs in
  Ok (q, Np.transpose p rT).

(** Gaussian elimination without pivoting; a zero pivot is a singular
    matrix. [n] is the size of the system. *)
Fixpoint solve_n (n : nat) (a : matrix) (b : vec) : result vec :=
  match n, a, b with
  | O, [], [] => Ok []
  | S n', (a11 :: r1) :: rest, b1 :: bs =>
      if a11 =? 0 then Raise LinAlgError
      else
        let reduced := zip_with (fun r bi =>
                          match r with
                          | [] => ([], bi)
                          | ai1 :: ri =>
                              let factor := ai1 / a11 in
                              (zip_with (fun x y => x - factor * y) ri r1, bi - factor * b1)
                          end) rest bs in
        xs ← solve_n n' (map fst reduced) (map snd reduced);
        Ok ((b1 - dot0 r1 xs) / a11 :: xs)
  | _, _, _ => Raise LinAlgError
  end.

Definition solve (a : matrix) (b : vec) : result vec := solve_n (length a) a b.

Definition inv (a : matrix) : result matrix :=
  let n := length a in
  cols ← mapR (fun j => solve a (map (fun i => if (i =? j)%nat then 1 else 0) (seq 0 n)))
              (seq 0 n);
  Ok (Np.transpose n cols).

Definition numeric (success : bool) : Utils.Numeric := {|
  Utils.np_exp := exp;
  Utils.np_log := log;
  Utils.np_mean := mean;
  Utils.np_sum := sum;
  Utils.matmul := matmul;
  Utils.matvec := matvec;
  Utils.vecmat := vecmat;
  Utils.matrix_rank := matrix_rank;
  Utils.qr := qr;
  Utils.solve := solve;
  Utils.inv := inv;
  Utils.nb_nll := nb_nll;
  Utils.minimize := fun _ b0 _ _ _ => Ok {| Utils.res_x := b0; Utils.res_success := success |}
|}.

(** Column [j] of a matrix. *)
Definition column {A} (j : nat) (m : list (list A)) : list A := omap (fun r => r !! j) m.

Definition columns {A} (m : list (list A)) : list (list A) := Np.transpose (Np.ncols m) m.

Fixpoint insert_sorted (x : float) (l : vec) : vec :=
  match l with
  | [] => [x]
  | y :: l' => if x <=? y then x :: l else y :: insert_sorted x l'
  end.

Definition sort (l : vec) : vec := foldr insert_sorted [] l.

Definition median (l : vec) : float :=
  let s := sort l in
  let n := length s in
  if Nat.even n
  then (nth (n / 2 - 1) s nan + nth (n / 2) s nan) / 2
  else nth (n / 2) s nan.

Definition variance (l : vec) : float :=
  let m := mean l in
  sum (map (fun x => (x - m) * (x - m)) l) / (Np.of_nat (length l) - 1).

(** The mean of [l] without its [k] smallest and [k] largest values. *)
Definition mean_without (k : nat) (l : vec) : float :=
  mean (take (length l - 2 * k) (drop k (sort l))).

Definition floor_nat (x : float) : nat :=
  match Np.to_int x with Ok z => Z.to_nat z | Raise _ => 0%nat end.

Definition trim_mean (l : vec) (proportiontocut : float) : float :=
  mean_without (floor_nat (proportiontocut * Np.of_nat (length l))) l.

Definition trimmed_mean (m : matrix) (trim : float) : vec :=
  map (fun c => mean_without (floor_nat (Np.of_nat (length c) * trim)) c) (columns m).

Definition mean_absolute_deviation (l : vec) : float :=
  let med := median l in
  median (map (fun x => abs (x - med)) l) / 0.6744897501960817.

(** The trigamma function, by its recurrence and its asymptotic series. *)
Definition polygamma (n : Z) (x : float) : float :=
  let shifted := foldl (fun acc k => acc + 1 / ((x + Np.of_nat k) * (x + Np.of_nat k)))
                       0 (seq 0 6) in
  let z := x + 6 in
  shifted + 1 / z + 1 / (2 * z * z) + 1 / (6 * z * z * z).

(** The regularised incomplete beta function, by its continued fraction. *)
Definition betacf (a b x : float) : float :=
  let guard := fun v => if abs v <? 1e-300 then 1e-300 else v in
  let qab := a + b in
  let qap := a + 1 in
  let qam := a - 1 in
  let d0 := 1 / guard (1 - qab * x / qap) in
  (foldl (fun '(c, d, h) k =>
            let m := Np.of_nat k in
            let m2 := 2 * m in
            let aa := m * (b - m) * x / ((qam + m2) * (a + m2)) in
            let d := 1 / guard (1 + aa * d) in
            let c := guard (1 + aa / c) in
            let h := h * d * c in
            let aa := - (a + m) * (qab + m) * x / ((a + m2) * (qap + m2)) in
            let d := 1 / guard (1 + aa * d) in
            let c := guard (1 + aa / c) in
            (c, d, h * d * c))
         (1, d0, d0) (seq 1 100)).2.

Definition betainc (a b x : float) : float :=
  if x <=? 0 then 0
  else if 1 <=? x then 1
  else
    let bt := exp (gammaln (a + b) - gammaln a - gammaln b + a * log x + b * log (1 - x)) in
    if x <? (a + 1) / (a + b + 2) then bt * betacf a b x / a
    else 1 - bt * betacf b a (1 - x) / b.

(** The quantile of the F distribution: the solution [x] of
    [betainc (dfn/2) (dfd/2) x = p] by bisection, carried back to the scale
    of the ratio. Without degrees of freedom there is no quantile. *)
Definition f_ppf (p : float) (dfn : nat) (dfd : Z) : float :=
  if (dfn =? 0)%nat || (dfd <=? 0)%Z then nan
  else
    let a := Np.of_nat dfn / 2 in
    let b := Np.of_Z dfd / 2 in
    let '(lo, hi) :=
      Nat.iter 60 (fun '(lo, hi) =>
                     let mid := (lo + hi) / 2 in
                     if betainc a b mid <? p then (mid, hi) else (lo, mid))
               (0, 1) in
    let x := (lo + hi) / 2 in
    Np.of_Z dfd * x / (Np.of_nat dfn * (1 - x)).

Definition same_row (r1 r2 : vec) : bool :=
  (length r1 =? length r2)%nat && forallb id (zip_with PrimFloat.eqb r1 r2).

Definition n_or_more_replicates (design : matrix) (min_replicates : Z) : list bool :=
  map (fun r => (min_replicates <=? Z.of_nat (length (filter (fun r' => same_row r r' = true)
                                                         design)))%Z) design.

Definition value_counts (design : matrix) : nat :=
  length (foldl (fun seen r => if existsb (same_row r) seen then seen else (seen ++ [r])%list)
                [] design).

(** Least squares of the columns of [y] on [design], and its fitted values. *)
Definition lstsq_predict (design y : matrix) : matrix :=
  let xt := columns design in
  let fitted :=
    map (fun yc =>
           match (xtx ← matmul xt design; xty ← matvec xt yc;
                  beta ← solve xtx xty; matvec design beta) with
           | Ok v => v
           | Raise _ => map (fun _ => nan) yc
           end) (columns y) in
  Np.transpose (length y) fitted.

Definition lin_reg_mu (counts : list (list Z)) (sf : vec) (design : matrix) (min_mu : float)
  : matrix :=
  let normed := zip_with (fun r s => map (fun c => Np.of_Z c / s) r) counts sf in
  zip_with (fun r s => map (fun v => Np.maximum (s * v) min_mu) r)
           (lstsq_predict design normed) sf.

(** The two rough estimators: a value for each column of [normed_counts]. *)
Definition fit_rough_dispersions (normed_counts design : matrix) : vec :=
  let nc := normed_counts in
  let y_hat := map (map (fun v => Np.maximum v 1)) (lstsq_predict design nc) in
  let dof := Np.of_nat (length design) - Np.of_nat (Np.ncols design) in
  map (fun p => Np.maximum (sum (zip_with (fun y h => ((y - h) * (y - h) - h) / (dof * h * h))
                                          p.1 p.2)) 0)
      (zip (columns nc) (columns y_hat)).

Definition fit_moments_dispersions2 (normed_counts : matrix) (sf : vec) : vec :=
  let s_mean_inv := mean (map (fun s => 1 / s) sf) in
  map (fun c => let mu := mean c in
                Utils.nan_to_num ((variance c - s_mean_inv * mu) / (mu * mu)))
      (columns normed_counts).

Definition robust_method_of_moments_disp (normed_counts design : matrix) : vec :=
  map (fun c => let m := mean c in Np.maximum ((variance c - m) / (m * m)) 0.04)
      (columns normed_counts).

(** The candidate with the least value of [loss]. *)
Definition argmin (loss : float -> float) (start : float) (candidates : vec) : float :=
  foldl (fun best a => if loss a <? loss best then a else best) start candidates.

(** A dispersion for each gene: the least negative log-likelihood over a
    geometric grid between the bounds, with the quadratic pull towards the
    start value when a prior variance is given and asked for. *)
Definition alpha_mle (counts : list (list Z)) (design mu : matrix) (alpha_hat : vec)
    (min_disp max_disp : float) (prior_disp_var : option float) (cr_reg prior_reg : option bool)
  : vec * list bool :=
  let grid := map (fun i => exp (log min_disp
                                 + Np.of_nat i / 24 * (log max_disp - log min_disp)))
                  (seq 0 25) in
  let fit := fun (c : list Z) (m : vec) (a0 : float) =>
    let loss := fun a =>
      match nb_nll c m a with
      | Ok v =>
          match prior_disp_var, prior_reg with
          | Some pv, Some true => v + (log a - log a0) * (log a - log a0) / (2 * pv)
          | _, _ => v
          end
      | Raise _ => nan
      end in
    argmin loss a0 grid in
  (zip_with (fun cm a0 => fit cm.1 cm.2 a0) (zip (columns counts) (columns mu)) alpha_hat,
   map (fun _ => true) alpha_hat).

(** The solver, gene by gene; a gene on which it raises gets NaN. *)
Definition irls_glm (num : Utils.Numeric) (counts : list (list Z)) (cnv : matrix) (sf : vec)
    (design : matrix) (disp : vec) (min_mu beta_tol : float)
  : matrix * matrix * matrix * list bool :=
  let p := Np.ncols design in
  let n := length design in
  let fits := zip_with (fun cc d =>
                match Utils.irls_glm num cc.1 sf design cc.2 d min_mu beta_tol (-30) 30
                        Utils.L_BFGS_B 250 [] with
                | Some (Ok r, _) => r
                | _ => (replicate p nan, replicate n nan, replicate n nan, false)
                end) (zip (columns counts) (columns cnv)) disp in
  (map (fun r => r.1.1.1) fits,
   Np.transpose n (map (fun r => r.1.1.2) fits),
   Np.transpose n (map (fun r => r.1.2) fits),
   map (fun r => r.2) fits).

(** Least squares of the targets on [1] and the covariates. *)
Definition dispersion_trend_gamma_glm (covariates targets : vec) : (float * float) * vec * bool :=
  let design := map (fun c => [1; c]) covariates in
  let xt := columns design in
  match (xtx ← matmul xt design; xty ← matvec xt targets; solve xtx xty) with
  | Ok [a0; a1] => ((a0, a1), map (fun c => a0 + a1 * c) covariates, true)
  | _ => ((nan, nan), map (fun _ => nan) covariates, false)
  end.

Definition inference (num : Utils.Numeric) : Dds.Inference := {|
  Dds.lin_reg_mu := lin_reg_mu;
  Dds.irls_glm := irls_glm num;
  Dds.alpha_mle := alpha_mle;
  Dds.fit_rough_dispersions := fit_rough_dispersions;
  Dds.fit_moments_dispersions2 := fit_moments_dispersions2;
  Dds.dispersion_trend_gamma_glm := dispersion_trend_gamma_glm
|}.

(** Median-of-ratios normalisation. *)
Definition deseq2_norm_fit (counts : list (list Z)) : vec * list bool :=
  let logmeans := map (fun c => mean (map (fun x => log (Np.of_Z x)) c)) (columns counts) in
  (logmeans, map (fun m => negb (Np.isinf m)) logmeans).

Definition deseq2_norm_transform (counts : list (list Z)) (logmeans : vec)
    (filtered_genes : list bool) : matrix * vec :=
  let sf := map (fun r => exp (median (Np.select filtered_genes
                                         (zip_with (fun x m => log (Np.of_Z x) - m) r logmeans))))
                counts in
  (zip_with (fun r s => map (fun x => Np.of_Z x / s) r) counts sf, sf).

(** The levels of a categorical column, sorted and without repetition. *)
Fixpoint insert_level (x : string) (l : list string) : list string :=
  match l with
  | [] => [x]
  | y :: l' =>
      if String.eqb x y then l
      else if String.ltb x y then x :: l
      else y :: insert_level x l'
  end.

Definition levels (values : list string) : list string := foldr insert_level [] values.

Definition indicator (values : list string) (level : string) : vec :=
  map (fun v => if String.eqb v level then 1 else 0) values.

(** pydeseq2's [build_design_matrix] on categorical factors: an intercept,
    then, factor by factor, the indicator of each level but the reference.
    The reference of a factor is its first level in sorted order; when
    [ref_level] names another level of a factor, the column of that level is
    dropped and the indicator of the first level is put last. The frames of
    the model hold no numeric column, so [continuous_factors] changes
    nothing here. *)
Definition build_design_matrix (metadata : Dds.Metadata) (design_factors : list string)
    (continuous_factors ref_level : option (list string)) : result matrix :=
  let column := fun f => match filter (fun c => c.1 = f) metadata with
                         | c :: _ => Ok c.2
                         | [] => Raise (KeyError f)
                         end in
  factors ← mapR (fun f => values ← column f; Ok (f, values)) design_factors;
  let dummies :=
    concat (map (fun '(f, values) =>
                   map (fun l => (f, l, indicator values l)) (tail (levels values)))
                factors) in
  dummies ← match ref_level with
             | None => Ok dummies
             | Some [f; l] =>
                 values ← column f;
                 if negb (existsb (String.eqb l) values) then Raise (KeyError l)
                 else
                   let named := fun d : string * string * vec =>
                     String.eqb d.1.1 f && String.eqb d.1.2 l in
                   if existsb named dummies then
                     match levels values with
                     | first :: _ =>
                         Ok (List.filter (fun d => negb (named d)) dummies
                               ++ [(f, first, indicator values first)])%list
                     | [] => Ok dummies
                     end
                   else Ok dummies
             | Some _ => Raise (KeyError "The reference level should contain 2 strings.")
             end;
  let n := match metadata with c :: _ => length c.2 | [] => 0%nat end in
  Ok (Np.transpose n (replicate n 1 :: map (fun d => d.2) dummies)).

(** [x % 1 == 0]: a finite float without fraction. *)
Definition is_whole (x : float) : bool :=
  match Prim2SF x with
  | S754_zero _ => true
  | S754_finite _ m e =>
      match e with
      | Zneg k => (Zpos m mod 2 ^ Zpos k =? 0)%Z
      | _ => true
      end
  | _ => false
  end.

Definition test_valid_counts (a : Dds.ndarray) : result unit :=
  match a with
  | Dds.IntArr m =>
      if existsb (existsb (fun x => (x <? 0)%Z)) m
      then Raise (ValueError "The count matrix should only contain non-negative values.")
      else Ok tt
  | Dds.FloatArr m =>
      if existsb (existsb PrimFloat.is_nan) m
      then Raise (ValueError "NaNs are not allowed in the count matrix.")
      else if existsb (existsb (fun x => negb (is_whole x))) m
      then Raise (ValueError "The count matrix should only contain integers.")
      else if existsb (existsb (fun x => x <? 0)) m
      then Raise (ValueError "The count matrix should only contain non-negative values.")
      else Ok tt
  end.

Definition lib : Dds.Lib := {|
  Dds.np_log := log;
  Dds.mean_axis0 := fun m => map mean (columns m);
  Dds.polygamma := polygamma;
  Dds.f_ppf := f_ppf;
  Dds.trim_mean := trim_mean;
  Dds.trimmed_mean := trimmed_mean;
  Dds.mean_absolute_deviation := mean_absolute_deviation;
  Dds.n_or_more_replicates := n_or_more_replicates;
  Dds.robust_method_of_moments_disp := robust_method_of_moments_disp;
  Dds.deseq2_norm_fit := deseq2_norm_fit;
  Dds.deseq2_norm_transform := deseq2_norm_transform;
  Dds.build_design_matrix := build_design_matrix;
  Dds.test_valid_counts := test_valid_counts;
  Dds.dispersion_trend := fun x coeffs => map (fun m => coeffs.1 + coeffs.2 / m) x;
  Dds.value_counts := value_counts
|}.

End Ref.

(** ** Example data

    Eight samples in two conditions of four, four genes; the copy number
    departs from two in the second condition for the first and third gene. *)

Module Ex.

Import Dds.

Definition counts : list (list Z) :=
  [[10; 25; 100; 7]; [12; 30; 90; 5]; [9; 28; 110; 6]; [11; 22; 95; 8];
   [20; 27; 50; 7]; [22; 500; 45; 6]; [19; 26; 55; 5]; [21; 24; 48; 9]]%Z.

Definition cnv : matrix :=
  [[2; 2; 2; 2]; [2; 2; 2; 2]; [2; 2; 2; 2]; [2; 2; 2; 2];
   [4; 2; 1; 2]; [4; 2; 1; 2]; [4; 2; 1; 2]; [4; 2; 1; 2]].

Definition metadata : Metadata :=
  [("condition", ["A"; "A"; "A"; "A"; "B"; "B"; "B"; "B"]);
   ("batch", ["x"; "y"; "x"; "y"; "x"; "y"; "x"; "y"])].

(** The store before the object is built: the caller's two frames. *)
Definition heap0 : store := [IntArr counts; FloatArr cnv].

Definition inference : Inference := Ref.inference (Ref.numeric true).

(** [deconveil_fit(counts=..., cnv=..., metadata=..., design_factors=factors,
    min_replicates=3, quiet=True)], the other arguments at their defaults. *)
Definition new (factors : list string) : result deconveil_fit :=
  __init__ Ref.lib heap0 (DataFrame 0%nat) (DataFrame 1%nat) metadata factors None None
    Parametric 0.5 1e-8 10 true 3 1e-8 true.

End Ex.

(** ** A sample with an extreme count

    Fourteen samples, two in the first condition and twelve in the second,
    three genes; the last sample has a count of 100000 at the first gene,
    where all the others have one. *)

Module Ex2.

Import Dds.

Definition counts : list (list Z) :=
  [[1; 30; 100]; [1; 32; 90]; [1; 28; 110]; [1; 31; 95]; [1; 29; 105]; [1; 30; 98];
   [1; 33; 50]; [1; 27; 45]; [1; 30; 55]; [1; 31; 48]; [1; 29; 52]; [1; 30; 51];
   [1; 31; 50]; [100000; 30; 51]]%Z.

Definition cnv : matrix := Np.full2 14 3 2.

Definition metadata : Metadata :=
  [("condition", ["A"; "A"; "B"; "B"; "B"; "B"; "B"; "B"; "B"; "B"; "B"; "B"; "B"; "B"])].

Definition heap0 : store := [IntArr counts; FloatArr cnv].

(** [deconveil_fit(counts=..., cnv=..., metadata=..., max_disp=max_disp,
    refit_cooks=refit_cooks, quiet=True)], the other arguments at their
    defaults. *)
Definition new (max_disp : float) (refit_cooks : bool) : result deconveil_fit :=
  __init__ Ref.lib heap0 (DataFrame 0%nat) (DataFrame 1%nat) metadata ["condition"] None None
    Parametric 0.5 1e-8 max_disp refit_cooks 7 1e-8 true.

End Ex2.

(** ** An object with Cook's distances

    Six samples in two conditions of three, two genes, size factors of one.
    The Cook's distance is far above any cutoff for the first gene in the
    first sample and for the second gene in the second sample, and zero
    elsewhere. The object is as [calculate_cooks] leaves it: the counts are
    held as an array. *)

Module Ex3.

Import Dds.

Definition counts : list (list Z) :=
  [[1; 5]; [2; 3]; [4; 3]; [8; 4]; [1; 0]; [100; 9]]%Z.

Definition cnv : matrix := Np.full2 6 2 2.

Definition metadata : Metadata := [("condition", ["A"; "A"; "A"; "B"; "B"; "B"])].

Definition cooks : matrix :=
  [[1e9; 0]; [0; 1e9]; [0; 0]; [0; 0]; [0; 0]; [0; 0]].


End Ex3.

(** ** Counts with a zero in every gene

    Two samples and two genes, each gene with a zero in one sample. *)

Module Ex4.

Import Dds.

Definition counts : list (list Z) := [[0; 5]; [3; 0]]%Z.

Definition new : result deconveil_fit :=
  __init__ Ref.lib [IntArr counts; FloatArr (Np.full2 2 2 2)] (DataFrame 0%nat)
    (DataFrame 1%nat) [("condition", ["A"; "B"])] ["condition"] None None
    Parametric 0.5 1e-8 10 true 7 1e-8 true.

End Ex4.

(** ** Other settings for the first example

    The eight samples of the first example with the default
    [min_replicates=7], which no condition reaches; a trend fit that
    converges; and the functions of numpy that the class does not call
    through its library. *)

Module Ex5.

Import Dds.

Definition new : result deconveil_fit :=
  __init__ Ref.lib Ex.heap0 (DataFrame 0%nat) (DataFrame 1%nat) Ex.metadata ["condition"]
    None None Parametric 0.5 1e-8 10 true 7 1e-8 true.

(** The routines of the examples, with a trend fit that gives the curve
    [0.05 + 2 / mean] whatever the dispersions are. *)
Definition fixed_trend : Inference := {|
  lin_reg_mu := lin_reg_mu Ex.inference;
  irls_glm := irls_glm Ex.inference;
  alpha_mle := alpha_mle Ex.inference;
  fit_rough_dispersions := fit_rough_dispersions Ex.inference;
  fit_moments_dispersions2 := fit_moments_dispersions2 Ex.inference;
  dispersion_trend_gamma_glm := fun covariates targets =>
    ((0.05, 2), map (fun c => 0.05 + 2 * c) covariates, true)
|}.

(** [np.log2] and [np.arcsinh], from the logarithm of the examples. *)
Definition np_log2 (x : float) : float := Ref.log x / Ref.log 2.
Definition np_arcsinh (x : float) : float := Ref.log (x + PrimFloat.sqrt (x * x + 1)).

(** [a.var(0, ddof=1)], column by column. *)
Definition var_axis0 (m : matrix) : vec := map Ref.variance (Ref.columns m).

End Ex5.

(** ** A gene without counts

    The first example with a fifth gene, in second place, that has no count
    in any sample. *)

Module Ex6.

Import Dds.

Definition counts : list (list Z) :=
  [[10; 0; 25; 100; 7]; [12; 0; 30; 90; 5]; [9; 0; 28; 110; 6]; [11; 0; 22; 95; 8];
   [20; 0; 27; 50; 7]; [22; 0; 500; 45; 6]; [19; 0; 26; 55; 5]; [21; 0; 24; 48; 9]]%Z.

Definition cnv : matrix :=
  [[2; 2; 2; 2; 2]; [2; 2; 2; 2; 2]; [2; 2; 2; 2; 2]; [2; 2; 2; 2; 2];
   [4; 2; 2; 1; 2]; [4; 2; 2; 1; 2]; [4; 2; 2; 1; 2]; [4; 2; 2; 1; 2]].

(** [deconveil_fit(counts=..., cnv=..., metadata=..., quiet=True)], the
    other arguments at their defaults. *)
Definition new : result deconveil_fit :=
  __init__ Ref.lib [IntArr counts; FloatArr cnv] (DataFrame 0%nat) (DataFrame 1%nat)
    Ex.metadata ["condition"] None None Parametric 0.5 1e-8 10 true 7 1e-8 true.

End Ex6.

(** * Properties *)

(** ** The order of binary64 values

    Facts about the comparisons of the kernel's floats, read off their
    specification in [SpecFloat]. *)

Section float_order.

Implicit Types x y : float.

Lemma SFcompare_refl (s : spec_float) : s <> S754_nan -> SFcompare s s = Some Eq.
Proof.
  destruct s as [b|b| |b m e]; simpl; intros H; try congruence.
  - destruct b; reflexivity.
  - rewrite Z.compare_refl.
    change (PosDef.Pos.compare_cont Eq m m) with (Pos.compare m m).
    rewrite Pos.compare_refl. destruct b; reflexivity.
Qed.

Lemma SFcompare_swap (a b : spec_float) :
  SFcompare b a = option_map CompOpp (SFcompare a b).
Proof.
  destruct a as [sa|sa| |sa ma ea], b as [sb|sb| |sb mb eb]; simpl; try reflexivity;
    try (destruct sa; reflexivity); try (destruct sb; reflexivity);
    try (destruct sa, sb; reflexivity).
  f_equal. rewrite (Z.compare_antisym ea eb).
  change (PosDef.Pos.compare_cont Eq mb ma) with (Pos.compare mb ma).
  change (PosDef.Pos.compare_cont Eq ma mb) with (Pos.compare ma mb).
  rewrite (Pos.compare_antisym ma mb).
  destruct sa, sb; simpl; try reflexivity;
    destruct (ea ?= eb)%Z; simpl; try reflexivity;
    destruct (ma ?= mb)%positive; reflexivity.
Qed.

Lemma SFcompare_None (a b : spec_float) :
  SFcompare a b = None <-> a = S754_nan \/ b = S754_nan.
Proof.
  destruct a as [sa|sa| |sa ma ea], b as [sb|sb| |sb mb eb]; simpl; split; intros H;
    try discriminate; try (destruct H; discriminate); auto.
Qed.

Lemma is_nan_spec x : PrimFloat.is_nan x = true <-> Prim2SF x = S754_nan.
Proof.
  unfold PrimFloat.is_nan. rewrite FloatAxioms.eqb_spec. unfold SFeqb. split.
  - intros H. destruct (Prim2SF x) eqn:E; try reflexivity;
      rewrite SFcompare_refl in H by congruence; discriminate.
  - intros ->. reflexivity.
Qed.

Lemma not_nan_spec x : PrimFloat.is_nan x = false <-> Prim2SF x <> S754_nan.
Proof.
  rewrite <- is_nan_spec. destruct (PrimFloat.is_nan x); split; congruence.
Qed.

Lemma ltb_nan_l x y : PrimFloat.is_nan x = true -> (x <? y) = false.
Proof. intros H%is_nan_spec. rewrite FloatAxioms.ltb_spec, H. reflexivity. Qed.

Lemma ltb_nan_r x y : PrimFloat.is_nan y = true -> (x <? y) = false.
Proof.
  intros H%is_nan_spec. rewrite FloatAxioms.ltb_spec, H. unfold SFltb.
  destruct (Prim2SF x); reflexivity.
Qed.

Lemma leb_not_nan x y :
  (x <=? y) = true -> PrimFloat.is_nan x = false /\ PrimFloat.is_nan y = false.
Proof.
  rewrite FloatAxioms.leb_spec. unfold SFleb. intros H. rewrite !not_nan_spec.
  split; intros E; rewrite E in H; simpl in H; [discriminate|].
  destruct (Prim2SF x); discriminate.
Qed.

Lemma leb_refl x : PrimFloat.is_nan x = false -> (x <=? x) = true.
Proof.
  intros H%not_nan_spec. rewrite FloatAxioms.leb_spec. unfold SFleb.
  rewrite SFcompare_refl; done.
Qed.

Lemma ltb_irrefl x : (x <? x) = false.
Proof.
  destruct (PrimFloat.is_nan x) eqn:E; [by apply ltb_nan_l|].
  apply not_nan_spec in E. rewrite FloatAxioms.ltb_spec. unfold SFltb.
  rewrite SFcompare_refl; done.
Qed.

Lemma ltb_leb x y : (x <? y) = true -> (x <=? y) = true.
Proof.
  rewrite FloatAxioms.ltb_spec, FloatAxioms.leb_spec. unfold SFltb, SFleb.
  destruct (SFcompare (Prim2SF x) (Prim2SF y)) as [[]|]; done.
Qed.

Lemma leb_not_ltb x y : (x <=? y) = true -> (y <? x) = false.
Proof.
  rewrite FloatAxioms.ltb_spec, FloatAxioms.leb_spec. unfold SFltb, SFleb.
  rewrite (SFcompare_swap (Prim2SF x) (Prim2SF y)).
  destruct (SFcompare (Prim2SF x) (Prim2SF y)) as [[]|]; done.
Qed.

Lemma not_ltb_leb x y :
  PrimFloat.is_nan x = false -> PrimFloat.is_nan y = false ->
  (x <? y) = false -> (y <=? x) = true.
Proof.
  intros Hx Hy. rewrite FloatAxioms.ltb_spec, FloatAxioms.leb_spec. unfold SFltb, SFleb.
  rewrite (SFcompare_swap (Prim2SF x) (Prim2SF y)).
  destruct (SFcompare (Prim2SF x) (Prim2SF y)) as [[]|] eqn:E; simpl; try done.
  apply SFcompare_None in E as [E%is_nan_spec|E%is_nan_spec]; congruence.
Qed.

(** [np.maximum(x, m)] is never below [m]. *)
Lemma maximum_not_below x m : (Np.maximum x m <? m) = false.
Proof.
  unfold Np.maximum.
  destruct (m <=? x) eqn:Hle; simpl.
  - by apply leb_not_ltb.
  - destruct (PrimFloat.is_nan x) eqn:Hn; [by apply ltb_nan_l | apply ltb_irrefl].
Qed.

(** [np.clip] keeps a NaN and nothing else becomes one when the bounds are
    ordered. *)
Lemma clip_nan x lo hi : PrimFloat.is_nan x = true -> Np.clip x lo hi = x.
Proof.
  intros H. unfold Np.clip, Np.clip_max. rewrite H.
  unfold Np.clip_min. by rewrite H.
Qed.

Lemma clip_bounds x lo hi :
  (lo <=? hi) = true -> PrimFloat.is_nan (Np.clip x lo hi) = false ->
  (lo <=? Np.clip x lo hi) = true /\ (Np.clip x lo hi <=? hi) = true.
Proof.
  intros Hb Hr. destruct (leb_not_nan _ _ Hb) as [Hlo Hhi].
  destruct (PrimFloat.is_nan x) eqn:Hx.
  { rewrite clip_nan in Hr by done. congruence. }
  revert Hr. unfold Np.clip, Np.clip_max. rewrite Hx.
  destruct (lo <? x) eqn:Hlx; unfold Np.clip_min.
  - rewrite Hx. destruct (x <? hi) eqn:Hxh; intros _.
    + split; by apply ltb_leb.
    + split; [done | by apply leb_refl].
  - rewrite Hlo. destruct (lo <? hi) eqn:Hlh; intros _.
    + split; [by apply leb_refl | done].
    + split; [done | by apply leb_refl].
Qed.

End float_order.

(** ** Arrays: masks and broadcasting *)

Section np_facts.

Context {A B C : Type}.

Lemma compress_length (mask : list bool) (a : list A) r :
  Np.compress mask a = Ok r -> length mask = length a.
Proof.
  unfold Np.compress. destruct (Nat.eqb_spec (length mask) (length a)); [done|discriminate].
Qed.

Lemma compress_select (mask : list bool) (a : list A) r :
  Np.compress mask a = Ok r -> r = Np.select mask a.
Proof.
  unfold Np.compress. destruct (length mask =? length a)%nat; [|discriminate].
  by intros [= <-].
Qed.

Lemma select_length (mask : list bool) : forall a : list A,
  length mask = length a -> length (Np.select mask a) = Np.count_true mask.
Proof.
  unfold Np.count_true.
  induction mask as [|b mask IH]; intros [|x a] Hl; simpl in *; try done.
  destruct b; simpl; [f_equal|]; apply IH; lia.
Qed.

Lemma put_length (a : list A) : forall mask v, length (Np.put a mask v) = length a.
Proof.
  induction a as [|x a IH]; intros [|b mask] v; simpl; try done.
  destruct b; [destruct v|]; simpl; by rewrite IH.
Qed.

(** Where the mask does not hold, [a[mask] = v] leaves the entry alone. *)
Lemma put_lookup_off (a : list A) : forall mask v g,
  mask !! g = Some false -> Np.put a mask v !! g = a !! g.
Proof.
  induction a as [|x a IH]; intros [|b mask] v g Hg; simpl; try done.
  destruct g as [|g]; simpl in *.
  - injection Hg as ->. done.
  - destruct b; [destruct v|]; simpl; by apply IH.
Qed.

(** [a[mask] = b[mask]]: the entries under the mask come from [b]. *)
Lemma put_select_lookup (a : list A) : forall mask (b : list A) g,
  length mask = length a -> length mask = length b ->
  Np.put a mask (Np.select mask b) !! g =
  match mask !! g with Some true => b !! g | _ => a !! g end.
Proof.
  induction a as [|x a IH]; intros [|m mask] [|y b] g Ha Hb; simpl in *; try done.
  destruct m; simpl; (destruct g as [|g]; simpl; [done|]); apply IH; lia.
Qed.

Lemma put_mask_length (a : list A) mask v r :
  Np.put_mask a mask v = Ok r -> length mask = length a /\ length r = length a.
Proof.
  unfold Np.put_mask. destruct (Nat.eqb_spec (length mask) (length a)) as [E|E]; simpl;
    [|discriminate].
  destruct (length v =? Np.count_true mask)%nat.
  - intros [= <-]. by rewrite put_length.
  - destruct v as [|y [|]]; try discriminate. intros [= <-]. by rewrite put_length.
Qed.

Lemma put_mask_lookup_off (a : list A) mask v r g :
  Np.put_mask a mask v = Ok r -> mask !! g = Some false -> r !! g = a !! g.
Proof.
  unfold Np.put_mask. destruct (negb _); [discriminate|].
  destruct (length v =? Np.count_true mask)%nat.
  - intros [= <-]. apply put_lookup_off.
  - destruct v as [|y [|]]; try discriminate. intros [= <-]. apply put_lookup_off.
Qed.

Lemma put_mask_select (a : list A) mask (b : list A) r g :
  length mask = length b ->
  Np.put_mask a mask (Np.select mask b) = Ok r ->
  r !! g = match mask !! g with Some true => b !! g | _ => a !! g end.
Proof.
  intros Hb H. destruct (put_mask_length _ _ _ _ H) as [Ha _].
  unfold Np.put_mask in H. rewrite Ha, Nat.eqb_refl in H. simpl in H.
  rewrite select_length, Nat.eqb_refl in H by done.
  injection H as <-. by apply put_select_lookup.
Qed.


(** A mask that is off somewhere holds at fewer places than it has. *)
Lemma count_true_lt (mask : list bool) : forall g,
  mask !! g = Some false -> (Np.count_true mask < length mask)%nat.
Proof.
  unfold Np.count_true.
  induction mask as [|b mask IH]; intros g Hg; [done|].
  destruct g as [|g]; simpl in *.
  - injection Hg as ->. simpl. pose proof (List.filter_length_le id mask). lia.
  - specialize (IH _ Hg). destruct b; simpl; lia.
Qed.

(** [a[mask] = v] with more values than places, and not a single value to
    repeat, raises. *)
Lemma put_mask_too_many (a : list A) mask v :
  (Np.count_true mask < length v)%nat -> (2 <= length v)%nat ->
  exists e, Np.put_mask a mask v = Raise e.
Proof.
  intros Hlt H2. unfold Np.put_mask.
  destruct (negb _); [by eexists|].
  destruct (Nat.eqb_spec (length v) (Np.count_true mask)); [lia|].
  destruct v as [|y [|z v]]; simpl in *; try lia. by eexists.
Qed.

(** The length of a broadcast operation when one operand has two entries
    or more. *)
Lemma broadcast_length (f : A -> B -> C) xs ys zs n :
  Np.broadcast f xs ys = Ok zs -> (2 <= n)%nat ->
  length xs = n \/ length ys = n -> length zs = n.
Proof.
  unfold Np.broadcast. intros H Hn Hl.
  destruct (Nat.eqb_spec (length xs) (length ys)) as [E|E].
  - injection H as H. subst zs. rewrite length_zip_with. lia.
  - destruct xs as [|x [|x' xs]].
    + destruct ys as [|y [|y' ys]]; simplify_eq; simpl in *; lia.
    + injection H as H. subst zs. rewrite List.length_map. simpl in *. lia.
    + destruct ys as [|y [|y' ys]]; simplify_eq. simpl in *. rewrite ?List.length_map. lia.
Qed.

End np_facts.

(** ** The solver [irls_glm] *)

Section solver_steps.

Import Utils.
Context {A B : Type}.

Lemma bind_inv (m : Solver A) (k : A -> Solver B) log r log' :
  (m ≫= k) log = Some (r, log') ->
  (exists a l1, m log = Some (Ok a, l1) /\ k a l1 = Some (r, log')) \/
  (exists e, m log = Some (Raise e, log') /\ r = Raise e).
Proof.
  unfold mbind, Solver_bind. destruct (m log) as [[[a|e] l1]|]; intros H.
  - left. eauto.
  - right. exists e. by inversion H.
  - discriminate.
Qed.

Lemma bind_some (m : Solver A) (k : A -> Solver B) log :
  is_Some (m log) -> (forall a l, is_Some (k a l)) -> is_Some ((m ≫= k) log).
Proof.
  intros [[[a|e] l1] Hm] Hk; unfold mbind, Solver_bind; rewrite Hm; eauto.
Qed.

Lemma lift_inv (x : result A) log r log' :
  lift x log = Some (r, log') -> r = x /\ log' = log.
Proof. unfold lift. by inversion 1. Qed.

End solver_steps.

(** Peel one step off a run of the solver: [solver_step] keeps the case of a
    raise, [solver_ok] is for a run known to end well. *)
Ltac solver_step H :=
  let a := fresh "a" in let l := fresh "l" in
  let e := fresh "e" in let H1 := fresh "H" in
  apply bind_inv in H as [(a & l & H1 & H)|(e & H1 & ->)];
  [ try (apply lift_inv in H1 as [H1 ->]) | try (apply lift_inv in H1 as [H1 ->]) ].

Ltac solver_ok H :=
  let a := fresh "a" in let l := fresh "l" in
  let e := fresh "e" in let H1 := fresh "H" in
  apply bind_inv in H as [(a & l & H1 & H)|(e & H1 & [=])];
  try (apply lift_inv in H1 as [H1 ->]).

Section irls_facts.

Import Utils.
Context (num : Numeric).
Variables (counts : list Z) (size_factors : vec) (design_matrix : matrix) (cnv : vec)
          (disp : float) (min_mu beta_tol min_beta max_beta : float)
          (optimizer : optimizer_t) (maxiter : Z).

Let mu_of' := mu_of num size_factors design_matrix cnv min_mu.
Let fallback' :=
  fallback num counts size_factors design_matrix cnv disp min_mu min_beta max_beta optimizer.
Let irls_loop' :=
  irls_loop num counts size_factors design_matrix cnv disp min_mu beta_tol min_beta max_beta
    optimizer maxiter.
Let irls_glm' :=
  irls_glm num counts size_factors design_matrix cnv disp min_mu beta_tol min_beta max_beta
    optimizer maxiter.

(** *** The solver returns: the loop ends within [maxiter] turns *)

Lemma fallback_returns b0 log : is_Some (fallback' b0 log).
Proof.
  unfold fallback', fallback.
  repeat first [ apply bind_some; [ | intros ? ? ] | by eexists
               | match goal with |- context [if ?c then _ else _] => destruct c end ].
Qed.

Lemma irls_loop_returns fuel : forall b0 i beta mu dev dev_ratio log,
  (maxiter - i - 1 <= Z.of_nat fuel)%Z ->
  is_Some (irls_loop' fuel b0 i beta mu dev dev_ratio log).
Proof.
  induction fuel as [|fuel IH]; intros b0 i beta mu dev dev_ratio log Hfuel;
    unfold irls_loop'; simpl; (destruct (Np.gt dev_ratio beta_tol); [|by eexists]).
  all: repeat (apply bind_some; [by eexists | intros ? ?]).
  all: match goal with |- context [(?c || (maxiter <=? ?j)%Z)] =>
         destruct c; simpl; [apply fallback_returns|];
         destruct (Z.leb_spec maxiter j); [apply fallback_returns|] end.
  - lia.
  - repeat (apply bind_some; [by eexists | intros ? ?]).
    apply IH. lia.
Qed.

Lemma irls_glm_returns log : is_Some (irls_glm' log).
Proof.
  unfold irls_glm', irls_glm.
  apply bind_some; [by eexists | intros b0 l0].
  apply bind_some; [by eexists | intros mu l1].
  apply bind_some; [apply irls_loop_returns; lia | intros [[beta mu'] c] l2].
  repeat (apply bind_some; [by eexists | intros ? ?]).
  by eexists.
Qed.

(** *** The returned mean is the floored one *)

Lemma mu_of_floor beta mu :
  mu_of' beta = Ok mu -> Forall (fun m => (m <? min_mu) = false) mu.
Proof.
  unfold mu_of', mu_of. intros H.
  destruct (matvec num design_matrix beta) as [xb|]; simpl in H; [|discriminate].
  destruct (Np.broadcast PrimFloat.mul cnv size_factors) as [cs|]; simpl in H; [|discriminate].
  destruct (Np.broadcast PrimFloat.mul cs (map (np_exp num) xb)) as [m|]; simpl in H;
    [|discriminate].
  injection H as <-. apply Forall_map, Forall_forall. intros x _.
  apply maximum_not_below.
Qed.

Lemma fallback_mu b0 log beta mu c log' :
  fallback' b0 log = Some (Ok (beta, mu, c), log') -> mu_of' beta = Ok mu.
Proof.
  unfold fallback', fallback. intros H.
  do 3 solver_ok H.
  destruct (negb (res_success a) && (Np.ncols design_matrix <=? 2)%nat).
  - do 3 solver_ok H.
    by injection H as <- <- _ _.
  - by injection H as <- <- _ _.
Qed.

Lemma irls_loop_mu fuel : forall b0 i beta mu dev dev_ratio log beta' mu' c log',
  mu_of' beta = Ok mu ->
  irls_loop' fuel b0 i beta mu dev dev_ratio log = Some (Ok (beta', mu', c), log') ->
  mu_of' beta' = Ok mu'.
Proof.
  induction fuel as [|fuel IH]; intros b0 i beta mu dev dev_ratio log beta' mu' c log' Hmu;
    unfold irls_loop'; simpl;
    (destruct (Np.gt dev_ratio beta_tol); [|by intros [= <- <- _ _]]); intros H.
  all: do 7 solver_ok H.
  all: match type of H with context [(?c || ?d)] => destruct (c || d) end;
         [by eapply fallback_mu|].
  all: do 2 solver_ok H.
  - discriminate.
  - eapply IH; [|exact H]. done.
Qed.

Lemma irls_glm_mu log beta mu H c log' :
  irls_glm' log = Some (Ok (beta, mu, H, c), log') -> mu_of' beta = Ok mu.
Proof.
  unfold irls_glm', irls_glm. intros Hrun.
  do 3 solver_ok Hrun.
  destruct a1 as [[beta1 mu1] c1].
  apply irls_loop_mu in H2; [|done].
  do 5 solver_ok Hrun.
  by injection Hrun as <- <- _ _ _.
Qed.

(** *** When the fallbacks are called *)

(** The calls a run may add to the record: none, the minimiser alone, or the
    minimiser that failed followed by the grid search, the latter only on a
    design of at most two columns. *)
Definition fallback_calls {T} (r : result T) (t : list event) : Prop :=
  t = [] \/
  (exists s, t = [EvMinimize s] /\
             (s = true \/ (2 < Np.ncols design_matrix)%nat \/ is_ok r = false)) \/
  (t = [EvMinimize false; EvGridFit] /\ (Np.ncols design_matrix <= 2)%nat).

Lemma fallback_log b0 log r log' :
  fallback' b0 log = Some (r, log') -> exists t, log' = (log ++ t)%list /\ fallback_calls r t.
Proof.
  unfold fallback', fallback, fallback_calls. intros H.
  solver_step H; [|exists []; rewrite app_nil_r; auto].
  apply bind_inv in H as [(u & l1 & H1 & H)|(e & H1 & ->)]; [|discriminate].
  injection H1 as _ <-.
  solver_step H; [|exists [EvMinimize (res_success a)]; split; [done|]; right; left; eauto].
  destruct (res_success a) eqn:Hs; simpl in H.
  { injection H as <- <-. exists [EvMinimize true]. split; [done|]. right; left; eauto. }
  destruct (Nat.leb_spec (Np.ncols design_matrix) 2) as [Hn|Hn].
  - apply bind_inv in H as [(u' & l2 & H2 & H)|(e & H2 & ->)]; [|discriminate].
    injection H2 as _ <-.
    exists [EvMinimize false; EvGridFit]. split; [|by right; right].
    assert (log' = ((log ++ [EvMinimize false]) ++ [EvGridFit])%list) as ->.
    { solver_step H; [|done]. solver_step H; [|done]. by injection H as _ <-. }
    by rewrite <- app_assoc.
  - injection H as <- <-. exists [EvMinimize false]. split; [done|]. right; left. eauto.
Qed.

Lemma irls_loop_log fuel : forall b0 i beta mu dev dev_ratio log r log',
  irls_loop' fuel b0 i beta mu dev dev_ratio log = Some (r, log') ->
  exists t, log' = (log ++ t)%list /\ fallback_calls r t.
Proof.
  assert (Hnil : forall (r : result (vec * vec * bool)) (l : list event),
             exists t, l = (l ++ t)%list /\ fallback_calls r t).
  { intros r l. exists []. rewrite app_nil_r. split; [done | by left]. }
  induction fuel as [|fuel IH]; intros b0 i beta mu dev dev_ratio log r log';
    unfold irls_loop'; simpl;
    (destruct (Np.gt dev_ratio beta_tol); [|intros [= <- <-]; apply Hnil]); intros H.
  all: do 7 (solver_step H; [|apply Hnil]).
  all: match type of H with context [(?c || ?d)] => destruct (c || d) end;
         [by eapply fallback_log|].
  all: do 2 (solver_step H; [|apply Hnil]).
  - discriminate.
  - by eapply IH.
Qed.

Lemma irls_glm_log r log' :
  irls_glm' [] = Some (r, log') -> fallback_calls r log'.
Proof.
  unfold irls_glm', irls_glm. intros Hrun.
  solver_step Hrun; [|by left].
  solver_step Hrun; [|by left].
  apply bind_inv in Hrun as [([[beta1 mu1] c1] & l1 & H1 & Hrun)|(e & H1 & ->)].
  - apply irls_loop_log in H1 as (t & -> & Ht). simpl in *.
    assert (log' = t /\ (is_ok r = false \/ True)) as [-> _].
    { do 5 (solver_step Hrun; [|by auto]). injection Hrun as _ <-. auto. }
    destruct Ht as [->|[(s & -> & Hs)|[-> Hn]]]; [by left| |by right; right].
    right; left. exists s. split; [done|].
    destruct Hs as [?|[?|Hs]]; [by auto|by auto|discriminate].
  - apply irls_loop_log in H1 as (t & -> & Ht). simpl in *.
    destruct Ht as [->|[(s & -> & Hs)|[-> Hn]]]; [by left| |by right; right].
    right; left. exists s. split; [done|]. by right; right.
Qed.

(** C3, against the claim. Every entry of the mean that [irls_glm] returns
    has been through [np.maximum(., min_mu)]: the returned [mu] is the floored
    mean of the returned coefficients, and none of its entries is below
    [min_mu]. The comment before the [return] announces an unthresholded
    mean, but no statement computes one. *)
Theorem irls_glm_returns_floored_mu log beta mu H converged log' :
  irls_glm' log = Some (Ok (beta, mu, H, converged), log') ->
  mu_of' beta = Ok mu /\ Forall (fun m => (m <? min_mu) = false) mu.
Proof.
  intros Hrun. apply irls_glm_mu in Hrun. split; [done|]. by eapply mu_of_floor.
Qed.

(** C6, as amended. The grid search runs only after the quasi-Newton
    minimisation has failed and only on a design with at most two columns
    (one column included); it does not run after a successful minimisation
    nor on a design of three columns or more. *)
Theorem grid_search_only_after_failure :
  EvGridFit ∈ calls irls_glm' ->
  (EvMinimize false ∈ calls irls_glm') /\
  (EvMinimize true ∉ calls irls_glm') /\
  (Np.ncols design_matrix <= 2)%nat.
Proof.
  unfold calls. destruct (irls_glm' []) as [[r log]|] eqn:Hrun.
  - apply irls_glm_log in Hrun as [->|[(s & -> & _)|[-> Hn]]].
    + intros H. by apply elem_of_nil in H.
    + intros H. apply list_elem_of_singleton in H. discriminate.
    + intros _. split; [by left|]. split; [|done].
      intros H. apply elem_of_cons in H as [H|H]; [discriminate|].
      apply list_elem_of_singleton in H. discriminate.
  - intros H. by apply elem_of_nil in H.
Qed.

End irls_facts.

(** A gene without counts in two samples, intercept-only design, default
    settings: the fitted coefficient is about -1.69, so that the mean before
    the floor is about 0.18 in both samples, and the returned mean is the
    floor 0.5. *)
Lemma irls_glm_returns_floored_mu_witness :
  exists beta H,
    Utils.irls_glm (Ref.numeric true) [0; 0]%Z [1; 1] [[1]; [1]] [1; 1] 0.5 0.5 1e-8 (-30) 30
      Utils.L_BFGS_B 250 [] = Some (Ok (beta, [0.5; 0.5], H, true), []) /\
    Forall (fun v => (v <? 0.5) = true)
           (map (fun xb => 1 * 1 * Ref.exp xb) (map (fun r => Ref.sum (zip_with PrimFloat.mul r beta)) [[1]; [1]])) /\
    Utils.mu_of (Ref.numeric true) [1; 1] [[1]; [1]] [1; 1] 0.5 beta = Ok [0.5; 0.5] /\
    Forall (fun m => (m <? 0.5) = false) [0.5; 0.5].
Proof.
  eexists _, _. split; [vm_compute; reflexivity|].
  split; [repeat constructor|].
  eapply (irls_glm_returns_floored_mu (Ref.numeric true) [0; 0]%Z [1; 1] [[1]; [1]] [1; 1]
            0.5 0.5 1e-8 (-30) 30 Utils.L_BFGS_B 250 []).
  vm_compute. reflexivity.
Defined.

(** A design of two columns, a single turn allowed and a minimiser that
    fails: the grid search runs after the failed minimisation. *)
Lemma grid_search_only_after_failure_witness :
  (Utils.EvMinimize false ∈
     Utils.calls (Utils.irls_glm (Ref.numeric false) [3; 5; 4]%Z [1; 1.1; 0.9]
                    [[1; 0]; [1; 1]; [1; 1]] [2; 3; 2] 0.5 0.5 1e-8 (-30) 30
                    Utils.L_BFGS_B 1)) /\
  (Utils.EvMinimize true ∉
     Utils.calls (Utils.irls_glm (Ref.numeric false) [3; 5; 4]%Z [1; 1.1; 0.9]
                    [[1; 0]; [1; 1]; [1; 1]] [2; 3; 2] 0.5 0.5 1e-8 (-30) 30
                    Utils.L_BFGS_B 1)) /\
  (Np.ncols [[1; 0]; [1; 1]; [1; 1]] <= 2)%nat.
Proof.
  apply grid_search_only_after_failure.
  assert (Utils.calls (Utils.irls_glm (Ref.numeric false) [3; 5; 4]%Z [1; 1.1; 0.9]
                         [[1; 0]; [1; 1]; [1; 1]] [2; 3; 2] 0.5 0.5 1e-8 (-30) 30
                         Utils.L_BFGS_B 1)
          = [Utils.EvMinimize false; Utils.EvGridFit]) as -> by (vm_compute; reflexivity).
  right. left.
Defined.

(** C6, against the claim as stated: on a design of one column, with a
    single turn allowed and a minimiser that fails, the grid search runs. *)
Lemma grid_search_runs_on_one_column :
  (Utils.EvGridFit ∈
     Utils.calls (Utils.irls_glm (Ref.numeric false) [3; 5; 4]%Z [1; 1.1; 0.9]
                    [[1]; [1]; [1]] [2; 3; 2] 0.5 0.5 1e-8 (-30) 30 Utils.L_BFGS_B 1)) /\
  Np.ncols [[1]; [1]; [1]] = 1%nat /\
  ~ (Utils.EvGridFit ∈
       Utils.calls (Utils.irls_glm (Ref.numeric false) [3; 5; 4]%Z [1; 1.1; 0.9]
                      [[1]; [1]; [1]] [2; 3; 2] 0.5 0.5 1e-8 (-30) 30 Utils.L_BFGS_B 1) ->
     Np.ncols [[1]; [1]; [1]] = 2%nat).
Proof.
  assert (Utils.calls (Utils.irls_glm (Ref.numeric false) [3; 5; 4]%Z [1; 1.1; 0.9]
                         [[1]; [1]; [1]] [2; 3; 2] 0.5 0.5 1e-8 (-30) 30 Utils.L_BFGS_B 1)
          = [Utils.EvMinimize false; Utils.EvGridFit]) as -> by (vm_compute; reflexivity).
  split; [right; left|]. split; [reflexivity|].
  intros H. specialize (H ltac:(right; left)). discriminate H.
Qed.

(** ** The class: what the methods leave alone *)

Section result_steps.

Context {A B : Type}.

Lemma result_bind_ok (m : result A) (k : A -> result B) b :
  m ≫= k = Ok b -> exists a, m = Ok a /\ k a = Ok b.
Proof. destruct m as [a|e]; [eauto | discriminate]. Qed.

Lemma run_bind_ok (m : Dds.run A) (k : A -> Dds.run B) b :
  m ≫= k = Some (Ok b) -> exists a, m = Some (Ok a) /\ k a = Some (Ok b).
Proof. destruct m as [[a|e]|]; [eauto | discriminate | discriminate]. Qed.

Lemma lift_ok (r : result A) a : Dds.lift r = Some (Ok a) -> r = Ok a.
Proof. unfold Dds.lift. by intros [= ->]. Qed.

(** A run that returns, and a test in the course of a run. *)
Definition succeeds (r : Dds.run A) : bool :=
  match r with Some (Ok _) => true | _ => false end.

Definition guard (b : bool) : Dds.run unit :=
  if b then Some (Ok tt) else Some (Raise AssertionError).

Lemma succeeds_inv (r : Dds.run A) : succeeds r = true -> exists a, r = Some (Ok a).
Proof. destruct r as [[a|e]|]; [eauto | discriminate | discriminate]. Qed.

Lemma guard_ok b u : guard b = Some (Ok u) -> b = true.
Proof. by destruct b. Qed.

End result_steps.

(** Take successful runs apart: every bind, branch and pair among the
    hypotheses, until only the calls of the primitives are left. *)
Ltac run_inv :=
  repeat match goal with
  | H : Dds.lift _ = Some (Ok _) |- _ => apply lift_ok in H
  | H : (_ ≫= _) = Ok _ |- _ =>
      let a := fresh "a" in let H1 := fresh "H" in
      apply result_bind_ok in H as (a & H1 & H)
  | H : (_ ≫= _) = Some (Ok _) |- _ =>
      let a := fresh "a" in let H1 := fresh "H" in
      apply run_bind_ok in H as (a & H1 & H)
  | H : (let '(_, _) := ?e in _) = _ |- _ => destruct e eqn:?
  | H : (if ?c then _ else _) = Ok _ |- _ => destruct c eqn:?
  | H : (if ?c then _ else _) = Some (Ok _) |- _ => destruct c eqn:?
  | H : Some (Ok _) = Some (Ok _) |- _ => injection H as H
  | H : mret _ = Some (Ok _) |- _ => injection H as H
  | H : mret _ = Ok _ |- _ => injection H as H
  | H : Ok _ = Ok _ |- _ => injection H as H
  | H : Raise _ = Ok _ |- _ => discriminate H
  | H : Some (Raise _) = Some (Ok _) |- _ => discriminate H
  | H : Dds.raise _ = Some (Ok _) |- _ => discriminate H
  | H : None = Some _ |- _ => discriminate H
  | H : (_, _) = (_, _) |- _ => injection H as ? ?
  | H : match ?x with _ => _ end = Some (Ok _) |- _ => is_var x; destruct x
  | H : match ?x with _ => _ end = Ok _ |- _ => is_var x; destruct x
  end.

Section frame.

Import Dds.
Context (inference : Inference) (lib : Lib).

(** The inputs of the object: the store, the configuration and the frames
    of [self.data]. [unchanged] says that a method left them as they were;
    [frame] allows the store to have grown. *)
Definition unchanged (s s' : deconveil_fit) : Prop :=
  heap s' = heap s /\ cfg s' = cfg s /\ data s' = data s.

Definition frame (s s' : deconveil_fit) : Prop :=
  heap s `prefix_of` heap s' /\ cfg s' = cfg s /\ data s' = data s.

#[local] Instance unchanged_refl : Reflexive unchanged.
Proof. intros s. by repeat split. Qed.

#[local] Instance unchanged_trans : Transitive unchanged.
Proof. intros s1 s2 s3 (H1 & H2 & H3) (H4 & H5 & H6). repeat split; congruence. Qed.

#[local] Instance frame_refl : Reflexive frame.
Proof. intros s. by repeat split. Qed.

#[local] Instance frame_trans : Transitive frame.
Proof.
  intros s1 s2 s3 (H1 & H2 & H3) (H4 & H5 & H6). repeat split.
  - by etrans.
  - congruence.
  - congruence.
Qed.

Lemma unchanged_frame s s' : unchanged s s' -> frame s s'.
Proof. intros (H1 & H2 & H3). repeat split; [by rewrite H1 | done | done]. Qed.

Lemma unchanged_set_obsm k v s : unchanged s (set_obsm k v s).
Proof. by repeat split. Qed.
Lemma unchanged_set_layers k v s : unchanged s (set_layers k v s).
Proof. by repeat split. Qed.
Lemma unchanged_set_varm k v s : unchanged s (set_varm k v s).
Proof. by repeat split. Qed.
Lemma unchanged_set_uns k v s : unchanged s (set_uns k v s).
Proof. by repeat split. Qed.
Lemma unchanged_set_attr k v s : unchanged s (set_attr k v s).
Proof. by repeat split. Qed.
Lemma unchanged_set_norm_fit a b s : unchanged s (set_norm_fit a b s).
Proof. by repeat split. Qed.
Lemma unchanged_record_call c s : unchanged s (record_call c s).
Proof. by repeat split. Qed.
Lemma unchanged_set_fit_type t s : unchanged s (set_fit_type t s).
Proof. by repeat split. Qed.

Lemma frame_nd_arith f r s r' s' : nd_arith f r s = Ok (r', s') -> frame s s'.
Proof.
  unfold nd_arith, alloc. intros H. run_inv. subst.
  repeat split. simpl. by apply prefix_app_r.
Qed.

Create HintDb frame_db.

(** Close a goal about the inputs: peel the setters, and pass through the
    methods whose lemma is in [frame_db]. *)
Ltac unchanged_step :=
  first
    [ apply unchanged_set_obsm
    | apply unchanged_set_layers
    | apply unchanged_set_varm
    | apply unchanged_set_uns
    | apply unchanged_set_attr
    | apply unchanged_set_norm_fit
    | apply unchanged_record_call
    | apply unchanged_set_fit_type
    | solve [eauto with frame_db] ].

Ltac frame_close :=
  repeat first
    [ reflexivity
    | (etrans; [| unchanged_step ])
    | (etrans; [| apply unchanged_frame; unchanged_step ]) ].

#[local] Hint Resolve frame_nd_arith : frame_db.

Lemma fit_size_factors_unchanged s s' : fit_size_factors lib s = Ok s' -> unchanged s s'.
Proof.
  unfold fit_size_factors, _fit_iterate_size_factors. intros H.
  run_inv; subst; frame_close.
Qed.
#[local] Hint Resolve fit_size_factors_unchanged : frame_db.

Lemma _fit_MoM_dispersions_unchanged s s' :
  _fit_MoM_dispersions inference lib s = Ok s' -> unchanged s s'.
Proof. unfold _fit_MoM_dispersions. intros H. run_inv; subst; frame_close. Qed.
#[local] Hint Resolve _fit_MoM_dispersions_unchanged : frame_db.

Lemma fit_genewise_dispersions_unchanged vst s s' :
  fit_genewise_dispersions inference lib vst s = Ok s' -> unchanged s s'.
Proof. unfold fit_genewise_dispersions. intros H. run_inv; subst; frame_close. Qed.
#[local] Hint Resolve fit_genewise_dispersions_unchanged : frame_db.

Lemma _fit_mean_dispersion_trend_unchanged vst s s' :
  _fit_mean_dispersion_trend lib vst s = Ok s' -> unchanged s s'.
Proof. unfold _fit_mean_dispersion_trend. intros H. run_inv; subst; frame_close. Qed.
#[local] Hint Resolve _fit_mean_dispersion_trend_unchanged : frame_db.

Lemma _fit_parametric_dispersion_trend_unchanged fuel vst s s' :
  _fit_parametric_dispersion_trend inference lib fuel vst s = Some (Ok s') -> unchanged s s'.
Proof.
  unfold _fit_parametric_dispersion_trend. intros H. run_inv; subst; frame_close.
Qed.
#[local] Hint Resolve _fit_parametric_dispersion_trend_unchanged : frame_db.

Lemma fit_dispersion_trend_unchanged fuel s s' :
  fit_dispersion_trend inference lib fuel s = Some (Ok s') -> unchanged s s'.
Proof.
  unfold fit_dispersion_trend. intros H. run_inv.
  all: destruct (fit_type _) eqn:Hft; run_inv; subst; frame_close.
Qed.
#[local] Hint Resolve fit_dispersion_trend_unchanged : frame_db.

Lemma fit_dispersion_prior_unchanged fuel s s' :
  fit_dispersion_prior inference lib fuel s = Some (Ok s') -> unchanged s s'.
Proof. unfold fit_dispersion_prior. intros H. run_inv; subst; frame_close. Qed.
#[local] Hint Resolve fit_dispersion_prior_unchanged : frame_db.

Lemma fit_MAP_dispersions_unchanged fuel s s' :
  fit_MAP_dispersions inference lib fuel s = Some (Ok s') -> unchanged s s'.
Proof. unfold fit_MAP_dispersions. intros H. run_inv; subst; frame_close. Qed.
#[local] Hint Resolve fit_MAP_dispersions_unchanged : frame_db.

Lemma fit_LFC_frame fuel s s' :
  fit_LFC inference lib fuel s = Some (Ok s') -> frame s s'.
Proof. unfold fit_LFC. intros H. run_inv; subst; frame_close. Qed.
#[local] Hint Resolve fit_LFC_frame : frame_db.

End frame.

(** ** The class: what the methods may write *)

Section footprints.

Import Dds.
Context (inference : Inference) (lib : Lib).

(** The keys of each dictionary that a method may assign, and whether it may
    call the solver. *)
Record footprint : Type := {
  w_obsm : list string;
  w_layers : list string;
  w_varm : list string;
  w_uns : list string;
  w_attrs : list string;
  w_calls : bool
}.

Definition inb (k : string) (l : list string) : bool := existsb (String.eqb k) l.

Definition subfp (W W' : footprint) : bool :=
  forallb (fun k => inb k (w_obsm W')) (w_obsm W)
  && forallb (fun k => inb k (w_layers W')) (w_layers W)
  && forallb (fun k => inb k (w_varm W')) (w_varm W)
  && forallb (fun k => inb k (w_uns W')) (w_uns W)
  && forallb (fun k => inb k (w_attrs W')) (w_attrs W)
  && implb (w_calls W) (w_calls W').

(** [s'] differs from [s] at most on the footprint [W]. *)
Definition mods (W : footprint) (s s' : deconveil_fit) : Prop :=
  (forall k, inb k (w_obsm W) = false -> obsm s' !! k = obsm s !! k) /\
  (forall k, inb k (w_layers W) = false -> layers s' !! k = layers s !! k) /\
  (forall k, inb k (w_varm W) = false -> varm s' !! k = varm s !! k) /\
  (forall k, inb k (w_uns W) = false -> uns s' !! k = uns s !! k) /\
  (forall k, inb k (w_attrs W) = false -> attrs s' !! k = attrs s !! k) /\
  (w_calls W = false -> irls_calls s' = irls_calls s).

Lemma inb_true k l : inb k l = true <-> k ∈ l.
Proof.
  unfold inb. rewrite existsb_exists. split.
  - intros (x & Hx & ->%String.eqb_eq). by apply list_elem_of_In.
  - intros H. exists k. split; [by apply list_elem_of_In | apply String.eqb_refl].
Qed.

Lemma inb_false_ne k k' l : inb k l = false -> inb k' l = true -> k' <> k.
Proof. intros H1 H2 ->. congruence. Qed.

Lemma mods_refl W s : mods W s s.
Proof. by repeat split. Qed.

Lemma mods_trans W s1 s2 s3 : mods W s1 s2 -> mods W s2 s3 -> mods W s1 s3.
Proof.
  intros (A1 & A2 & A3 & A4 & A5 & A6) (B1 & B2 & B3 & B4 & B5 & B6).
  repeat split; intros.
  - by rewrite B1, A1.
  - by rewrite B2, A2.
  - by rewrite B3, A3.
  - by rewrite B4, A4.
  - by rewrite B5, A5.
  - by rewrite B6, A6.
Qed.

Lemma mods_mono W W' s s' : subfp W W' = true -> mods W s s' -> mods W' s s'.
Proof.
  unfold subfp. rewrite !andb_true_iff, !forallb_forall.
  intros (((((S1 & S2) & S3) & S4) & S5) & S6) (A1 & A2 & A3 & A4 & A5 & A6).
  assert (Hsub : forall l l' k, (forall x, In x l -> inb x l' = true) ->
                                inb k l' = false -> inb k l = false).
  { intros l l' k Hl Hk. destruct (inb k l) eqn:E; [|done].
    apply inb_true, list_elem_of_In, Hl in E. congruence. }
  repeat split; intros; eauto.
  apply A6. destruct (w_calls W); [|done]. simpl in S6. congruence.
Qed.

Lemma mods_set_obsm W k v s : inb k (w_obsm W) = true -> mods W s (set_obsm k v s).
Proof.
  intros Hk. repeat split; try done. intros k' Hk'. simpl.
  apply lookup_insert_ne. by eapply inb_false_ne.
Qed.
Lemma mods_set_layers W k v s : inb k (w_layers W) = true -> mods W s (set_layers k v s).
Proof.
  intros Hk. repeat split; try done. intros k' Hk'. simpl.
  apply lookup_insert_ne. by eapply inb_false_ne.
Qed.
Lemma mods_set_varm W k v s : inb k (w_varm W) = true -> mods W s (set_varm k v s).
Proof.
  intros Hk. repeat split; try done. intros k' Hk'. simpl.
  apply lookup_insert_ne. by eapply inb_false_ne.
Qed.
Lemma mods_set_uns W k v s : inb k (w_uns W) = true -> mods W s (set_uns k v s).
Proof.
  intros Hk. repeat split; try done. intros k' Hk'. simpl.
  apply lookup_insert_ne. by eapply inb_false_ne.
Qed.
Lemma mods_set_attr W k v s : inb k (w_attrs W) = true -> mods W s (set_attr k v s).
Proof.
  intros Hk. repeat split; try done. intros k' Hk'. simpl.
  apply lookup_insert_ne. by eapply inb_false_ne.
Qed.
Lemma mods_set_norm_fit W a b s : mods W s (set_norm_fit a b s).
Proof. by repeat split. Qed.
Lemma mods_set_fit_type W t s : mods W s (set_fit_type t s).
Proof. by repeat split. Qed.
Lemma mods_set_heap W h s : mods W s (set_heap h s).
Proof. by repeat split. Qed.
Lemma mods_set_data W k r s : mods W s (set_data k r s).
Proof. by repeat split. Qed.
Lemma mods_record_call W c s : w_calls W = true -> mods W s (record_call c s).
Proof. intros Hc. repeat split; try done. congruence. Qed.

Lemma mods_nd_arith W f r s r' s' : nd_arith f r s = Ok (r', s') -> mods W s s'.
Proof. unfold nd_arith, alloc. intros H. run_inv. subst. apply mods_set_heap. Qed.

Create HintDb mods_db.

(** Close a footprint goal: peel the setters, pass through the methods whose
    footprint is in [mods_db]. *)
Ltac mods_step :=
  first
    [ apply mods_set_obsm; reflexivity
    | apply mods_set_layers; reflexivity
    | apply mods_set_varm; reflexivity
    | apply mods_set_uns; reflexivity
    | apply mods_set_attr; reflexivity
    | apply mods_set_norm_fit
    | apply mods_set_fit_type
    | apply mods_set_heap
    | apply mods_set_data
    | apply mods_record_call; reflexivity
    | solve [eapply mods_nd_arith; eassumption]
    | solve [eapply mods_mono; [| eauto with mods_db]; reflexivity] ].

Ltac mods_close :=
  repeat first
    [ apply mods_refl
    | (eapply mods_trans; [| mods_step ]) ].

Definition W_size_factors : footprint :=
  {| w_obsm := ["size_factors"]; w_layers := ["normed_counts"]; w_varm := ["_normed_means"];
     w_uns := []; w_attrs := []; w_calls := false |}.

Lemma fit_size_factors_mods s s' :
  fit_size_factors lib s = Ok s' -> mods W_size_factors s s'.
Proof.
  unfold fit_size_factors, _fit_iterate_size_factors. intros H.
  run_inv; subst; mods_close.
Qed.
#[local] Hint Resolve fit_size_factors_mods : mods_db.

Definition W_MoM : footprint :=
  {| w_obsm := ["size_factors"]; w_layers := ["normed_counts"];
     w_varm := ["_normed_means"; "_MoM_dispersions"];
     w_uns := []; w_attrs := []; w_calls := false |}.

Lemma _fit_MoM_dispersions_mods s s' :
  _fit_MoM_dispersions inference lib s = Ok s' -> mods W_MoM s s'.
Proof. unfold _fit_MoM_dispersions. intros H. run_inv; subst; mods_close. Qed.
#[local] Hint Resolve _fit_MoM_dispersions_mods : mods_db.

Definition W_genewise : footprint :=
  {| w_obsm := ["size_factors"]; w_layers := ["normed_counts"; "_mu_hat"; "_vst_mu_hat"];
     w_varm := ["_normed_means"; "_MoM_dispersions"; "non_zero"; "genewise_dispersions";
                "_genewise_converged"];
     w_uns := []; w_attrs := ["non_zero_idx"; "non_zero_genes"]; w_calls := true |}.

Lemma fit_genewise_dispersions_mods vst s s' :
  fit_genewise_dispersions inference lib vst s = Ok s' -> mods W_genewise s s'.
Proof.
  unfold fit_genewise_dispersions. intros H. run_inv; subst; destruct vst; mods_close.
Qed.
#[local] Hint Resolve fit_genewise_dispersions_mods : mods_db.

Definition W_trend : footprint :=
  {| w_obsm := w_obsm W_genewise; w_layers := w_layers W_genewise;
     w_varm := "fitted_dispersions" :: w_varm W_genewise;
     w_uns := ["mean_disp"; "disp_function_type"; "trend_coeffs"; "vst_trend_coeffs"];
     w_attrs := w_attrs W_genewise; w_calls := true |}.

Lemma _fit_mean_dispersion_trend_mods vst s s' :
  _fit_mean_dispersion_trend lib vst s = Ok s' -> mods W_trend s s'.
Proof. unfold _fit_mean_dispersion_trend. intros H. run_inv; subst; mods_close. Qed.
#[local] Hint Resolve _fit_mean_dispersion_trend_mods : mods_db.

Lemma _fit_parametric_dispersion_trend_mods fuel vst s s' :
  _fit_parametric_dispersion_trend inference lib fuel vst s = Some (Ok s') ->
  mods W_trend s s'.
Proof.
  unfold _fit_parametric_dispersion_trend. intros H. run_inv; subst; mods_close.
Qed.
#[local] Hint Resolve _fit_parametric_dispersion_trend_mods : mods_db.

Lemma fit_dispersion_trend_mods fuel s s' :
  fit_dispersion_trend inference lib fuel s = Some (Ok s') -> mods W_trend s s'.
Proof.
  unfold fit_dispersion_trend. intros H. run_inv.
  all: destruct (fit_type _) eqn:Hft; run_inv; subst; mods_close.
Qed.
#[local] Hint Resolve fit_dispersion_trend_mods : mods_db.

Definition W_prior : footprint :=
  {| w_obsm := w_obsm W_trend; w_layers := w_layers W_trend; w_varm := w_varm W_trend;
     w_uns := "_squared_logres" :: "prior_disp_var" :: w_uns W_trend;
     w_attrs := w_attrs W_trend; w_calls := true |}.

Lemma fit_dispersion_prior_mods fuel s s' :
  fit_dispersion_prior inference lib fuel s = Some (Ok s') -> mods W_prior s s'.
Proof. unfold fit_dispersion_prior. intros H. run_inv; subst; mods_close. Qed.
#[local] Hint Resolve fit_dispersion_prior_mods : mods_db.

Definition W_MAP : footprint :=
  {| w_obsm := w_obsm W_prior; w_layers := w_layers W_prior;
     w_varm := "MAP_dispersions" :: "_MAP_converged" :: "dispersions" :: "_outlier_genes"
               :: w_varm W_prior;
     w_uns := w_uns W_prior; w_attrs := w_attrs W_prior; w_calls := true |}.

Lemma fit_MAP_dispersions_mods fuel s s' :
  fit_MAP_dispersions inference lib fuel s = Some (Ok s') -> mods W_MAP s s'.
Proof. unfold fit_MAP_dispersions. intros H. run_inv; subst; mods_close. Qed.
#[local] Hint Resolve fit_MAP_dispersions_mods : mods_db.

Definition W_LFC : footprint :=
  {| w_obsm := "_mu_LFC" :: "_hat_diagonals" :: w_obsm W_MAP; w_layers := w_layers W_MAP;
     w_varm := "LFC" :: "_LFC_converged" :: w_varm W_MAP;
     w_uns := w_uns W_MAP; w_attrs := w_attrs W_MAP; w_calls := true |}.

Lemma fit_LFC_mods fuel s s' :
  fit_LFC inference lib fuel s = Some (Ok s') -> mods W_LFC s s'.
Proof. unfold fit_LFC. intros H. run_inv; subst; mods_close. Qed.
#[local] Hint Resolve fit_LFC_mods : mods_db.

(** Readers see only the key they read. *)
Lemma get_ext (d d' : gmap string value) k : d' !! k = d !! k -> get d' k = get d k.
Proof. unfold get. by intros ->. Qed.
Lemma get_vec_ext (d d' : gmap string value) k : d' !! k = d !! k -> get_vec d' k = get_vec d k.
Proof. unfold get_vec, get. by intros ->. Qed.
Lemma get_mat_ext (d d' : gmap string value) k : d' !! k = d !! k -> get_mat d' k = get_mat d k.
Proof. unfold get_mat, get. by intros ->. Qed.
Lemma get_mask_ext (d d' : gmap string value) k :
  d' !! k = d !! k -> get_mask d' k = get_mask d k.
Proof. unfold get_mask, get. by intros ->. Qed.
Lemma get_num_ext (d d' : gmap string value) k : d' !! k = d !! k -> get_num d' k = get_num d k.
Proof. unfold get_num, get. by intros ->. Qed.
Lemma attr_idx_ext (d d' : gmap string value) k :
  d' !! k = d !! k -> attr_idx d' k = attr_idx d k.
Proof. unfold attr_idx, attr. by intros ->. Qed.
Lemma has_ext (d d' : gmap string value) k : d' !! k = d !! k -> has d' k = has d k.
Proof. unfold has. by intros ->. Qed.

Lemma get_vec_lookup (d : gmap string value) k v :
  get_vec d k = Ok v <-> d !! k = Some (VVec v).
Proof.
  unfold get_vec, get. destruct (d !! k) as [[]|]; simpl; split; intros H;
    try discriminate; congruence.
Qed.
Lemma get_mat_lookup (d : gmap string value) k v :
  get_mat d k = Ok v <-> d !! k = Some (VMat v).
Proof.
  unfold get_mat, get. destruct (d !! k) as [[]|]; simpl; split; intros H;
    try discriminate; congruence.
Qed.
Lemma get_mask_lookup (d : gmap string value) k v :
  get_mask d k = Ok v <-> d !! k = Some (VMask v).
Proof.
  unfold get_mask, get. destruct (d !! k) as [[]|]; simpl; split; intros H;
    try discriminate; congruence.
Qed.
Lemma get_num_lookup (d : gmap string value) k v :
  get_num d k = Ok v <-> d !! k = Some (VNum v).
Proof.
  unfold get_num, get. destruct (d !! k) as [[]|]; simpl; split; intros H;
    try discriminate; congruence.
Qed.
Lemma attr_idx_lookup (d : gmap string value) k v :
  attr_idx d k = Ok v <-> d !! k = Some (VIdx v).
Proof.
  unfold attr_idx, attr. destruct (d !! k) as [[]|]; simpl; split; intros H;
    try discriminate; congruence.
Qed.
Lemma has_lookup (d : gmap string value) k : has d k = true <-> is_Some (d !! k).
Proof. unfold has. apply bool_decide_eq_true. Qed.

Lemma get_insert_ne (d : gmap string value) k k' v : k <> k' -> get (<[k := v]> d) k' = get d k'.
Proof. intros Hk. unfold get. by rewrite lookup_insert_ne. Qed.
Lemma get_vec_insert_ne (d : gmap string value) k k' v :
  k <> k' -> get_vec (<[k := v]> d) k' = get_vec d k'.
Proof. intros Hk. unfold get_vec. by rewrite get_insert_ne. Qed.
Lemma get_mat_insert_ne (d : gmap string value) k k' v :
  k <> k' -> get_mat (<[k := v]> d) k' = get_mat d k'.
Proof. intros Hk. unfold get_mat. by rewrite get_insert_ne. Qed.
Lemma get_mask_insert_ne (d : gmap string value) k k' v :
  k <> k' -> get_mask (<[k := v]> d) k' = get_mask d k'.
Proof. intros Hk. unfold get_mask. by rewrite get_insert_ne. Qed.
Lemma get_num_insert_ne (d : gmap string value) k k' v :
  k <> k' -> get_num (<[k := v]> d) k' = get_num d k'.
Proof. intros Hk. unfold get_num. by rewrite get_insert_ne. Qed.
Lemma has_insert_ne (d : gmap string value) k k' v :
  k <> k' -> has (<[k := v]> d) k' = has d k'.
Proof. intros Hk. unfold has. by rewrite lookup_insert_ne. Qed.

Lemma get_vec_insert_eq (d : gmap string value) k v : get_vec (<[k := VVec v]> d) k = Ok v.
Proof. unfold get_vec, get. by rewrite lookup_insert_eq. Qed.
Lemma get_mat_insert_eq (d : gmap string value) k v : get_mat (<[k := VMat v]> d) k = Ok v.
Proof. unfold get_mat, get. by rewrite lookup_insert_eq. Qed.
Lemma get_mask_insert_eq (d : gmap string value) k v : get_mask (<[k := VMask v]> d) k = Ok v.
Proof. unfold get_mask, get. by rewrite lookup_insert_eq. Qed.
Lemma get_num_insert_eq (d : gmap string value) k v : get_num (<[k := VNum v]> d) k = Ok v.
Proof. unfold get_num, get. by rewrite lookup_insert_eq. Qed.
Lemma has_insert_eq (d : gmap string value) k v : has (<[k := v]> d) k = true.
Proof. unfold has. rewrite lookup_insert_eq. by apply bool_decide_eq_true. Qed.

End footprints.

(** Reads after writes, on the literal keys of the source. *)
Ltac read_norm :=
  repeat first
    [ rewrite get_vec_insert_eq in *
    | rewrite get_mat_insert_eq in *
    | rewrite get_mask_insert_eq in *
    | rewrite get_num_insert_eq in *
    | rewrite has_insert_eq in *
    | rewrite get_vec_insert_ne in * by done
    | rewrite get_mat_insert_ne in * by done
    | rewrite get_mask_insert_ne in * by done
    | rewrite get_num_insert_ne in * by done
    | rewrite get_insert_ne in * by done
    | rewrite has_insert_ne in * by done ].

(** ** The inputs of the solver calls and of the object *)

Section inputs.

Import Dds.
Context (inference : Inference) (lib : Lib).

Lemma deref_frame s s' r a : frame s s' -> deref (heap s) r = Ok a -> deref (heap s') r = Ok a.
Proof.
  intros (Hh & _ & _). unfold deref.
  destruct (heap s !! buffer r) as [x|] eqn:E; [|discriminate].
  intros [= <-]. by rewrite (prefix_lookup_Some _ _ _ _ E Hh).
Qed.

Lemma data_values_frame s s' k m :
  frame s s' -> data_values s k = Ok m -> data_values s' k = Ok m.
Proof.
  intros Hf H. unfold data_values, data_ref in *.
  rewrite (proj2 (proj2 Hf)). destruct (data s !! k) as [r|]; [|discriminate]. simpl in *.
  destruct (deref (heap s) r) as [a|] eqn:E; [|discriminate].
  by rewrite (deref_frame _ _ _ _ Hf E).
Qed.

Lemma deref_alloc h a : deref (alloc h a).1 (NdArray (alloc h a).2) = Ok a.
Proof.
  unfold deref, alloc. simpl. rewrite lookup_app_r by done.
  by rewrite Nat.sub_diag.
Qed.

(** An arithmetic expression reads its operand and yields a new array. *)
Lemma nd_arith_inv f r s r' s' :
  nd_arith f r s = Ok (r', s') ->
  exists a, deref (heap s) r = Ok a /\
            deref (heap s') r' = Ok (FloatArr (map (map f) (as_float a))) /\
            frame s s'.
Proof.
  intros H. pose proof (frame_nd_arith _ _ _ _ _ H) as Hf.
  unfold nd_arith in H. destruct (deref (heap s) r) as [a|] eqn:Ha; [|discriminate].
  simpl in H. injection H as <- <-. exists a. split; [done|]. split; [|done].
  apply deref_alloc.
Qed.

Lemma to_numpy_deref h r r' : to_numpy r = Ok r' -> deref h r' = deref h r.
Proof. destruct r; [|discriminate]. by intros [= <-]. Qed.

Lemma data_values_unchanged s s' k :
  unchanged s s' -> data_values s' k = data_values s k.
Proof. intros (Hh & _ & Hd). unfold data_values, data_ref. by rewrite Hh, Hd. Qed.

Lemma cnv_to_numpy_values s r x :
  cnv_to_numpy s = Ok r -> deref (heap s) r = Ok x ->
  data_values s "cnv" = Ok (as_float x).
Proof.
  unfold cnv_to_numpy, data_values. intros H Hx.
  destruct (data_ref s "cnv") as [r0|]; [|discriminate]. simpl in *.
  rewrite <- (to_numpy_deref _ _ _ H), Hx. done.
Qed.

Lemma rescaled_steps (m : matrix) :
  map (map (fun x => x + 0.1)) (map (map (fun x => x / 2)) m) = rescaled m.
Proof.
  unfold rescaled. rewrite map_map. apply map_ext. intros r. by rewrite map_map.
Qed.

(** C10. [fit_LFC] leaves the stored input matrices unchanged: after it
    returns, [self.data["cnv"]] and [self.data["counts"]] are the same frames
    with the same values as before the call; the arrays [cnv / 2] and
    [cnv + 0.1] are new ones. *)
Theorem fit_LFC_leaves_inputs fuel s s' :
  fit_LFC inference lib fuel s = Some (Ok s') ->
  forall k r a, k = "cnv" \/ k = "counts" ->
    data s !! k = Some r -> deref (heap s) r = Ok a ->
    data s' !! k = Some r /\ deref (heap s') r = Ok a.
Proof.
  intros H k r a _ Hk Ha.
  pose proof (fit_LFC_frame _ _ _ _ _ H) as Hf.
  split.
  - destruct Hf as (_ & _ & ->). exact Hk.
  - by eapply deref_frame.
Qed.

(** The last call of the solver made by [fit_LFC]. *)
Lemma fit_LFC_call fuel s s' :
  fit_LFC inference lib fuel s = Some (Ok s') ->
  exists c cnv idx cnv_nz,
    last (irls_calls s') = Some c /\
    data_values s "cnv" = Ok cnv /\
    attr_idx (attrs s') "non_zero_idx" = Ok idx /\
    Np.take_cols idx (rescaled cnv) = Ok cnv_nz /\
    call_cnv c = cnv_nz.
Proof.
  unfold fit_LFC. intros H. run_inv.
  all: repeat match goal with
         | H1 : nd_arith _ _ _ = Ok _ |- _ =>
             apply nd_arith_inv in H1 as (? & ? & ? & ?)
         end.
  all: subst.
  all: repeat match goal with
         | H1 : deref ?h ?r = Ok ?x, H2 : deref ?h ?r = Ok ?y |- _ =>
             rewrite H1 in H2; injection H2 as <-
         end.
  all: simpl in *; rewrite rescaled_steps in *.
  all: match goal with
         | H1 : cnv_to_numpy ?a = Ok ?r, H2 : deref (heap ?a) ?r = Ok ?x |- _ =>
             pose proof (cnv_to_numpy_values _ _ _ H1 H2) as Hcnv
         end.
  all: eexists _, _, _, _; rewrite last_snoc.
  all: split; [reflexivity|]; split; [|split; [eassumption|split; [eassumption|reflexivity]]].
  - exact Hcnv.
  - match goal with H1 : fit_MAP_dispersions _ _ _ _ = _ |- _ =>
      apply fit_MAP_dispersions_unchanged in H1 as Hu end.
    by rewrite <- (data_values_unchanged _ _ _ Hu).
Qed.



(** The call of the solver made by [fit_genewise_dispersions], if any: the
    method calls it only when the design has not as many distinct rows as it
    has columns, and then with the stored [cnv] as it is. *)
Lemma fit_genewise_dispersions_call vst t t' :
  fit_genewise_dispersions inference lib vst t = Ok t' ->
  exists design_matrix,
    get_mat (obsm t) "design_matrix" = Ok design_matrix /\
    if (value_counts lib design_matrix =? Np.ncols design_matrix)%nat
    then irls_calls t' = irls_calls t
    else exists c cnv idx cnv_nz,
        irls_calls t' = (irls_calls t ++ [c])%list /\
        data_values t "cnv" = Ok cnv /\
        attr_idx (attrs t') "non_zero_idx" = Ok idx /\
        Np.take_cols idx cnv = Ok cnv_nz /\
        call_cnv c = cnv_nz.
Proof.
  unfold fit_genewise_dispersions. intros H. run_inv.
  all: match goal with
       | H1 : _fit_MoM_dispersions _ _ ?s0 = Ok ?s1 |- _ =>
           pose proof (_fit_MoM_dispersions_mods _ _ _ _ H1) as (Mo & _ & _ & _ & Ma & Mc);
           pose proof (_fit_MoM_dispersions_unchanged _ _ _ _ H1) as Mu
       end.
  all: try match goal with
       | H1 : fit_size_factors _ ?s0 = Ok ?s1 |- _ =>
           pose proof (fit_size_factors_mods _ _ _ H1) as (So & _ & _ & _ & _ & Sc);
           pose proof (fit_size_factors_unchanged _ _ _ H1) as Su
       end.
  all: match goal with
       | H1 : get_mat (obsm _) "design_matrix" = Ok ?dm |- _ =>
           exists dm; split;
           [ rewrite <- H1; symmetry; etrans;
             [ apply get_mat_ext, Mo; reflexivity
             | simpl; first [ subst; reflexivity | apply get_mat_ext, So; reflexivity ] ]
           | ]
       end.
  all: match goal with H1 : (_ =? _)%nat = _ |- _ => rewrite H1 end.
  all: subst; simpl in *.
  all: try (first [ by apply Mc | by rewrite Mc, Sc ]).
  all: match goal with
       | H1 : cnv_to_numpy ?a = Ok ?r, H2 : deref (heap ?a) ?r = Ok ?x |- _ =>
           pose proof (cnv_to_numpy_values _ _ _ H1 H2) as Hcnv
       end.
  all: eexists _, _, _, _.
  all: split; [rewrite Mc by done; simpl; rewrite ?Sc by done; reflexivity|].
  all: split; [ rewrite <- Hcnv; symmetry; etrans;
                [ by apply data_values_unchanged
                | first [ reflexivity | by apply data_values_unchanged ] ] |].
  all: split; [| split; [eassumption | reflexivity]].
  all: unfold attr_idx, attr; rewrite Ma by done; simpl.
  all: by rewrite lookup_insert_ne, lookup_insert_eq.
Qed.

(** C1, as amended. The CNV offset handed to the solver is the rescaled
    matrix [cnv / 2 + 0.1], at the columns of the non-zero genes, when
    [fit_LFC] fits the log-fold changes. When [fit_genewise_dispersions] fits
    the initial mean, it calls the solver only if the design has not as many
    distinct rows as columns, and the offset is then the stored [cnv] itself
    at the columns of the non-zero genes: it is not fixed at one. *)
Theorem cnv_offset_of_solver_calls fuel vst s s' t t' :
  fit_LFC inference lib fuel s = Some (Ok s') ->
  fit_genewise_dispersions inference lib vst t = Ok t' ->
  (exists c cnv idx cnv_nz,
      last (irls_calls s') = Some c /\
      data_values s "cnv" = Ok cnv /\
      attr_idx (attrs s') "non_zero_idx" = Ok idx /\
      Np.take_cols idx (rescaled cnv) = Ok cnv_nz /\
      call_cnv c = cnv_nz) /\
  (exists design_matrix,
      get_mat (obsm t) "design_matrix" = Ok design_matrix /\
      if (value_counts lib design_matrix =? Np.ncols design_matrix)%nat
      then irls_calls t' = irls_calls t
      else exists c cnv idx cnv_nz,
          irls_calls t' = (irls_calls t ++ [c])%list /\
          data_values t "cnv" = Ok cnv /\
          attr_idx (attrs t') "non_zero_idx" = Ok idx /\
          Np.take_cols idx cnv = Ok cnv_nz /\
          call_cnv c = cnv_nz).
Proof.
  intros HL HG. split.
  - by eapply fit_LFC_call.
  - by eapply fit_genewise_dispersions_call.
Qed.

End inputs.

(** ** The constructor *)

Section constructor.

Import Dds.
Context (lib : Lib).

(** The dimension test of [__init__] fires when both dimensions differ. *)
Lemma init_rejects_when_both_differ h counts cnv c ci v md df cf rl ft mm md0 mx rc mr bt q :
  deref h counts = Ok c -> astype_int counts c = Ok ci ->
  deref (alloc h (IntArr ci)).1 cnv = Ok v ->
  (Np.shape ci).1 <> (nd_shape v).1 -> (Np.shape ci).2 <> (nd_shape v).2 ->
  __init__ lib h counts cnv md df cf rl ft mm md0 mx rc mr bt q
  = Raise (ValueError "Matrices must have the same dimensions for element-wise operations.").
Proof.
  intros Hc Hci Hv H1 H2. unfold __init__. rewrite Hc. simpl. rewrite Hci. simpl.
  unfold alloc in *. simpl in *. rewrite Hv. simpl.
  apply Nat.eqb_neq in H1, H2. by rewrite H1, H2.
Qed.

(** It does not fire when the two matrices have the same number of rows,
    whatever their numbers of columns: the constructor goes on to validate
    the counts and to build the design. *)
Lemma init_passes_on_equal_rows h counts cnv c ci v md df cf rl ft mm md0 mx rc mr bt q :
  deref h counts = Ok c -> astype_int counts c = Ok ci ->
  deref (alloc h (IntArr ci)).1 cnv = Ok v ->
  (Np.shape ci).1 = (nd_shape v).1 ->
  __init__ lib h counts cnv md df cf rl ft mm md0 mx rc mr bt q
  = (_ ← test_valid_counts lib c;
     design_matrix ← build_design_matrix lib md df cf rl;
     match counts with
     | NdArray _ => Raise (AttributeError "columns")
     | DataFrame _ =>
         Ok {| heap := (h ++ [IntArr ci])%list;
               cfg := {| metadata := md; design_factors := df; continuous_factors := cf;
                         ref_level := rl; min_mu := mm; min_disp := md0;
                         max_disp := Np.maximum mx (Np.of_nat (Np.shape ci).1);
                         n_obs := (Np.shape ci).1; n_vars := (Np.shape ci).2;
                         refit_cooks := rc; min_replicates := mr; beta_tol := bt;
                         quiet := q |};
               fit_type := ft;
               data := <["cnv" := cnv]> (<["counts" := DataFrame (length h)]> ∅);
               obsm := <["design_matrix" := VMat design_matrix]> ∅;
               layers := ∅; varm := ∅; uns := ∅; attrs := ∅;
               logmeans := None; filtered_genes := None; irls_calls := [] |}
     end).
Proof.
  intros Hc Hci Hv H1. unfold __init__. rewrite Hc. simpl. rewrite Hci. simpl.
  unfold alloc in *. simpl in *. rewrite Hv. simpl.
  apply Nat.eqb_eq in H1. rewrite H1. simpl.
  destruct (test_valid_counts lib c); [|done]. simpl.
  destruct (build_design_matrix lib md df cf rl); [|done]. simpl.
  by destruct counts.
Qed.

End constructor.

(** C2, against the code. A count matrix of two samples and two genes with a
    CNV matrix of two samples and three genes: the dimensions differ, and the
    constructor returns an object. The test joins its two comparisons with
    [and], so that it only fires when the numbers of samples and the numbers
    of genes both differ, while its message asks for the same dimensions. *)
Theorem init_accepts_unequal_gene_dimension :
  let h := [Dds.IntArr [[10; 20]; [30; 40]]%Z; Dds.FloatArr [[2; 2; 2]; [2; 4; 2]]] in
  (Dds.nd_shape <$> h !! 0%nat) = Some (2%nat, 2%nat) /\
  (Dds.nd_shape <$> h !! 1%nat) = Some (2%nat, 3%nat) /\
  is_ok (Dds.__init__ Ref.lib h (Dds.DataFrame 0%nat) (Dds.DataFrame 1%nat)
           [("condition", ["A"; "B"])] ["condition"] None None Dds.Parametric
           0.5 1e-8 10 true 7 1e-8 false) = true.
Proof. repeat split. Qed.

(** ** The MAP dispersions *)

Section map_dispersions.

Import Dds.
Context (inference : Inference) (lib : Lib).


Lemma deconveil_fit_eq (s t : deconveil_fit) :
  heap s = heap t -> cfg s = cfg t -> fit_type s = fit_type t -> data s = data t ->
  obsm s = obsm t -> layers s = layers t -> varm s = varm t -> uns s = uns t ->
  attrs s = attrs t -> logmeans s = logmeans t -> filtered_genes s = filtered_genes t ->
  irls_calls s = irls_calls t -> s = t.
Proof. destruct s, t. simpl. intros. by subst. Qed.

Lemma result_bind_Ok {X Y} (x : X) (k : X -> result Y) : Ok x ≫= k = k x.
Proof. reflexivity. Qed.

(** C9. A second call of [fit_MAP_dispersions] right after a first one
    succeeds and leaves the object as the first call left it, the MAP
    dispersions in particular: what the method reads (counts, design matrix,
    [_mu_hat], fitted dispersions, prior variance) it does not write. *)
Theorem fit_MAP_dispersions_twice fuel s s1 :
  fit_MAP_dispersions inference lib fuel s = Some (Ok s1) ->
  fit_MAP_dispersions inference lib fuel s1 = Some (Ok s1) /\
  (exists map_disp, get_vec (varm s1) "MAP_dispersions" = Ok map_disp).
Proof.
  unfold fit_MAP_dispersions at 1. intros H.
  apply run_bind_ok in H as (s0 & _ & H). run_inv.
  all: subst; simpl in *; read_norm.
  all: split; [|eexists; reflexivity].
  all: unfold fit_MAP_dispersions; simpl.
  all: match goal with
       | Hp : get_num (uns ?a) "prior_disp_var" = Ok _ |- _ =>
           assert (has (uns a) "prior_disp_var" = true) as ->
             by (apply has_lookup; apply get_num_lookup in Hp; by rewrite Hp)
       end.
  all: simpl; unfold lift; do 2 f_equal.
  all: unfold counts_to_numpy, data_ref in *; simpl in *; read_norm.
  all: repeat match goal with
         | Hx : ?e = Ok ?x, Hy : ?e = Ok ?y |- _ => rewrite Hx in Hy; injection Hy as <-
         end.
  all: repeat match goal with
         | Hx : ?e = Ok _ |- context [?e ≫= _] => rewrite Hx, result_bind_Ok
         | Hx : ?e = (_, _) |- context [?e] => rewrite Hx
         | |- _ => progress read_norm
         end.
  all: f_equal; apply deconveil_fit_eq; simpl; try reflexivity.
  all: apply map_eq; intros k; rewrite !lookup_insert.
  all: repeat (case_decide; simplify_eq; try done).
Qed.

End map_dispersions.

(** ** The class: NaN placeholders and clipped dispersions

    One invariant carries both properties through the pipeline. It is stated
    for a count matrix [c], the bounds [lo] and [hi] of the object, and a
    property [Pd] of dispersion values that holds of NaN and of everything
    [np.clip(., lo, hi)] returns. *)

Section np_more.

Context {A : Type}.

Lemma Forall_put (P : A -> Prop) (a : list A) : forall mask v,
  Forall P a -> Forall P v -> Forall P (Np.put a mask v).
Proof.
  induction a as [|x a IH]; intros [|b mask] v Ha Hv; simpl; try done.
  apply Forall_cons in Ha as [Hx Ha].
  destruct b.
  - destruct v as [|y v].
    + apply Forall_cons. split; [done|]. by apply IH.
    + apply Forall_cons in Hv as [Hy Hv]. apply Forall_cons. split; [done|]. by apply IH.
  - apply Forall_cons. split; [done|]. by apply IH.
Qed.

Lemma Forall_put_mask (P : A -> Prop) (a : list A) mask v r :
  Np.put_mask a mask v = Ok r -> Forall P a -> Forall P v -> Forall P r.
Proof.
  unfold Np.put_mask. destruct (negb _); [discriminate|].
  destruct (length v =? Np.count_true mask)%nat.
  - intros [= <-] Ha Hv. by apply Forall_put.
  - destruct v as [|y [|]]; try discriminate. intros [= <-] Ha Hv.
    apply Forall_put; [done|]. apply Forall_replicate. by apply Forall_cons in Hv as [? _].
Qed.

Lemma Forall_select (P : A -> Prop) (mask : list bool) : forall a : list A,
  Forall P a -> Forall P (Np.select mask a).
Proof.
  induction mask as [|b mask IH]; intros [|x a] Ha; simpl; try done.
  apply Forall_cons in Ha as [Hx Ha].
  destruct b; [apply Forall_cons; split; [done|]|]; by apply IH.
Qed.

Lemma put_mask_full_off (x : A) n mask v r g :
  Np.put_mask (Np.full n x) mask v = Ok r -> mask !! g = Some false -> r !! g = Some x.
Proof.
  intros H Hg. rewrite (put_mask_lookup_off _ _ _ _ _ H Hg).
  destruct (put_mask_length _ _ _ _ H) as [Hl _].
  unfold Np.full in *. rewrite length_replicate in Hl.
  apply lookup_replicate_2. rewrite <- Hl. by eapply lookup_lt_Some.
Qed.

Lemma mapR_Forall2 {B} (f : A -> result B) (P : A -> B -> Prop) : forall l r,
  mapR f l = Ok r -> (forall x y, x ∈ l -> f x = Ok y -> P x y) -> Forall2 P l r.
Proof.
  induction l as [|x l IH]; intros r H HP; simpl in H.
  - injection H as <-. constructor.
  - destruct (f x) as [y|] eqn:Hy; [|discriminate]. simpl in H.
    destruct (mapR f l) as [ys|] eqn:Hys; [|discriminate]. simpl in H.
    injection H as <-. constructor.
    + apply HP; [by left | done].
    + apply IH; [done|]. intros x' y' Hx'. apply HP. by right.
Qed.

Lemma mapR_length {B} (f : A -> result B) : forall l r,
  mapR f l = Ok r -> length r = length l.
Proof.
  induction l as [|x l IH]; intros r H; simpl in H.
  - by injection H as <-.
  - destruct (f x) as [y|]; [|discriminate]. simpl in H.
    destruct (mapR f l) as [ys|]; [|discriminate]. simpl in H.
    injection H as <-. simpl. f_equal. by apply IH.
Qed.

Lemma mapR_Forall {B} (f : A -> result B) (Q : B -> Prop) : forall l r,
  mapR f l = Ok r -> (forall x y, x ∈ l -> f x = Ok y -> Q y) -> Forall Q r.
Proof.
  induction l as [|x l IH]; intros r H HQ; simpl in H.
  - injection H as <-. constructor.
  - destruct (f x) as [y|] eqn:Hy; [|discriminate]. simpl in H.
    destruct (mapR f l) as [ys|] eqn:Hys; [|discriminate]. simpl in H.
    injection H as <-. constructor.
    + eapply HQ; [by left | done].
    + apply IH; [done|]. intros x' y' Hx'. apply HQ. by right.
Qed.

Lemma select_elem (mask : list bool) : forall (a : list A) x,
  x ∈ Np.select mask a -> x ∈ a.
Proof.
  induction mask as [|b mask IH]; intros [|y a] x Hx; simpl in Hx; try by inversion Hx.
  destruct b.
  - apply elem_of_cons in Hx as [->|Hx]; [by left|]. right. by apply IH.
  - right. by apply IH.
Qed.

Lemma put_lookup_not_on (a : list A) : forall mask v g,
  mask !! g <> Some true -> Np.put a mask v !! g = a !! g.
Proof.
  induction a as [|x a IH]; intros [|b mask] v g Hg; simpl; try done.
  destruct g as [|g]; simpl in *.
  - destruct b; [done|done].
  - destruct b; [destruct v|]; simpl; by apply IH.
Qed.

Lemma put_mask_lookup_not_on (a : list A) mask v r g :
  Np.put_mask a mask v = Ok r -> mask !! g <> Some true -> r !! g = a !! g.
Proof.
  unfold Np.put_mask. destruct (negb _); [discriminate|].
  destruct (length v =? Np.count_true mask)%nat.
  - intros [= <-]. apply put_lookup_not_on.
  - destruct v as [|y [|]]; try discriminate. intros [= <-]. apply put_lookup_not_on.
Qed.

Lemma put_at_lookup_notin (idx : list nat) : forall (a v : list A) g,
  g ∉ idx -> Np.put_at a idx v !! g = a !! g.
Proof.
  unfold Np.put_at.
  induction idx as [|i idx IH]; intros a [|y v] g Hg; simpl; try done.
  apply not_elem_of_cons in Hg as [Hi Hg].
  rewrite IH by done. apply list_lookup_insert_ne. done.
Qed.

End np_more.

Lemma select_seq_elem (mask : list bool) : forall k n x,
  x ∈ Np.select mask (seq k n) -> exists i, x = (k + i)%nat /\ mask !! i = Some true.
Proof.
  induction mask as [|b mask IH]; intros k [|n] x Hx; simpl in Hx; try by inversion Hx.
  destruct b.
  - apply elem_of_cons in Hx as [->|Hx].
    + exists 0%nat. split; [lia | done].
    + apply IH in Hx as (i & -> & Hi). exists (S i). split; [lia | done].
  - apply IH in Hx as (i & -> & Hi). exists (S i). split; [lia | done].
Qed.

Lemma transpose_lookup {A} n (m : list (list A)) g :
  (g < n)%nat -> Np.transpose n m !! g = Some (omap (fun r => r !! g) m).
Proof.
  intros Hg. unfold Np.transpose. rewrite list_lookup_fmap, lookup_seq_lt by done. done.
Qed.

Lemma transpose_length {A} n (m : list (list A)) : length (Np.transpose n m) = n.
Proof. unfold Np.transpose. by rewrite length_fmap, length_seq. Qed.

Lemma any_axis0_true n (m : list (list bool)) g :
  Np.any_axis0 n m !! g = Some true -> exists row, row ∈ m /\ row !! g = Some true.
Proof.
  unfold Np.any_axis0. rewrite list_lookup_fmap. intros H.
  destruct (Np.transpose n m !! g) as [col|] eqn:Hcol; [|done].
  assert (g < n)%nat as Hg.
  { apply lookup_lt_Some in Hcol. by rewrite transpose_length in Hcol. }
  rewrite transpose_lookup in Hcol by done. injection Hcol as <-.
  simpl in H. injection H as H. unfold Np.any in H.
  apply existsb_exists in H as (b & Hb & Hid). unfold id in Hid. subst b.
  apply list_elem_of_In, list_elem_of_omap in Hb as (row & Hrow & Hg'). eauto.
Qed.

Lemma any_axis0_intro n (m : list (list bool)) g row :
  (g < n)%nat -> row ∈ m -> row !! g = Some true -> Np.any_axis0 n m !! g = Some true.
Proof.
  intros Hg Hrow Ht. unfold Np.any_axis0.
  rewrite list_lookup_fmap, transpose_lookup by done. simpl. f_equal.
  unfold Np.any. apply existsb_exists. exists true. split; [|done].
  apply list_elem_of_In, list_elem_of_omap. eauto.
Qed.

Lemma all_intro (l : list bool) :
  (forall g, (g < length l)%nat -> l !! g = Some true) -> Np.all l = true.
Proof.
  intros H. unfold Np.all. apply forallb_forall. intros b Hb.
  apply list_elem_of_In, list_elem_of_lookup in Hb as [g Hg].
  rewrite H in Hg; [by injection Hg as <- | by eapply lookup_lt_Some].
Qed.

Lemma all_axis0_all n (m : list (list bool)) g :
  (g < n)%nat -> (forall row, row ∈ m -> row !! g = Some true) ->
  Np.all_axis0 n m !! g = Some true.
Proof.
  intros Hg Hall. unfold Np.all_axis0.
  rewrite list_lookup_fmap, transpose_lookup by done. simpl. f_equal.
  unfold Np.all. apply forallb_forall. intros b Hb.
  apply list_elem_of_In, list_elem_of_omap in Hb as (row & Hrow & Hg').
  rewrite (Hall _ Hrow) in Hg'. by injection Hg' as <-.
Qed.

Section mask_facts.

Import Dds.

Lemma non_zero_mask_length c : length (non_zero_mask c) = Np.ncols c.
Proof.
  unfold non_zero_mask, Np.all_axis0. by rewrite !length_fmap, transpose_length.
Qed.

(** A gene without counts is left out by the mask. *)
Lemma all_zero_gene_masked c g : all_zero_gene c g -> non_zero_mask c !! g = Some false.
Proof.
  intros [Hg Hall]. unfold non_zero_mask. rewrite list_lookup_fmap.
  rewrite (all_axis0_all _ _ _ Hg); [done|].
  intros row Hrow. apply list_elem_of_fmap in Hrow as (r & -> & Hr).
  rewrite list_lookup_fmap, (Hall _ Hr). done.
Qed.

End mask_facts.

Section invariant.

Import Dds.
Context (inference : Inference) (lib : Lib).

Variables (Pd : float -> Prop) (lo hi : float).
Hypothesis Pd_nan : Pd nan.
Hypothesis Pd_clip : forall x, Pd (Np.clip x lo hi).

(** An array with NaN at the genes that the mask leaves out, a mask that is
    off there, a list of genes without them. *)
Definition masked (nz : list bool) (x : vec) : Prop :=
  forall g, nz !! g = Some false -> x !! g = Some nan.

Definition off_mask (nz : list bool) (m : list bool) : Prop :=
  forall g, nz !! g = Some false -> m !! g <> Some true.

Definition avoids (nz : list bool) (idx : list nat) : Prop :=
  forall g, nz !! g = Some false -> g ∉ idx.

Definition varm_ok (c : list (list Z)) (k : string) (v : value) : Prop :=
  let nz := non_zero_mask c in
  if inb k ["genewise_dispersions"; "MAP_dispersions"; "dispersions"; "_MoM_dispersions"]
  then exists x, v = VVec x /\ masked nz x /\ Forall Pd x
  else if String.eqb k "non_zero" then v = VMask nz
  else if String.eqb k "LFC"
  then exists m, v = VMat m /\
         forall g, nz !! g = Some false ->
                   exists row, m !! g = Some row /\ Forall (fun x => x = nan) row
  else if inb k ["replaced"; "refitted"] then exists m, v = VMask m /\ off_mask nz m
  else True.

Definition layers_ok (c : list (list Z)) (k : string) (v : value) : Prop :=
  if inb k ["_mu_hat"; "cooks"]
  then exists m, v = VMat m /\ Forall (masked (non_zero_mask c)) m
  else True.

Definition attrs_ok (c : list (list Z)) (k : string) (v : value) : Prop :=
  if inb k ["non_zero_idx"; "non_zero_genes"]
  then exists idx, v = VIdx idx /\ avoids (non_zero_mask c) idx
  else if String.eqb k "counts_to_refit"
  then exists cols m, v = VFrame cols m /\ avoids (non_zero_mask c) cols /\
                      length m = length c
  else True.

Definition Inv (c : list (list Z)) (s : deconveil_fit) : Prop :=
  (exists r, data s !! "counts" = Some r /\ heap s !! buffer r = Some (IntArr c)) /\
  min_disp (cfg s) = lo /\ max_disp (cfg s) = hi /\
  hi = Np.maximum hi (Np.of_nat (length c)) /\
  n_obs (cfg s) = length c /\ n_vars (cfg s) = Np.ncols c /\
  map_Forall (varm_ok c) (varm s) /\
  map_Forall (layers_ok c) (layers s) /\
  map_Forall (attrs_ok c) (attrs s).

Lemma Inv_set_varm c k v s : Inv c s -> varm_ok c k v -> Inv c (set_varm k v s).
Proof.
  intros (H1 & H2 & H3 & H4 & H5 & H5' & H6 & H7 & H8) Hv. repeat split; try done.
  simpl. by apply map_Forall_insert_2.
Qed.
Lemma Inv_set_layers c k v s : Inv c s -> layers_ok c k v -> Inv c (set_layers k v s).
Proof.
  intros (H1 & H2 & H3 & H4 & H5 & H5' & H6 & H7 & H8) Hv. repeat split; try done.
  simpl. by apply map_Forall_insert_2.
Qed.
Lemma Inv_set_attr c k v s : Inv c s -> attrs_ok c k v -> Inv c (set_attr k v s).
Proof.
  intros (H1 & H2 & H3 & H4 & H5 & H5' & H6 & H7 & H8) Hv. repeat split; try done.
  simpl. by apply map_Forall_insert_2.
Qed.
Lemma Inv_set_obsm c k v s : Inv c s -> Inv c (set_obsm k v s).
Proof. intros (H1 & H2 & H3 & H4 & H5 & H5' & H6 & H7 & H8). by repeat split. Qed.
Lemma Inv_set_uns c k v s : Inv c s -> Inv c (set_uns k v s).
Proof. intros (H1 & H2 & H3 & H4 & H5 & H5' & H6 & H7 & H8). by repeat split. Qed.
Lemma Inv_set_norm_fit c a b s : Inv c s -> Inv c (set_norm_fit a b s).
Proof. intros (H1 & H2 & H3 & H4 & H5 & H5' & H6 & H7 & H8). by repeat split. Qed.
Lemma Inv_set_fit_type c t s : Inv c s -> Inv c (set_fit_type t s).
Proof. intros (H1 & H2 & H3 & H4 & H5 & H5' & H6 & H7 & H8). by repeat split. Qed.
Lemma Inv_record_call c x s : Inv c s -> Inv c (record_call x s).
Proof. intros (H1 & H2 & H3 & H4 & H5 & H5' & H6 & H7 & H8). by repeat split. Qed.
Lemma Inv_record_calls_of c x s : Inv c s -> Inv c (record_calls_of x s).
Proof. intros (H1 & H2 & H3 & H4 & H5 & H5' & H6 & H7 & H8). by repeat split. Qed.

Lemma Inv_set_heap c h s : heap s `prefix_of` h -> Inv c s -> Inv c (set_heap h s).
Proof.
  intros Hp ((r & Hr & Hc) & H2 & H3 & H4 & H5 & H5' & H6 & H7 & H8). repeat split; try done.
  exists r. split; [done|]. simpl. by eapply prefix_lookup_Some.
Qed.

Lemma Inv_nd_arith c f r s r' s' : nd_arith f r s = Ok (r', s') -> Inv c s -> Inv c s'.
Proof.
  unfold nd_arith, alloc. intros H Hi. run_inv. subst.
  apply Inv_set_heap; [by apply prefix_app_r | done].
Qed.

(** Reading through the invariant. *)
Lemma Inv_counts c s r a x :
  Inv c s -> data_ref s "counts" = Ok r -> deref (heap s) r = Ok a -> as_counts a = Ok x ->
  x = c.
Proof.
  intros ((r0 & Hr & Hc) & _) H1 H2 H3. unfold data_ref in H1. rewrite Hr in H1.
  injection H1 as <-. unfold deref in H2. rewrite Hc in H2. injection H2 as <-.
  by injection H3 as <-.
Qed.

Lemma Inv_non_zero c s nz :
  Inv c s -> get_mask (varm s) "non_zero" = Ok nz -> nz = non_zero_mask c.
Proof.
  intros (_ & _ & _ & _ & _ & _ & Hv & _) H. apply get_mask_lookup in H.
  apply (map_Forall_lookup_1 _ _ _ _ Hv) in H. by injection H as ->.
Qed.

Lemma Inv_dispersions c s k x :
  Inv c s ->
  inb k ["genewise_dispersions"; "MAP_dispersions"; "dispersions"; "_MoM_dispersions"] = true ->
  get_vec (varm s) k = Ok x -> masked (non_zero_mask c) x /\ Forall Pd x.
Proof.
  intros (_ & _ & _ & _ & _ & _ & Hv & _) Hk H. apply get_vec_lookup in H.
  apply (map_Forall_lookup_1 _ _ _ _ Hv) in H. unfold varm_ok in H. rewrite Hk in H.
  destruct H as (y & [= <-] & Hm & Hp). done.
Qed.


Lemma Inv_attr_idx c s k idx :
  Inv c s -> inb k ["non_zero_idx"; "non_zero_genes"] = true ->
  attr_idx (attrs s) k = Ok idx -> avoids (non_zero_mask c) idx.
Proof.
  intros (_ & _ & _ & _ & _ & _ & _ & _ & Ha) Hk H. apply attr_idx_lookup in H.
  apply (map_Forall_lookup_1 _ _ _ _ Ha) in H. unfold attrs_ok in H. rewrite Hk in H.
  destruct H as (y & [= <-] & Hm). done.
Qed.

Lemma Inv_layer c s k m :
  Inv c s -> inb k ["_mu_hat"; "cooks"] = true ->
  get_mat (layers s) k = Ok m -> Forall (masked (non_zero_mask c)) m.
Proof.
  intros (_ & _ & _ & _ & _ & _ & _ & Hl & _) Hk H. apply get_mat_lookup in H.
  apply (map_Forall_lookup_1 _ _ _ _ Hl) in H. unfold layers_ok in H. rewrite Hk in H.
  destruct H as (y & [= <-] & Hm). done.
Qed.

Lemma Inv_LFC c s m :
  Inv c s -> get_mat (varm s) "LFC" = Ok m ->
  forall g, non_zero_mask c !! g = Some false ->
            exists row, m !! g = Some row /\ Forall (fun x => x = nan) row.
Proof.
  intros (_ & _ & _ & _ & _ & _ & Hv & _) H. apply get_mat_lookup in H.
  apply (map_Forall_lookup_1 _ _ _ _ Hv) in H. hnf in H.
  destruct H as (y & [= <-] & Hm). done.
Qed.

Lemma Inv_off_mask c s k m :
  Inv c s -> inb k ["replaced"; "refitted"] = true ->
  get_mask (varm s) k = Ok m -> off_mask (non_zero_mask c) m.
Proof.
  intros (_ & _ & _ & _ & _ & _ & Hv & _) Hk H. apply get_mask_lookup in H.
  apply (map_Forall_lookup_1 _ _ _ _ Hv) in H.
  apply inb_true in Hk.
  apply elem_of_cons in Hk as [->|Hk];
    [|apply elem_of_cons in Hk as [->|Hk]; [|by apply elem_of_nil in Hk]].
  all: hnf in H; destruct H as (y & [= <-] & Hm); done.
Qed.

Lemma Inv_counts_to_refit c s cols m :
  Inv c s -> attr_frame (attrs s) "counts_to_refit" = Ok (cols, m) ->
  avoids (non_zero_mask c) cols /\ length m = length c.
Proof.
  intros (_ & _ & _ & _ & _ & _ & _ & _ & Ha) H.
  unfold attr_frame, attr in H.
  destruct (attrs s !! "counts_to_refit") as [v|] eqn:Hv; [|discriminate].
  apply (map_Forall_lookup_1 _ _ _ _ Ha) in Hv. hnf in Hv.
  destruct Hv as (cols' & m' & -> & Hav & Hl). simpl in H. by injection H as <- <-.
Qed.

Ltac inv_close :=
  repeat first
    [ assumption
    | apply Inv_set_varm | apply Inv_set_layers | apply Inv_set_attr
    | apply Inv_set_obsm | apply Inv_set_uns | apply Inv_set_norm_fit
    | apply Inv_set_fit_type | apply Inv_record_call | apply Inv_record_calls_of
    | exact I ].

(** An array filled through the mask with clipped values. *)
Lemma clipped_mask_ok c s n l r :
  Inv c s ->
  Np.put_mask (Np.full n nan) (non_zero_mask c)
    (map (fun d => Np.clip d (min_disp (cfg s)) (max_disp (cfg s))) l) = Ok r ->
  exists x, VVec r = VVec x /\ masked (non_zero_mask c) x /\ Forall Pd x.
Proof.
  intros Hi H. destruct Hi as (_ & Hlo & Hhi & _). rewrite Hlo, Hhi in H.
  exists r. split; [done|]. split.
  - intros g Hg. by eapply put_mask_full_off.
  - eapply Forall_put_mask; [done | by apply Forall_replicate |].
    apply Forall_map, Forall_forall. intros d _. apply Pd_clip.
Qed.

Lemma clipped_ok c s n nz l r :
  Inv c s -> get_mask (varm s) "non_zero" = Ok nz ->
  Np.put_mask (Np.full n nan) nz
    (map (fun d => Np.clip d (min_disp (cfg s)) (max_disp (cfg s))) l) = Ok r ->
  exists x, VVec r = VVec x /\ masked (non_zero_mask c) x /\ Forall Pd x.
Proof.
  intros Hi Hnz H. pose proof (Inv_non_zero _ _ _ Hi Hnz) as ->.
  by eapply clipped_mask_ok.
Qed.

Lemma compress_seq_avoids nz n idx :
  Np.compress nz (seq 0 n) = Ok idx -> avoids nz idx.
Proof.
  intros H g Hg Hin. apply compress_select in H. subst idx.
  apply select_seq_elem in Hin as (i & -> & Hi). simpl in *. congruence.
Qed.

Lemma put_cols_full_masked n m nz v r :
  Np.put_cols (Np.full2 n m nan) nz v = Ok r -> Forall (masked nz) r.
Proof.
  unfold Np.put_cols. destruct (_ =? _)%nat; [|discriminate]. intros H.
  eapply mapR_Forall; [exact H|]. intros [a b] y Hin Hy. simpl in Hy.
  apply elem_of_zip_l in Hin. simpl in Hin. unfold Np.full2 in Hin.
  apply elem_of_replicate in Hin as [-> _].
  intros g Hg. by eapply put_mask_full_off.
Qed.

Ltac use_clipped := eapply clipped_ok; [ | | eassumption]; [assumption | eassumption].

Lemma fit_size_factors_Inv c s s' :
  fit_size_factors lib s = Ok s' -> Inv c s -> Inv c s'.
Proof.
  unfold fit_size_factors, _fit_iterate_size_factors. intros H Hi.
  run_inv; subst; inv_close.
Qed.

Lemma _fit_MoM_dispersions_Inv c s s' :
  _fit_MoM_dispersions inference lib s = Ok s' -> Inv c s -> Inv c s'.
Proof.
  unfold _fit_MoM_dispersions. intros H Hi. run_inv; subst.
  all: match goal with
       | H : fit_size_factors _ _ = Ok _ |- _ => apply (fit_size_factors_Inv c) in H; [|done]
       | _ => idtac
       end.
  all: inv_close.
  all: hnf; use_clipped.
Qed.

Ltac data_norm :=
  repeat match goal with
  | H : context [data_ref (set_varm ?k0 ?v ?s) ?k] |- _ =>
      change (data_ref (set_varm k0 v s) k) with (data_ref s k) in H
  | H : context [data_ref (set_obsm ?k0 ?v ?s) ?k] |- _ =>
      change (data_ref (set_obsm k0 v s) k) with (data_ref s k) in H
  | H : context [data_ref (set_attr ?k0 ?v ?s) ?k] |- _ =>
      change (data_ref (set_attr k0 v s) k) with (data_ref s k) in H
  | H : context [data_ref (set_layers ?k0 ?v ?s) ?k] |- _ =>
      change (data_ref (set_layers k0 v s) k) with (data_ref s k) in H
  | H : context [data_ref (set_uns ?k0 ?v ?s) ?k] |- _ =>
      change (data_ref (set_uns k0 v s) k) with (data_ref s k) in H
  end.

Ltac use_counts c :=
  match goal with
  | Hi : Inv _ ?a, Hd : data_ref ?a "counts" = Ok ?r, Hr : deref (heap ?a) ?r = Ok ?x,
    Hc : as_counts ?x = Ok ?y |- _ =>
      pose proof (Inv_counts c a r x y Hi Hd Hr Hc); subst y
  end.

Lemma fit_genewise_dispersions_Inv c vst s s' :
  fit_genewise_dispersions inference lib vst s = Ok s' -> Inv c s -> Inv c s'.
Proof.
  unfold fit_genewise_dispersions. intros H Hi. run_inv; subst.
  all: repeat match goal with
       | H : fit_size_factors _ _ = Ok _ |- _ => apply (fit_size_factors_Inv c) in H; [|done]
       end.
  all: use_counts c.
  all: match goal with
       | H : _fit_MoM_dispersions _ _ _ = Ok ?a |- _ =>
           assert (Inv c a)
             by (apply (_fit_MoM_dispersions_Inv c _ _ H); inv_close; hnf;
                 [done | eexists; split; [done|]; by eapply compress_seq_avoids ..])
       end.
  all: simpl in *.
  all: destruct vst; inv_close; hnf.
  all: try (eexists; split; [done|]; eapply put_cols_full_masked; eassumption).
  all: eapply clipped_mask_ok; [|eassumption]; assumption.
Qed.

Create HintDb inv discriminated.
#[local] Hint Resolve fit_size_factors_Inv _fit_MoM_dispersions_Inv
  fit_genewise_dispersions_Inv : inv.

(** The invariant of the states that the calls among the hypotheses return. *)
Ltac inv_pre c :=
  repeat match goal with
  | H : _ = Ok ?a |- _ =>
      is_var a;
      lazymatch type of a with deconveil_fit => idtac end;
      lazymatch goal with _ : Inv c a |- _ => fail | _ => idtac end;
      assert (Inv c a) by eauto with inv
  | H : nd_arith _ _ _ = Ok (_, ?a) |- _ =>
      is_var a;
      lazymatch goal with _ : Inv c a |- _ => fail | _ => idtac end;
      assert (Inv c a) by eauto using Inv_nd_arith
  | H : _ = Some (Ok ?a) |- _ =>
      is_var a;
      lazymatch type of a with deconveil_fit => idtac end;
      lazymatch goal with _ : Inv c a |- _ => fail | _ => idtac end;
      assert (Inv c a) by eauto with inv
  end.

Lemma _fit_mean_dispersion_trend_Inv c vst s s' :
  _fit_mean_dispersion_trend lib vst s = Ok s' -> Inv c s -> Inv c s'.
Proof.
  unfold _fit_mean_dispersion_trend. intros H Hi. run_inv; subst. inv_close.
Qed.
#[local] Hint Resolve _fit_mean_dispersion_trend_Inv : inv.

Lemma _fit_parametric_dispersion_trend_Inv c fuel vst s s' :
  _fit_parametric_dispersion_trend inference lib fuel vst s = Some (Ok s') ->
  Inv c s -> Inv c s'.
Proof.
  unfold _fit_parametric_dispersion_trend. intros H Hi. run_inv; subst.
  all: inv_pre c; inv_close.
Qed.
#[local] Hint Resolve _fit_parametric_dispersion_trend_Inv : inv.

Lemma fit_dispersion_trend_Inv c fuel s s' :
  fit_dispersion_trend inference lib fuel s = Some (Ok s') -> Inv c s -> Inv c s'.
Proof.
  unfold fit_dispersion_trend. intros H Hi. run_inv; subst.
  all: match goal with
       | H : match fit_type ?a with _ => _ end = _ |- _ => destruct (fit_type a) eqn:?
       end; run_inv.
  all: inv_pre c; inv_close.
Qed.
#[local] Hint Resolve fit_dispersion_trend_Inv : inv.

Lemma fit_dispersion_prior_Inv c fuel s s' :
  fit_dispersion_prior inference lib fuel s = Some (Ok s') -> Inv c s -> Inv c s'.
Proof.
  unfold fit_dispersion_prior. intros H Hi. run_inv; subst.
  all: inv_pre c; inv_close.
Qed.
#[local] Hint Resolve fit_dispersion_prior_Inv : inv.

(** The final dispersions: the MAP estimates, with the genewise ones at the
    outlier genes. *)
Lemma outliers_ok nz (map_disp genewise : vec) outl unshrunk r :
  masked nz map_disp -> Forall Pd map_disp -> masked nz genewise -> Forall Pd genewise ->
  Np.compress outl genewise = Ok unshrunk -> Np.put_mask map_disp outl unshrunk = Ok r ->
  exists x, VVec r = VVec x /\ masked nz x /\ Forall Pd x.
Proof.
  intros Hm Pm Hg Pg Hc Hp. exists r. split; [done|].
  pose proof (compress_length _ _ _ Hc) as Hl. apply compress_select in Hc. subst unshrunk.
  split.
  - intros g Hnz. rewrite (put_mask_select _ _ _ _ g Hl Hp).
    destruct (outl !! g) as [[|]|]; auto.
  - eapply Forall_put_mask; [done | done | by apply Forall_select].
Qed.

Lemma fit_MAP_dispersions_Inv c fuel s s' :
  fit_MAP_dispersions inference lib fuel s = Some (Ok s') -> Inv c s -> Inv c s'.
Proof.
  unfold fit_MAP_dispersions. intros H Hi. run_inv; subst.
  all: inv_pre c; simpl in *; read_norm.
  all: match goal with
       | Hi : Inv _ ?a, Hm : get_mask (varm ?a) "non_zero" = Ok ?nz,
         Hp : Np.put_mask (Np.full _ nan) ?nz (map (fun d => Np.clip d _ _) _) = Ok ?r |- _ =>
           destruct (clipped_ok c a _ nz _ r Hi Hm Hp) as (? & [= <-] & ? & ?)
       end.
  all: match goal with
       | Hi : Inv _ ?a, Hg : get_vec (varm ?a) "genewise_dispersions" = Ok ?gw |- _ =>
           destruct (Inv_dispersions c a "genewise_dispersions" gw Hi eq_refl Hg)
       end.
  all: inv_close; hnf; eauto using outliers_ok.
Qed.
#[local] Hint Resolve fit_MAP_dispersions_Inv : inv.

(** The coefficient table, made of NaN rows and then filled at the genes
    that have counts. *)
Lemma LFC_ok c s p idx (v : matrix) :
  Inv c s -> avoids (non_zero_mask c) idx ->
  exists m, VMat (Np.put_at (Np.full2 (n_vars (cfg s)) p nan) idx v) = VMat m /\
    forall g, non_zero_mask c !! g = Some false ->
              exists row, m !! g = Some row /\ Forall (fun x => x = nan) row.
Proof.
  intros Hi Hav. eexists. split; [done|]. intros g Hg.
  exists (replicate p nan). split; [|by apply Forall_replicate].
  rewrite put_at_lookup_notin by auto.
  apply lookup_replicate_2. destruct Hi as (_ & _ & _ & _ & _ & -> & _).
  rewrite <- non_zero_mask_length. by eapply lookup_lt_Some.
Qed.

Lemma fit_LFC_Inv c fuel s s' :
  fit_LFC inference lib fuel s = Some (Ok s') -> Inv c s -> Inv c s'.
Proof.
  unfold fit_LFC. intros H Hi. run_inv; subst.
  all: inv_pre c; simpl in *; read_norm.
  all: match goal with
       | Hi : Inv _ ?a, Hg : attr_idx (attrs ?a) "non_zero_genes" = Ok ?idx |- _ =>
           pose proof (Inv_attr_idx c a "non_zero_genes" idx Hi eq_refl Hg)
       end.
  all: inv_close; hnf.
  all: first [ by eapply LFC_ok
             | eapply (LFC_ok c _ _ [] []); [eassumption | by intros g _ ?%elem_of_nil] ].
Qed.
#[local] Hint Resolve fit_LFC_Inv : inv.

Lemma Inv_set_data_counts c r r' s :
  Inv c s -> data_ref s "counts" = Ok r -> to_numpy r = Ok r' ->
  Inv c (set_data "counts" r' s).
Proof.
  intros ((r0 & Hr & Hc) & H2 & H3 & H4 & H5 & H5' & H6 & H7 & H8) Hd Hn.
  repeat split; try done.
  unfold data_ref in Hd. rewrite Hr in Hd. injection Hd as <-.
  exists r'. split; [by apply lookup_insert_eq|].
  simpl. destruct r0; [|discriminate]. injection Hn as <-. done.
Qed.

Ltac use_non_zero c :=
  repeat match goal with
  | Hi : Inv c ?a, Hm : get_mask (varm ?a) "non_zero" = Ok ?nz |- _ =>
      is_var nz; pose proof (Inv_non_zero c a nz Hi Hm); subst nz
  end.

Lemma calculate_cooks_Inv c fuel s s' :
  calculate_cooks inference lib fuel s = Some (Ok s') -> Inv c s -> Inv c s'.
Proof.
  unfold calculate_cooks. intros H Hi. run_inv; subst.
  all: inv_pre c; simpl in *; read_norm.
  all: use_non_zero c.
  all: inv_close; [eapply Inv_set_data_counts; eassumption|].
  all: hnf; eexists; split; [done|]; eapply put_cols_full_masked; eassumption.
Qed.
#[local] Hint Resolve calculate_cooks_Inv : inv.

(** No entry of a NaN column is above the cutoff, so that a gene without
    counts is never among the replaced ones. *)
Lemma replaced_off nz (cooks : matrix) cutoff n :
  Forall (masked nz) cooks ->
  off_mask nz (Np.any_axis0 n (map (map (fun c => Np.gt c cutoff)) cooks)).
Proof.
  intros Hc g Hg Ht. apply any_axis0_true in Ht as (row & Hrow & Ht).
  apply list_elem_of_fmap in Hrow as (crow & -> & Hcrow).
  rewrite Forall_forall in Hc. specialize (Hc _ Hcrow g Hg).
  rewrite list_lookup_fmap, Hc in Ht. simpl in Ht. injection Ht as Ht.
  unfold Np.gt in Ht. by rewrite ltb_nan_r in Ht.
Qed.

Lemma where_true_avoids nz m : off_mask nz m -> avoids nz (Np.where_true m).
Proof.
  intros Hm g Hg Hin. unfold Np.where_true in Hin.
  apply select_seq_elem in Hin as (i & -> & Hi). simpl in *. by apply (Hm i).
Qed.

Lemma full_false_off nz n : off_mask nz (Np.full n false).
Proof.
  intros g _ Hg. unfold Np.full in Hg. by apply lookup_replicate in Hg as [? _].
Qed.

Lemma compress_cols_length {A} mask (m r : list (list A)) :
  Np.compress_cols mask m = Ok r -> length r = length m.
Proof. apply mapR_length. Qed.

Lemma _replace_outliers_Inv c fuel s s' :
  _replace_outliers inference lib fuel s = Some (Ok s') -> Inv c s -> Inv c s'.
Proof.
  unfold _replace_outliers. intros H Hi. run_inv; subst.
  all: inv_pre c; simpl in *; read_norm.
  all: data_norm; try use_counts c.
  all: try match goal with
       | Hi : Inv _ ?a, Hg : get_mat (layers ?a) "cooks" = Ok ?m |- _ =>
           pose proof (Inv_layer c a "cooks" m Hi eq_refl Hg)
       end.
  all: inv_close; hnf.
  all: try first
         [ eexists; split; [done|]; first [apply full_false_off | by apply replaced_off]
         | eexists _, _; split; [done|]; split;
           [ by apply where_true_avoids, replaced_off
           | rewrite ?put_length; by eapply compress_cols_length ] ].
Qed.
#[local] Hint Resolve _replace_outliers_Inv : inv.

Lemma maximum_idem m n : Np.maximum (Np.maximum m n) n = Np.maximum m n.
Proof.
  unfold Np.maximum. destruct ((n <=? m) || PrimFloat.is_nan m) eqn:E.
  - by rewrite E.
  - by destruct ((n <=? n) || PrimFloat.is_nan n).
Qed.

(** The object that [__init__] returns. *)
Lemma init_Inv h counts cnv md df cf rl ft mm mx rc mr bt q s a c :
  __init__ lib h counts cnv md df cf rl ft mm lo mx rc mr bt q = Ok s ->
  deref h counts = Ok a -> astype_int counts a = Ok c ->
  hi = Np.maximum mx (Np.of_nat (length c)) -> Inv c s.
Proof.
  unfold __init__. intros H Hd Ha Hhi. rewrite Hd in H. simpl in H.
  rewrite Ha in H. simpl in H. unfold alloc in H. run_inv; subst.
  destruct counts; simplify_eq.
  repeat split; simpl; try done.
  - eexists. split.
    + rewrite lookup_insert_ne by done. apply lookup_insert_eq.
    + simpl. by rewrite lookup_app_r, Nat.sub_diag.
  - rewrite Hhi. by rewrite maximum_idem.
Qed.

Lemma init_heap h counts cnv md df cf rl ft mm mn mx rc mr bt q s :
  __init__ lib h counts cnv md df cf rl ft mm mn mx rc mr bt q = Ok s ->
  h `prefix_of` heap s.
Proof.
  unfold __init__, alloc. intros H. run_inv; subst. simpl. by apply prefix_app_r.
Qed.

Lemma Inv_ext c s t :
  heap t = heap s -> cfg t = cfg s -> data t = data s -> varm t = varm s ->
  layers t = layers s -> attrs t = attrs s -> Inv c s -> Inv c t.
Proof. unfold Inv. by intros -> -> -> -> -> ->. Qed.

Lemma foldl_alter_notin {A} (f : A -> A) (idx : list nat) : forall (a : list A) g,
  g ∉ idx -> foldl (fun a i => alter f i a) a idx !! g = a !! g.
Proof.
  induction idx as [|i idx IH]; intros a g Hg; simpl; [done|].
  apply not_elem_of_cons in Hg as [Hi Hg].
  rewrite IH by done. apply list_lookup_alter_ne. done.
Qed.

(** The arrays of the refitted object written back at the refitted genes. *)
Lemma merged_ok nz (a : vec) refitted v r :
  masked nz a -> Forall Pd a -> Forall Pd v -> off_mask nz refitted ->
  Np.put_mask a refitted v = Ok r ->
  exists x, VVec r = VVec x /\ masked nz x /\ Forall Pd x.
Proof.
  intros Ha Pa Pv Hoff Hp. exists r. split; [done|]. split.
  - intros g Hg. rewrite (put_mask_lookup_not_on _ _ _ _ g Hp) by auto. auto.
  - by eapply Forall_put_mask.
Qed.

Lemma merged_rows_ok nz (a : matrix) refitted v r :
  (forall g, nz !! g = Some false ->
             exists row, a !! g = Some row /\ Forall (fun x => x = nan) row) ->
  off_mask nz refitted -> Np.put_mask a refitted v = Ok r ->
  exists m, VMat r = VMat m /\
    forall g, nz !! g = Some false ->
              exists row, m !! g = Some row /\ Forall (fun x => x = nan) row.
Proof.
  intros Ha Hoff Hp. exists r. split; [done|].
  intros g Hg. rewrite (put_mask_lookup_not_on _ _ _ _ g Hp) by auto. auto.
Qed.

Ltac bind_step H x Hx :=
  first [ apply run_bind_ok in H as (x & Hx & H)
        | apply result_bind_ok in H as (x & Hx & H) ].

Lemma _refit_without_outliers_Inv c fuel s s' :
  _refit_without_outliers inference lib fuel s = Some (Ok s') -> Inv c s -> Inv c s'.
Proof.
  unfold _refit_without_outliers. intros H Hi.
  destruct (negb (refit_cooks (cfg s))); [discriminate|].
  bind_step H s1 Hs1.
  assert (Inv c s1) as Hi1 by (clear H; run_inv; subst; eauto with inv). clear Hs1 Hi.
  bind_step H fr Hfr. destruct fr as [columns counts_to_refit]. apply lift_ok in Hfr.
  destruct (Inv_counts_to_refit _ _ _ _ Hi1 Hfr) as [Hav Hlen].
  bind_step H naz Hnaz. apply lift_ok in Hnaz.
  bind_step H replaced Hrep. apply lift_ok in Hrep. simpl in Hrep.
  bind_step H refitted Href. apply lift_ok in Href.
  pose proof (Inv_off_mask _ _ "replaced" _ Hi1 eq_refl Hrep) as Hoff.
  assert (off_mask (non_zero_mask c) refitted) as Hoff'.
  { intros g Hg. rewrite (put_mask_lookup_not_on _ _ _ _ g Href); auto. }
  assert (avoids (non_zero_mask c) naz) as Hav'.
  { intros g Hg Hin. apply compress_select in Hnaz. subst naz.
    apply select_elem in Hin. by apply (Hav g). }
  bind_step H s2 Hs2. apply lift_ok in Hs2.
  assert (Inv c s2) as Hi2.
  { clear H. run_inv; subst; simpl in *; read_norm; inv_close; hnf; eauto.
    pose proof (Inv_LFC _ _ _ Hi1 ltac:(eassumption)) as HL.
    eexists. split; [done|]. intros g Hg. rewrite foldl_alter_notin by auto. auto. }
  assert (heap s2 = heap s1 /\ cfg s2 = cfg s1) as [Hh2 Hc2].
  { clear H. run_inv; subst; done. }
  clear Hs2.
  destruct (Np.count_true refitted =? 0)%nat; [by injection H as <-|].
  bind_step H ctr Hctr. apply lift_ok in Hctr.
  bind_step H cols Hcols. apply lift_ok in Hcols.
  bind_step H cnv Hcnv. apply lift_ok in Hcnv.
  match type of H with context [set_attr ?k ?v s2] => set (s3 := set_attr k v s2) in * end.
  assert (Inv c s3) as Hi3.
  { subst s3. inv_close. hnf. eexists _, _. split; [done|]. split.
    - intros g Hg Hin. apply compress_select in Hcols. subst cols.
      apply select_elem in Hin. by apply (Hav g).
    - rewrite (compress_cols_length _ _ _ Hctr). done. }
  assert (length ctr = length c) as Hlen'.
  { rewrite (compress_cols_length _ _ _ Hctr). done. }
  unfold alloc in H.
  bind_step H sub0 Hsub0. apply lift_ok in Hsub0.
  assert (Inv ctr sub0) as Hj0.
  { destruct Hi3 as (_ & Hlo & Hhi & Hidem & _). rewrite Hlo, Hhi in Hsub0.
    eapply init_Inv with (a := IntArr ctr); [exact Hsub0 | | reflexivity |].
    - unfold deref. simpl. by rewrite lookup_app_r, Nat.sub_diag.
    - by rewrite Hlen'. }
  assert (heap s3 `prefix_of` heap sub0) as Hp0.
  { etrans; [|eapply init_heap; exact Hsub0]. by apply prefix_app_r. }
  clear Hsub0.
  bind_step H size_factors Hsf. apply lift_ok in Hsf.
  match type of H with
  | context [set_obsm "size_factors" ?v ?r] => set (sub1 := set_obsm "size_factors" v r) in *
  end.
  assert (Inv ctr sub1) as Hj1.
  { subst sub1. apply Inv_set_obsm. by eapply Inv_ext; [..|exact Hj0]. }
  assert (heap sub1 = heap sub0) as Hh1 by done.
  clearbody sub1.
  bind_step H sub2 Hsub2. apply lift_ok in Hsub2.
  assert (Inv ctr sub2 /\ heap sub2 = heap sub1) as [Hj2 Hh2'].
  { clear H. run_inv; subst. split; [inv_close | done]. }
  clear Hsub2.
  bind_step H sub3 Hsub3. apply lift_ok in Hsub3.
  pose proof (fit_genewise_dispersions_Inv _ _ _ _ Hsub3 Hj2) as Hj3.
  destruct (fit_genewise_dispersions_unchanged _ _ _ _ _ Hsub3) as (Hh3 & _).
  clear Hsub3.
  bind_step H sub4 Hsub4. apply lift_ok in Hsub4.
  assert (Inv ctr sub4 /\ heap sub4 = heap sub3) as [Hj4 Hh4].
  { clear H. run_inv; subst. all: split; [inv_close | done]. }
  clear Hsub4.
  bind_step H sub5 Hsub5.
  pose proof (fit_MAP_dispersions_Inv _ _ _ _ Hsub5 Hj4) as Hj5.
  destruct (fit_MAP_dispersions_unchanged _ _ _ _ _ Hsub5) as (Hh5 & _).
  clear Hsub5.
  bind_step H sub6 Hsub6.
  pose proof (fit_LFC_Inv _ _ _ _ Hsub6 Hj5) as Hj6.
  destruct (fit_LFC_frame _ _ _ _ _ Hsub6) as (Hh6 & _).
  clear Hsub6.
  match type of H with
  | context [record_calls_of sub6 ?r] => set (s4 := record_calls_of sub6 r) in *
  end.
  assert (Inv c s4) as Hi4.
  { subst s4. apply Inv_record_calls_of, Inv_set_heap; [|done].
    etrans; [exact Hp0|]. by rewrite <- Hh1, <- Hh2', <- Hh3, <- Hh4, <- Hh5. }
  clearbody s4. clear Hi1 Hi2 Hi3.
  apply lift_ok in H. run_inv; subst; simpl in *; read_norm.
  match goal with
  | Hg : get_mat (varm s4) "LFC" = Ok _ |- _ => pose proof (Inv_LFC _ _ _ Hi4 Hg)
  end.
  repeat match goal with
  | Hg : get_vec (varm s4) ?k = Ok ?x |- _ =>
      lazymatch goal with _ : masked _ x |- _ => fail | _ => idtac end;
      destruct (Inv_dispersions c s4 k x Hi4 eq_refl Hg)
  | Hg : get_vec (varm sub6) ?k = Ok ?x |- _ =>
      lazymatch goal with _ : Forall Pd x |- _ => fail | _ => idtac end;
      destruct (Inv_dispersions ctr sub6 k x Hj6 eq_refl Hg)
  end.
  inv_close; hnf; eauto using merged_ok, merged_rows_ok.
Qed.
#[local] Hint Resolve _refit_without_outliers_Inv : inv.

Lemma refit_Inv c fuel s s' :
  refit inference lib fuel s = Some (Ok s') -> Inv c s -> Inv c s'.
Proof.
  unfold refit. intros H Hi. run_inv; subst.
  all: inv_pre c; inv_close.
  hnf. eexists. split; [done|]. apply full_false_off.
Qed.
#[local] Hint Resolve refit_Inv : inv.

Lemma deseq2_Inv c fuel ft s s' :
  deseq2 inference lib fuel ft s = Some (Ok s') -> Inv c s -> Inv c s'.
Proof.
  unfold deseq2. intros H Hi.
  assert (Inv c match ft with Some t => set_fit_type t s | None => s end) as Hi'
    by (destruct ft; inv_close).
  run_inv; subst.
  all: inv_pre c; inv_close.
Qed.

End invariant.

(** ** The class: entries are never removed

    The methods only add entries to [self.varm] and [self.layers], or
    overwrite them. *)

Section keys.

Import Dds.
Context (inference : Inference) (lib : Lib).

Definition keeps (s s' : deconveil_fit) : Prop :=
  (forall k, is_Some (varm s !! k) -> is_Some (varm s' !! k)) /\
  (forall k, is_Some (layers s !! k) -> is_Some (layers s' !! k)).

#[local] Instance keeps_refl : Reflexive keeps.
Proof. intros s. by split. Qed.

#[local] Instance keeps_trans : Transitive keeps.
Proof. intros s1 s2 s3 [H1 H2] [H3 H4]. split; auto. Qed.

Lemma keeps_set_varm k v s : keeps s (set_varm k v s).
Proof.
  split; [|done]. intros k' Hk. simpl. rewrite lookup_insert. by case_decide.
Qed.
Lemma keeps_set_layers k v s : keeps s (set_layers k v s).
Proof.
  split; [done|]. intros k' Hk. simpl. rewrite lookup_insert. by case_decide.
Qed.
Lemma keeps_set_obsm k v s : keeps s (set_obsm k v s).
Proof. by split. Qed.
Lemma keeps_set_uns k v s : keeps s (set_uns k v s).
Proof. by split. Qed.
Lemma keeps_set_attr k v s : keeps s (set_attr k v s).
Proof. by split. Qed.
Lemma keeps_set_norm_fit a b s : keeps s (set_norm_fit a b s).
Proof. by split. Qed.
Lemma keeps_set_fit_type t s : keeps s (set_fit_type t s).
Proof. by split. Qed.
Lemma keeps_set_heap h s : keeps s (set_heap h s).
Proof. by split. Qed.
Lemma keeps_set_data k r s : keeps s (set_data k r s).
Proof. by split. Qed.
Lemma keeps_record_call c s : keeps s (record_call c s).
Proof. by split. Qed.
Lemma keeps_record_calls_of t s : keeps s (record_calls_of t s).
Proof. by split. Qed.
Lemma keeps_nd_arith f r s r' s' : nd_arith f r s = Ok (r', s') -> keeps s s'.
Proof. unfold nd_arith, alloc. intros H. run_inv. subst. by split. Qed.

Create HintDb keys_db.
#[local] Hint Resolve keeps_nd_arith : keys_db.

Ltac keeps_step :=
  first
    [ apply keeps_set_varm | apply keeps_set_layers | apply keeps_set_obsm
    | apply keeps_set_uns | apply keeps_set_attr | apply keeps_set_norm_fit
    | apply keeps_set_fit_type | apply keeps_set_heap | apply keeps_set_data
    | apply keeps_record_call | apply keeps_record_calls_of
    | solve [eauto with keys_db] ].

Ltac keeps_close := repeat first [ reflexivity | (etrans; [| keeps_step ]) ].

Lemma fit_size_factors_keeps s s' : fit_size_factors lib s = Ok s' -> keeps s s'.
Proof.
  unfold fit_size_factors, _fit_iterate_size_factors. intros H.
  run_inv; subst; keeps_close.
Qed.
#[local] Hint Resolve fit_size_factors_keeps : keys_db.

Lemma _fit_MoM_dispersions_keeps s s' :
  _fit_MoM_dispersions inference lib s = Ok s' -> keeps s s'.
Proof. unfold _fit_MoM_dispersions. intros H. run_inv; subst; keeps_close. Qed.
#[local] Hint Resolve _fit_MoM_dispersions_keeps : keys_db.

Lemma fit_genewise_dispersions_keeps vst s s' :
  fit_genewise_dispersions inference lib vst s = Ok s' -> keeps s s'.
Proof. unfold fit_genewise_dispersions. intros H. run_inv; subst; keeps_close. Qed.
#[local] Hint Resolve fit_genewise_dispersions_keeps : keys_db.

Lemma _fit_mean_dispersion_trend_keeps vst s s' :
  _fit_mean_dispersion_trend lib vst s = Ok s' -> keeps s s'.
Proof. unfold _fit_mean_dispersion_trend. intros H. run_inv; subst; keeps_close. Qed.
#[local] Hint Resolve _fit_mean_dispersion_trend_keeps : keys_db.

Lemma _fit_parametric_dispersion_trend_keeps fuel vst s s' :
  _fit_parametric_dispersion_trend inference lib fuel vst s = Some (Ok s') -> keeps s s'.
Proof.
  unfold _fit_parametric_dispersion_trend. intros H. run_inv; subst; keeps_close.
Qed.
#[local] Hint Resolve _fit_parametric_dispersion_trend_keeps : keys_db.

Lemma fit_dispersion_trend_keeps fuel s s' :
  fit_dispersion_trend inference lib fuel s = Some (Ok s') -> keeps s s'.
Proof.
  unfold fit_dispersion_trend. intros H. run_inv; subst.
  all: match goal with
       | H : match fit_type ?a with _ => _ end = _ |- _ => destruct (fit_type a) eqn:?
       end; run_inv.
  all: keeps_close.
Qed.
#[local] Hint Resolve fit_dispersion_trend_keeps : keys_db.

Lemma fit_dispersion_prior_keeps fuel s s' :
  fit_dispersion_prior inference lib fuel s = Some (Ok s') -> keeps s s'.
Proof. unfold fit_dispersion_prior. intros H. run_inv; subst; keeps_close. Qed.
#[local] Hint Resolve fit_dispersion_prior_keeps : keys_db.

Lemma fit_MAP_dispersions_keeps fuel s s' :
  fit_MAP_dispersions inference lib fuel s = Some (Ok s') -> keeps s s'.
Proof. unfold fit_MAP_dispersions. intros H. run_inv; subst; keeps_close. Qed.
#[local] Hint Resolve fit_MAP_dispersions_keeps : keys_db.

Lemma fit_LFC_keeps fuel s s' :
  fit_LFC inference lib fuel s = Some (Ok s') -> keeps s s'.
Proof. unfold fit_LFC. intros H. run_inv; subst; keeps_close. Qed.
#[local] Hint Resolve fit_LFC_keeps : keys_db.

Lemma calculate_cooks_keeps fuel s s' :
  calculate_cooks inference lib fuel s = Some (Ok s') -> keeps s s'.
Proof. unfold calculate_cooks. intros H. run_inv; subst; keeps_close. Qed.
#[local] Hint Resolve calculate_cooks_keeps : keys_db.

Lemma _replace_outliers_keeps fuel s s' :
  _replace_outliers inference lib fuel s = Some (Ok s') -> keeps s s'.
Proof. unfold _replace_outliers. intros H. run_inv; subst; keeps_close. Qed.
#[local] Hint Resolve _replace_outliers_keeps : keys_db.

Lemma _refit_without_outliers_keeps fuel s s' :
  _refit_without_outliers inference lib fuel s = Some (Ok s') -> keeps s s'.
Proof.
  unfold _refit_without_outliers. intros H.
  destruct (negb (refit_cooks (cfg s))); [discriminate|].
  run_inv; subst. all: keeps_close.
Qed.
#[local] Hint Resolve _refit_without_outliers_keeps : keys_db.

Lemma refit_keeps fuel s s' : refit inference lib fuel s = Some (Ok s') -> keeps s s'.
Proof. unfold refit. intros H. run_inv; subst; keeps_close. Qed.
#[local] Hint Resolve refit_keeps : keys_db.

End keys.

(** ** The class: a full run of the pipeline *)

Section pipeline.

Import Dds.
Context (inference : Inference) (lib : Lib).

Ltac step H x Hx :=
  first [apply run_bind_ok in H as (x & Hx & H) | apply result_bind_ok in H as (x & Hx & H)].

Lemma init_counts h counts cnv md df cf rl ft mm mn mx rc mr bt q s :
  __init__ lib h counts cnv md df cf rl ft mm mn mx rc mr bt q = Ok s ->
  exists a c, deref h counts = Ok a /\ astype_int counts a = Ok c /\ counts_values s = Ok c /\
              n_obs (cfg s) = length c.
Proof.
  unfold __init__, alloc. intros H. run_inv; subst.
  destruct counts; simplify_eq.
  eexists _, _. split; [done|]. split; [done|]. split; [|done].
  unfold counts_values, data_ref. simpl.
  rewrite lookup_insert_ne by done. rewrite lookup_insert_eq. simpl.
  unfold deref. simpl. by rewrite lookup_app_r, Nat.sub_diag.
Qed.

(** The invariant holds after [__init__] and a run of [deseq2], for the
    counts that the object holds and the upper bound that [__init__] has
    set. *)
Lemma pipeline_Inv (Pd : float -> Prop) h counts cnv md df cf rl ft mm mn mx rc mr bt q
    fuel ft' s0 s c :
  let hi := Np.maximum mx (Np.of_nat (n_obs (cfg s0))) in
  Pd nan -> (forall x, Pd (Np.clip x mn hi)) ->
  __init__ lib h counts cnv md df cf rl ft mm mn mx rc mr bt q = Ok s0 ->
  deseq2 inference lib fuel ft' s0 = Some (Ok s) ->
  counts_values s0 = Ok c ->
  Inv Pd mn hi c s.
Proof.
  intros hi Hnan Hclip Hinit Hrun Hc.
  destruct (init_counts _ _ _ _ _ _ _ _ _ _ _ _ _ _ _ _ Hinit) as (a & c' & Ha & Hc' & Hv & Hn).
  rewrite Hv in Hc. injection Hc as ->.
  eapply deseq2_Inv; [done | done | exact Hrun |].
  eapply init_Inv; [exact Hinit | exact Ha | exact Hc' |].
  subst hi. by rewrite Hn.
Qed.

Lemma fit_MAP_dispersions_sets fuel s s' :
  fit_MAP_dispersions inference lib fuel s = Some (Ok s') ->
  is_Some (layers s' !! "_mu_hat") /\ is_Some (varm s' !! "dispersions").
Proof.
  unfold fit_MAP_dispersions. intros H.
  apply run_bind_ok in H as (s0 & _ & H). run_inv; subst; simpl.
  split.
  - match goal with
    | Hg : get_mat (layers s0) "_mu_hat" = Ok _ |- _ =>
        apply get_mat_lookup in Hg; by rewrite Hg
    end.
  - by rewrite lookup_insert_eq.
Qed.

Lemma fit_LFC_sets fuel s s' :
  fit_LFC inference lib fuel s = Some (Ok s') -> is_Some (varm s' !! "LFC").
Proof.
  unfold fit_LFC. intros H.
  apply run_bind_ok in H as (s0 & _ & H). run_inv; subst; simpl.
  rewrite lookup_insert_ne by done. by rewrite lookup_insert_eq.
Qed.

(** What a run of [deseq2] has set when it returns. *)
Lemma deseq2_sets fuel ft s s' :
  deseq2 inference lib fuel ft s = Some (Ok s') ->
  is_Some (layers s' !! "_mu_hat") /\ is_Some (varm s' !! "dispersions") /\
  is_Some (varm s' !! "LFC").
Proof.
  unfold deseq2. intros H.
  apply run_bind_ok in H as (s1 & _ & H). apply run_bind_ok in H as (s2 & _ & H).
  apply run_bind_ok in H as (s3 & _ & H). apply run_bind_ok in H as (s4 & _ & H).
  apply run_bind_ok in H as (s5 & H5 & H). apply run_bind_ok in H as (s6 & H6 & H).
  apply run_bind_ok in H as (s7 & H7 & H).
  destruct (fit_MAP_dispersions_sets _ _ _ H5) as [Hmu Hd].
  pose proof (fit_LFC_sets _ _ _ H6) as Hl.
  assert (keeps s5 s') as [Kv Kl].
  { eapply keeps_trans; [eapply fit_LFC_keeps; exact H6|].
    eapply keeps_trans; [eapply calculate_cooks_keeps; exact H7|].
    destruct (refit_cooks (cfg s7)).
    - eapply refit_keeps; exact H.
    - injection H as <-. apply keeps_refl. }
  assert (keeps s6 s') as [Kv' _].
  { eapply keeps_trans; [eapply calculate_cooks_keeps; exact H7|].
    destruct (refit_cooks (cfg s7)).
    - eapply refit_keeps; exact H.
    - injection H as <-. apply keeps_refl. }
  auto.
Qed.

(** With a gene without counts, a frame in which some gene has no zero has
    two genes at least. *)
Lemma gene_without_zero l c g :
  all_zero_gene c g -> every_gene_has_zero (DataFrame l) c = false -> (2 <= Np.ncols c)%nat.
Proof.
  intros [Hg Hz] He. destruct (le_lt_dec 2 (Np.ncols c)) as [|Hn]; [done|].
  exfalso. assert (Np.ncols c = 1%nat /\ g = 0%nat) as [Hc ->] by lia.
  enough (every_gene_has_zero (DataFrame l) c = true) by congruence.
  unfold every_gene_has_zero. apply all_intro. intros g' Hg'.
  unfold Np.any_axis0 in Hg'. rewrite length_fmap, transpose_length, Hc in Hg'.
  assert (g' = 0%nat) as -> by lia.
  destruct c as [|row c]; [done|].
  apply any_axis0_intro with (row := map (Z.eqb 0) row); [lia|by left|].
  rewrite list_lookup_fmap, (Hz row) by by left. done.
Qed.

Lemma fit_size_factors_normed s s1 l c :
  (forall m lm fg, Np.ncols (deseq2_norm_transform lib m lm fg).1 = Np.ncols m) ->
  data s !! "counts" = Some (DataFrame l) -> counts_values s = Ok c ->
  fit_size_factors lib s = Ok s1 ->
  every_gene_has_zero (DataFrame l) c = false /\
  (exists nc, layers s1 !! "normed_counts" = Some (VMat nc) /\ Np.ncols nc = Np.ncols c) /\
  is_Some (obsm s1 !! "size_factors").
Proof.
  intros Hnorm Hd Hc H. unfold fit_size_factors in H.
  unfold counts_values in Hc. unfold data_ref in *. rewrite Hd in *. simpl in *.
  destruct (deref (heap s) (DataFrame l)) as [a|]; simpl in *; [|done].
  rewrite Hc in H. simpl in H.
  match type of H with (if ?b then _ else _) ≫= _ = _ => destruct b eqn:He end;
    [discriminate|].
  split; [done|].
  destruct (deseq2_norm_fit lib c) as [lm fg].
  step H s' Hs. step Hs cm Hcm.
  pose proof (Hnorm c lm cm) as Hn.
  destruct (deseq2_norm_transform lib c lm cm) as [nc sf]. simpl in Hn.
  injection Hs as <-. simpl in H. read_norm. simpl in H. injection H as <-. simpl.
  split.
  - exists nc. by rewrite lookup_insert_eq.
  - by rewrite lookup_insert_eq.
Qed.

(** With a gene without counts among two genes or more, and one value per
    gene from one of the rough estimators, [fit_genewise_dispersions] does
    not get past the assignment of [_fit_MoM_dispersions] under the
    [non_zero] mask. *)
Lemma fit_genewise_dispersions_stops vst s c nc g :
  ((forall m d, length (fit_rough_dispersions inference m d) = Np.ncols m) \/
   (forall m sf, length (fit_moments_dispersions2 inference m sf) = Np.ncols m)) ->
  counts_values s = Ok c -> n_vars (cfg s) = Np.ncols c -> (2 <= Np.ncols c)%nat ->
  all_zero_gene c g ->
  layers s !! "normed_counts" = Some (VMat nc) -> Np.ncols nc = Np.ncols c ->
  is_Some (obsm s !! "size_factors") ->
  exists e, fit_genewise_dispersions inference lib vst s = Raise e.
Proof.
  intros Hest Hc Hn H2 Hz Hnc Hncols Hsf.
  destruct (fit_genewise_dispersions inference lib vst s) as [s'|e] eqn:H; [|by eexists].
  exfalso. unfold fit_genewise_dispersions in H.
  assert (has (obsm s) "size_factors" = true) as Hh by by apply has_lookup.
  rewrite Hh in H. simpl in H. unfold counts_values in Hc.
  step H r Hr. rewrite Hr in Hc. simpl in Hc.
  step H a Ha. rewrite Ha in Hc. simpl in Hc.
  step H c' Hc'. rewrite Hc' in Hc. injection Hc as ->.
  step H idx Hidx. step H s1 Hmom. clear H.
  unfold _fit_MoM_dispersions in Hmom. simpl in Hmom.
  assert (has (layers s) "normed_counts" = true) as Hl
    by (apply has_lookup; by rewrite Hnc).
  rewrite Hl in Hmom. simpl in Hmom.
  step Hmom nc' Hnc'. apply get_mat_lookup in Hnc'. rewrite Hnc in Hnc'.
  injection Hnc' as <-.
  step Hmom X HX. step Hmom sf Hsf'. step Hmom alpha_hat Ha'.
  read_norm. simpl in Hmom. step Hmom mom Hput. clear Hmom.
  apply (broadcast_length _ _ _ _ (Np.ncols c)) in Ha'; [|done|].
  2:{ destruct Hest as [Hr'|Hm]; [left; by rewrite Hr'|right; by rewrite Hm]. }
  destruct (put_mask_too_many (Np.full (n_vars (cfg s)) nan) (non_zero_mask c)
              (map (fun a => Np.clip a (min_disp (cfg s)) (max_disp (cfg s))) alpha_hat))
    as [e He].
  - rewrite List.length_map, Ha'. rewrite <- (non_zero_mask_length c).
    eapply count_true_lt. by apply all_zero_gene_masked.
  - rewrite List.length_map. lia.
  - congruence.
Qed.

(** C8, against the code. On an object built by [__init__] from counts with
    a gene that has no count in any sample, a run of [deseq2] raises before
    any dispersion is stored, as soon as one of the two rough estimators of
    the inference object returns a value for each column of the matrix it is
    given (and normalising the counts keeps their columns): if every gene has
    a zero, [fit_size_factors] raises; if not, [_fit_MoM_dispersions] hands
    the whole matrix of normalised counts to the estimators and assigns the
    estimates under the [non_zero] mask, which holds at fewer genes than
    there are estimates. So no run ends with NaN entries for that gene. *)
Theorem all_zero_gene_stops_run h counts cnv md df cf rl ft mm mn mx rc mr bt q
    fuel ft' s0 c g :
  (forall m lm fg, Np.ncols (deseq2_norm_transform lib m lm fg).1 = Np.ncols m) ->
  ((forall m d, length (fit_rough_dispersions inference m d) = Np.ncols m) \/
   (forall m sf, length (fit_moments_dispersions2 inference m sf) = Np.ncols m)) ->
  __init__ lib h counts cnv md df cf rl ft mm mn mx rc mr bt q = Ok s0 ->
  counts_values s0 = Ok c ->
  all_zero_gene c g ->
  exists e, deseq2 inference lib fuel ft' s0 = Some (Raise e).
Proof.
  intros Hnorm Hest Hinit Hc Hz.
  assert (exists l, data s0 !! "counts" = Some (DataFrame l)) as [l Hd].
  { unfold __init__, alloc in Hinit. run_inv; subst.
    destruct counts; simplify_eq. eexists. simpl.
    rewrite lookup_insert_ne by done. apply lookup_insert_eq. }
  assert (n_vars (cfg s0) = Np.ncols c) as Hn.
  { unfold __init__, alloc in Hinit. run_inv; subst.
    destruct counts; simplify_eq. simpl.
    unfold counts_values, data_ref in Hc. simpl in Hc.
    rewrite lookup_insert_ne in Hc by done. rewrite lookup_insert_eq in Hc. simpl in Hc.
    unfold deref in Hc. simpl in Hc. rewrite lookup_app_r, Nat.sub_diag in Hc by done.
    simpl in Hc. by injection Hc as <-. }
  unfold deseq2.
  set (s := match ft' with Some t => set_fit_type t s0 | None => s0 end).
  assert (data s = data s0 /\ heap s = heap s0 /\ cfg s = cfg s0) as (Hsd & Hsh & Hsc)
    by (subst s; by destruct ft').
  assert (counts_values s = Ok c) as Hcs
    by (unfold counts_values, data_ref in *; by rewrite Hsd, Hsh).
  destruct (fit_size_factors lib s) as [s1|e] eqn:H1; [|by eexists].
  destruct (fit_size_factors_normed _ _ _ _ Hnorm ltac:(by rewrite Hsd) Hcs H1)
    as (He & (nc & Hnc & Hncols) & Hsf).
  destruct (fit_size_factors_unchanged _ _ _ H1) as (Hh1 & Hc1 & Hd1).
  destruct (fit_genewise_dispersions_stops false s1 c nc g) as [e He']; try done.
  - unfold counts_values, data_ref in *. by rewrite Hd1, Hh1.
  - by rewrite Hc1, Hsc.
  - by eapply gene_without_zero.
  - simpl. rewrite He'. by eexists.
Qed.

(** C5, as amended. After [__init__] and a full run of [deseq2], every
    dispersion that is not NaN, in [genewise_dispersions], [MAP_dispersions],
    [dispersions] and [_MoM_dispersions], lies between [min_disp] and the
    larger of [max_disp] and the number of samples, which is the upper bound
    that [__init__] keeps; the bounds are supposed in order. *)
Theorem dispersions_within_adjusted_bounds h counts cnv md df cf rl ft mm mn mx rc mr bt q
    fuel ft' s0 s k x :
  let hi := Np.maximum mx (Np.of_nat (n_obs (cfg s0))) in
  __init__ lib h counts cnv md df cf rl ft mm mn mx rc mr bt q = Ok s0 ->
  deseq2 inference lib fuel ft' s0 = Some (Ok s) ->
  (mn <=? hi) = true ->
  k ∈ ["genewise_dispersions"; "MAP_dispersions"; "dispersions"; "_MoM_dispersions"] ->
  get_vec (varm s) k = Ok x ->
  forall d, d ∈ x -> PrimFloat.is_nan d = false ->
            (mn <=? d) = true /\ (d <=? hi) = true.
Proof.
  intros hi Hinit Hrun Hle Hk Hx.
  destruct (init_counts _ _ _ _ _ _ _ _ _ _ _ _ _ _ _ _ Hinit) as (a & c & _ & _ & Hc & _).
  set (Pd := fun d => PrimFloat.is_nan d = false -> (mn <=? d) = true /\ (d <=? hi) = true).
  assert (Inv Pd mn hi c s) as Hi.
  { eapply pipeline_Inv; [| | exact Hinit | exact Hrun | exact Hc].
    - intros Hn. by vm_compute in Hn.
    - intros y Hn. by apply clip_bounds. }
  apply inb_true in Hk.
  destruct (Inv_dispersions _ _ _ _ _ _ _ Hi Hk Hx) as [_ HP].
  rewrite Forall_forall in HP. exact HP.
Qed.

End pipeline.

(** ** The replacement of outlier counts *)

Section outliers.

Import Dds.
Context (inference : Inference) (lib : Lib).




End outliers.

(** ** The theorems on the example data *)

Section on_examples.

Import Dds.

(** C1 on the example data, with the two factors as design: the offset of
    the solver call of [fit_LFC] is the rescaled matrix, and the one of
    [fit_genewise_dispersions] the stored matrix. *)
Lemma cnv_offset_of_solver_calls_witness :
  exists s s' t',
    Ex.new ["condition"; "batch"] = Ok s /\
    fit_LFC Ex.inference Ref.lib 20 s = Some (Ok s') /\
    fit_genewise_dispersions Ex.inference Ref.lib false s = Ok t' /\
    (exists c cnv idx cnv_nz,
        last (irls_calls s') = Some c /\
        data_values s "cnv" = Ok cnv /\
        attr_idx (attrs s') "non_zero_idx" = Ok idx /\
        Np.take_cols idx (rescaled cnv) = Ok cnv_nz /\
        call_cnv c = cnv_nz) /\
    (exists design_matrix,
        get_mat (obsm s) "design_matrix" = Ok design_matrix /\
        if (value_counts Ref.lib design_matrix =? Np.ncols design_matrix)%nat
        then irls_calls t' = irls_calls s
        else exists c cnv idx cnv_nz,
            irls_calls t' = (irls_calls s ++ [c])%list /\
            data_values s "cnv" = Ok cnv /\
            attr_idx (attrs t') "non_zero_idx" = Ok idx /\
            Np.take_cols idx cnv = Ok cnv_nz /\
            call_cnv c = cnv_nz).
Proof.
  destruct (succeeds_inv
              (s ← lift (Ex.new ["condition"; "batch"]);
               s' ← fit_LFC Ex.inference Ref.lib 20 s;
               t' ← lift (fit_genewise_dispersions Ex.inference Ref.lib false s);
               mret (s, s', t'))) as [[[s s'] t'] H]; [vm_compute; reflexivity|].
  run_inv. simplify_eq.
  exists s, s', t'. repeat (split; [assumption|]).
  by eapply (cnv_offset_of_solver_calls Ex.inference Ref.lib 20 false).
Defined.

(** C1, against the claim as stated: with the two factors as design,
    [fit_genewise_dispersions] calls the solver once, and the offset it
    hands over is the stored copy number at the genes with counts, with
    entries 4 and 1 in the second condition: it is not fixed at one. *)
Lemma genewise_offset_is_stored_cnv :
  (s ← Ex.new ["condition"; "batch"];
   s' ← fit_genewise_dispersions Ex.inference Ref.lib false s;
   Ok (map call_cnv (irls_calls s')))
  = Ok [[[2; 2; 2; 2]; [2; 2; 2; 2]; [2; 2; 2; 2]; [2; 2; 2; 2];
         [4; 2; 1; 2]; [4; 2; 1; 2]; [4; 2; 1; 2]; [4; 2; 1; 2]]] /\
  (4 =? 1) = false.
Proof. split; vm_compute; reflexivity. Qed.


(** C9 on the example data. *)
Lemma fit_MAP_dispersions_twice_witness :
  exists s s1,
    Ex.new ["condition"] = Ok s /\
    fit_MAP_dispersions Ex.inference Ref.lib 20 s = Some (Ok s1) /\
    fit_MAP_dispersions Ex.inference Ref.lib 20 s1 = Some (Ok s1) /\
    (exists map_disp, get_vec (varm s1) "MAP_dispersions" = Ok map_disp).
Proof.
  destruct (succeeds_inv
              (s ← lift (Ex.new ["condition"]);
               s' ← fit_MAP_dispersions Ex.inference Ref.lib 20 s;
               mret (s, s'))) as [[s s'] H]; [vm_compute; reflexivity|].
  run_inv. simplify_eq.
  exists s, s'. repeat (split; [assumption|]).
  by eapply (fit_MAP_dispersions_twice Ex.inference Ref.lib 20).
Defined.

(** C10 on the example data, for the copy-number frame. *)
Lemma fit_LFC_leaves_inputs_witness :
  exists s s' r a,
    Ex.new ["condition"] = Ok s /\
    fit_LFC Ex.inference Ref.lib 20 s = Some (Ok s') /\
    data s !! "cnv" = Some r /\ deref (heap s) r = Ok a /\
    data s' !! "cnv" = Some r /\ deref (heap s') r = Ok a.
Proof.
  destruct (succeeds_inv
              (s ← lift (Ex.new ["condition"]);
               s' ← fit_LFC Ex.inference Ref.lib 20 s;
               r ← lift (data_ref s "cnv");
               a ← lift (deref (heap s) r);
               mret (s, s', r, a))) as [[[[s s'] r] a] H]; [vm_compute; reflexivity|].
  run_inv. simplify_eq.
  assert (data s !! "cnv" = Some r) as Hr.
  { unfold data_ref in *. destruct (data s !! "cnv"); by simplify_eq. }
  exists s, s', r, a. repeat (split; [assumption|]).
  eapply (fit_LFC_leaves_inputs Ex.inference Ref.lib 20); [eassumption | by left | done..].
Defined.

(** The routines of the examples meet the suppositions of C8: normalising
    the counts keeps their columns, and the moments estimator returns a value
    for each column. *)
Lemma norm_transform_ncols (m : list (list Z)) lm fg :
  Np.ncols (deseq2_norm_transform Ref.lib m lm fg).1 = Np.ncols m.
Proof. destruct m as [|r m]; [done|]. simpl. apply List.length_map. Qed.

Lemma moments_per_column (m : matrix) sf :
  length (fit_moments_dispersions2 Ex.inference m sf) = Np.ncols m.
Proof.
  simpl. unfold Ref.fit_moments_dispersions2, Ref.columns.
  by rewrite List.length_map, transpose_length.
Qed.

(** C8 on the example with a gene without counts: the run raises. *)
Lemma all_zero_gene_stops_run_witness :
  exists s0,
    Ex6.new = Ok s0 /\
    counts_values s0 = Ok Ex6.counts /\
    all_zero_gene Ex6.counts 1 /\
    exists e, deseq2 Ex.inference Ref.lib 20 None s0 = Some (Raise e).
Proof.
  assert (all_zero_gene Ex6.counts 1) as Hz.
  { split; [simpl; lia|]. intros row Hr.
    repeat (apply elem_of_cons in Hr as [->|Hr]; [reflexivity|]).
    by apply elem_of_nil in Hr. }
  destruct (succeeds_inv
              (s0 ← lift Ex6.new;
               c ← lift (counts_values s0);
               _ ← guard (bool_decide (c = Ex6.counts));
               mret s0)) as [s0 H]; [vm_compute; reflexivity|].
  run_inv. simplify_eq.
  match goal with Hg : guard _ = _ |- _ => apply guard_ok, bool_decide_eq_true_1 in Hg end.
  subst.
  exists s0. repeat (split; [assumption|]).
  eapply (all_zero_gene_stops_run Ex.inference Ref.lib);
    [apply norm_transform_ncols | right; apply moments_per_column
    | eassumption | eassumption | exact Hz].
Defined.

(** The exception of that run: the assignment of [_fit_MoM_dispersions]
    under the [non_zero] mask gets five estimates for four genes. *)
Example all_zero_gene_run_on_example :
  (s0 ← lift Ex6.new; deseq2 Ex.inference Ref.lib 20 None s0)
  = Some (Raise (ValueError
                   "cannot assign input values to the output values where the mask is true")).
Proof. vm_compute. reflexivity. Qed.

(** C5 on the data with the extreme count, built with [max_disp=10] and
    without the refit: the bound is 14, the number of samples. *)
Lemma dispersions_within_adjusted_bounds_witness :
  exists s0 s x,
    Ex2.new 10 false = Ok s0 /\
    deseq2 Ex.inference Ref.lib 20 None s0 = Some (Ok s) /\
    (1e-8 <=? Np.maximum 10 (Np.of_nat (n_obs (cfg s0)))) = true /\
    get_vec (varm s) "genewise_dispersions" = Ok x /\
    forall d, d ∈ x -> PrimFloat.is_nan d = false ->
              (1e-8 <=? d) = true /\
              (d <=? Np.maximum 10 (Np.of_nat (n_obs (cfg s0)))) = true.
Proof.
  destruct (succeeds_inv
              (s0 ← lift (Ex2.new 10 false);
               s ← deseq2 Ex.inference Ref.lib 20 None s0;
               _ ← guard (1e-8 <=? Np.maximum 10 (Np.of_nat (n_obs (cfg s0))));
               x ← lift (get_vec (varm s) "genewise_dispersions");
               mret (s0, s, x))) as [[[s0 s] x] H]; [vm_compute; reflexivity|].
  run_inv. simplify_eq.
  match goal with Hg : guard _ = _ |- _ => apply guard_ok in Hg end.
  exists s0, s, x. repeat (split; [assumption|]).
  eapply (dispersions_within_adjusted_bounds Ex.inference Ref.lib);
    [eassumption | eassumption | assumption | | eassumption].
  set_solver.
Defined.

(** C5, against the claim as stated: on the same data, built with
    [max_disp=10], the run gives the first gene a method-of-moments
    dispersion above 10: the rough estimate [129.97 / 12], below the bound
    14 that is in force. *)
Lemma dispersion_above_given_max_disp :
  exists mom d,
    (s0 ← lift (Ex2.new 10 false);
     s ← deseq2 Ex.inference Ref.lib 20 None s0;
     lift (get_vec (varm s) "_MoM_dispersions")) = Some (Ok mom) /\
    mom !! 0%nat = Some d /\ PrimFloat.is_nan d = false /\ (d <=? 10) = false.
Proof.
  eexists _, _.
  split; [vm_compute; reflexivity|]. split; [reflexivity|].
  split; reflexivity.
Qed.



End on_examples.

(** ** The solver: its loop and its convergence flag *)

Section irls_more.

Import Utils.
Context (num : Numeric).
Variables (counts : list Z) (size_factors : vec) (design_matrix : matrix) (cnv : vec)
          (disp : float) (min_mu beta_tol min_beta max_beta : float)
          (optimizer : optimizer_t) (maxiter : Z).

Let fallback' :=
  fallback num counts size_factors design_matrix cnv disp min_mu min_beta max_beta optimizer.
Let irls_loop' :=
  irls_loop num counts size_factors design_matrix cnv disp min_mu beta_tol min_beta max_beta
    optimizer maxiter.
Let irls_glm' :=
  irls_glm num counts size_factors design_matrix cnv disp min_mu beta_tol min_beta max_beta
    optimizer maxiter.

(** The grid search as [irls_glm] calls it raises at the first row of its
    grid: the closure indexes the dispersion, a number, which it got in the
    place of the copy number. *)
Lemma grid_fit_beta_raises floor lo hi :
  grid_fit_beta counts size_factors cnv design_matrix disp floor 60 lo hi = Raise IndexError.
Proof. reflexivity. Qed.

(** The calls of a run that ends well, with the flag it returns: a run that
    got to the grid search does not end well. *)
Definition flagged_calls (c : bool) (t : list event) : Prop :=
  (t = [] /\ c = true) \/
  (t = [EvMinimize c] /\ (c = false -> (2 < Np.ncols design_matrix)%nat)).

Lemma fallback_flag b0 log beta mu c log' :
  fallback' b0 log = Some (Ok (beta, mu, c), log') ->
  exists t, log' = (log ++ t)%list /\ flagged_calls c t.
Proof.
  unfold fallback', fallback, flagged_calls. intros H.
  solver_ok H.
  apply bind_inv in H as [(u & l1 & H1 & H)|(e & H1 & [=])].
  injection H1 as _ <-.
  solver_ok H.
  destruct (negb (res_success a) && (Np.ncols design_matrix <=? 2)%nat) eqn:Hg.
  - apply bind_inv in H as [(u' & l2 & H2 & H)|(e & H2 & [=])].
    solver_ok H. by rewrite grid_fit_beta_raises in H3.
  - injection H as _ _ <- <-. exists [EvMinimize (res_success a)].
    split; [done|]. right. split; [done|]. intros Hs. rewrite Hs in Hg. simpl in Hg.
    by apply Nat.leb_gt in Hg.
Qed.

Lemma irls_loop_flag fuel : forall b0 i beta mu dev dev_ratio log beta' mu' c log',
  irls_loop' fuel b0 i beta mu dev dev_ratio log = Some (Ok (beta', mu', c), log') ->
  exists t, log' = (log ++ t)%list /\ flagged_calls c t.
Proof.
  induction fuel as [|fuel IH]; intros b0 i beta mu dev dev_ratio log beta' mu' c log';
    unfold irls_loop'; simpl;
    (destruct (Np.gt dev_ratio beta_tol);
     [|intros [= _ _ <- <-]; exists []; rewrite app_nil_r; split; [done | by left]]);
    intros H.
  all: do 7 solver_ok H.
  all: match type of H with context [(?c || ?d)] => destruct (c || d) end;
         [by eapply fallback_flag|].
  all: do 2 solver_ok H.
  - discriminate.
  - by eapply IH.
Qed.

(** X1. The flag [converged] that [irls_glm] returns is [False] exactly when
    the quasi-Newton minimiser was called and reported a failure, and this
    happens only on a design of three columns or more: on a narrower design
    the failed minimisation is followed by the grid search, which raises as
    it is called, so that no run that returns has got to it. *)
Theorem irls_glm_converged_flag beta mu hat converged log' :
  irls_glm' [] = Some (Ok (beta, mu, hat, converged), log') ->
  (converged = false <-> EvMinimize false ∈ log') /\
  (EvGridFit ∉ log') /\
  (converged = false -> (2 < Np.ncols design_matrix)%nat).
Proof.
  unfold irls_glm', irls_glm. intros Hrun.
  do 2 solver_ok Hrun.
  apply bind_inv in Hrun as [([[beta1 mu1] c1] & l1 & Hloop & Hrun)|(e & Hloop & [=])].
  apply irls_loop_flag in Hloop as (t & -> & Ht). simpl in *.
  do 5 solver_ok Hrun. injection Hrun as _ _ _ <- <-.
  destruct Ht as [[-> ->]|[-> Hn]].
  - split; [|split; [|done]].
    + split; [done|]. intros Hin. by apply elem_of_nil in Hin.
    + intros Hin. by apply elem_of_nil in Hin.
  - split; [|split; [|done]].
    + split.
      * intros ->. by left.
      * intros Hin. apply list_elem_of_singleton in Hin. by injection Hin.
    + intros Hin. apply list_elem_of_singleton in Hin. discriminate.
Qed.

(** X2. The loop of [irls_glm] ends for every input: within [maxiter] turns
    the deviance ratio is at most [beta_tol] or the [break] is taken, so that
    the solver returns or raises. *)
Theorem irls_glm_loop_ends log : is_Some (irls_glm' log).
Proof. apply irls_glm_returns. Qed.

End irls_more.

(** ** The class: further properties of the methods *)

Section size_factors_facts.

Import Dds.
Context (inference : Inference) (lib : Lib).

(** Every gene of the frame [c] has a zero count in some sample. *)
Definition zero_in_every_gene (c : list (list Z)) : Prop :=
  forall g, (g < Np.ncols c)%nat -> exists row, row ∈ c /\ row !! g = Some 0%Z.

Lemma zero_in_every_gene_test l c :
  zero_in_every_gene c -> every_gene_has_zero (DataFrame l) c = true.
Proof.
  intros H. unfold every_gene_has_zero. apply all_intro. intros g Hg.
  unfold Np.any_axis0 in Hg. rewrite length_fmap, transpose_length in Hg.
  destruct (H g Hg) as (row & Hrow & Hz).
  eapply (any_axis0_intro _ _ _ (map (Z.eqb 0) row)); [done | |].
  - apply list_elem_of_fmap. eauto.
  - by rewrite list_lookup_fmap, Hz.
Qed.

(** X3. On a count frame in which every gene has a zero in some sample,
    [fit_size_factors] turns to [_fit_iterate_size_factors], which reads the
    attribute [obs_names] that the class never sets: [fit_size_factors] and
    [deseq2] raise an [AttributeError]. *)
Theorem zero_in_every_gene_raises s l a c :
  data s !! "counts" = Some (DataFrame l) -> heap s !! l = Some a -> as_counts a = Ok c ->
  zero_in_every_gene c ->
  fit_size_factors lib s = Raise (AttributeError "obs_names") /\
  forall fuel ft,
    deseq2 inference lib fuel ft s = Some (Raise (AttributeError "obs_names")).
Proof.
  intros Hd Hh Ha Hz.
  assert (forall t, data t = data s -> heap t = heap s ->
                    fit_size_factors lib t = Raise (AttributeError "obs_names")) as Hfs.
  { intros t Et Eh. unfold fit_size_factors, data_ref, deref. rewrite Et, Hd, Eh.
    cbn -[every_gene_has_zero]. rewrite Hh. cbn -[every_gene_has_zero].
    rewrite Ha. cbn -[every_gene_has_zero].
    by rewrite (zero_in_every_gene_test l c Hz). }
  split; [by apply Hfs|].
  intros fuel ft. unfold deseq2.
  rewrite Hfs; [done | by destruct ft | by destruct ft].
Qed.

End size_factors_facts.

Section trend_facts.

Import Dds.
Context (inference : Inference) (lib : Lib).

(** Neither coefficient is at or below the threshold of the trend fit: each
    is above [1e-10], or NaN. *)
Definition above_threshold (coeffs : float * float) : Prop :=
  (coeffs.1 <=? 1e-10) = false /\ (coeffs.2 <=? 1e-10) = false.

Lemma trend_loop_coeffs fuel : forall genewise old_coeffs coeffs rows c,
  above_threshold coeffs ->
  trend_loop inference lib fuel genewise old_coeffs coeffs rows = Some (Ok (Some c)) ->
  above_threshold c.
Proof.
  induction fuel as [|fuel IH]; intros genewise old_coeffs coeffs rows c Hc; simpl;
    match goal with |- context [if ?b then _ else _] => destruct b end;
    try (by intros [= <-]); try discriminate.
  destruct (dispersion_trend_gamma_glm _ _ _) as [[coeffs' predictions] converged].
  destruct (negb converged || _) eqn:Hg; [discriminate|].
  apply orb_false_iff in Hg as [_ [H1 H2]%orb_false_iff].
  intros H.
  match type of H with
  | match ?m with _ => _ end = _ => destruct m as [rows'|]; [|discriminate]
  end.
  eapply IH; [|exact H]. by split.
Qed.

(** X4. When [fit_dispersion_trend] returns, the trend is of one of two
    kinds. Either it is parametric, and neither stored coefficient is at or
    below [1e-10]; or it is the mean trend, and the fitted dispersion is the
    same number [mean_disp] for all genes, all-zero genes included. *)
Theorem fit_dispersion_trend_kinds fuel s s' :
  fit_dispersion_trend inference lib fuel s = Some (Ok s') ->
  (uns s' !! "disp_function_type" = Some (VStr "parametric") /\
   exists coeffs, uns s' !! "trend_coeffs" = Some (VCoeffs coeffs) /\
                  above_threshold coeffs) \/
  (uns s' !! "disp_function_type" = Some (VStr "mean") /\
   exists m, uns s' !! "mean_disp" = Some (VNum m) /\
             varm s' !! "fitted_dispersions" = Some (VVec (Np.full (n_vars (cfg s')) m))).
Proof.
  assert (forall vst t t', _fit_mean_dispersion_trend lib vst t = Ok t' ->
            uns t' !! "disp_function_type" = Some (VStr "mean") /\
            exists m, uns t' !! "mean_disp" = Some (VNum m) /\
              varm t' !! "fitted_dispersions"
              = Some (VVec (Np.full (n_vars (cfg t')) m))) as Hmean.
  { intros vst t t'. unfold _fit_mean_dispersion_trend. intros H. run_inv. subst t'.
    simpl. split; [by rewrite lookup_insert_eq|]. eexists.
    split; [by rewrite lookup_insert_ne, lookup_insert_eq|]. by rewrite lookup_insert_eq. }
  unfold fit_dispersion_trend. intros H.
  apply run_bind_ok in H as (s0 & _ & H).
  destruct (fit_type s0); [| right; apply lift_ok in H; by eapply Hmean | discriminate].
  unfold _fit_parametric_dispersion_trend in H.
  apply run_bind_ok in H as (s1 & _ & H).
  apply run_bind_ok in H as (genewise & _ & H).
  apply run_bind_ok in H as (rows & _ & H).
  apply run_bind_ok in H as (fit & Hfit & H).
  destruct fit as [coeffs|]; [| right; apply lift_ok in H; by eapply Hmean].
  left. apply trend_loop_coeffs in Hfit; [|by split].
  simpl in H. apply lift_ok in H. run_inv. subst s'. simpl.
  split; [by rewrite lookup_insert_eq|]. exists coeffs. split; [|done].
  rewrite lookup_insert_ne by done. by rewrite lookup_insert_eq.
Qed.

(** X5. The prior variance that [fit_dispersion_prior] stores is not below
    [0.25]: the squared log-residual spread less the trigamma term is
    floored with [np.maximum]. *)
Theorem prior_disp_var_floor fuel s s' :
  fit_dispersion_prior inference lib fuel s = Some (Ok s') ->
  exists sq v, uns s' !! "_squared_logres" = Some (VNum sq) /\
               uns s' !! "prior_disp_var" = Some (VNum v) /\
               (v <? 0.25) = false /\
               (PrimFloat.is_nan v = false -> (0.25 <=? v) = true).
Proof.
  unfold fit_dispersion_prior. intros H.
  apply run_bind_ok in H as (s0 & _ & H). apply lift_ok in H. run_inv. subst s'. simpl.
  eexists _, _. split; [by rewrite lookup_insert_ne, lookup_insert_eq|].
  split; [by rewrite lookup_insert_eq|].
  split; [apply maximum_not_below|].
  intros Hn. apply not_ltb_leb; [done | | apply maximum_not_below].
  reflexivity.
Qed.

End trend_facts.

(** ** The class: the inputs over a whole run *)

Section whole_run.

Import Dds.
Context (inference : Inference) (lib : Lib).

(** [held s s']: the store has only grown, and the configuration, the
    entries of [self.data] and the design matrix are the same. *)
Definition held (s s' : deconveil_fit) : Prop :=
  frame s s' /\ obsm s' !! "design_matrix" = obsm s !! "design_matrix".

Lemma held_refl s : held s s.
Proof. split; [apply frame_refl | done]. Qed.

Lemma held_trans s1 s2 s3 : held s1 s2 -> held s2 s3 -> held s1 s3.
Proof.
  intros [F1 D1] [F2 D2]. split; [by eapply frame_trans | congruence].
Qed.

Lemma held_of_mods W s s' :
  inb "design_matrix" (w_obsm W) = false -> frame s s' -> mods W s s' -> held s s'.
Proof. intros HW Hf (Ho & _). split; [done | by apply Ho]. Qed.

Lemma held_set_obsm k v s : k <> "design_matrix" -> held s (set_obsm k v s).
Proof.
  intros Hk. split; [apply unchanged_frame, unchanged_set_obsm|].
  simpl. by rewrite lookup_insert_ne.
Qed.
Lemma held_set_layers k v s : held s (set_layers k v s).
Proof. split; [apply unchanged_frame, unchanged_set_layers | done]. Qed.
Lemma held_set_varm k v s : held s (set_varm k v s).
Proof. split; [apply unchanged_frame, unchanged_set_varm | done]. Qed.
Lemma held_set_uns k v s : held s (set_uns k v s).
Proof. split; [apply unchanged_frame, unchanged_set_uns | done]. Qed.
Lemma held_set_attr k v s : held s (set_attr k v s).
Proof. split; [apply unchanged_frame, unchanged_set_attr | done]. Qed.
Lemma held_set_fit_type t s : held s (set_fit_type t s).
Proof. split; [apply unchanged_frame, unchanged_set_fit_type | done]. Qed.
Lemma held_record_calls_of t s : held s (record_calls_of t s).
Proof. by repeat split. Qed.
Lemma held_set_heap h s : heap s `prefix_of` h -> held s (set_heap h s).
Proof. by repeat split. Qed.

Lemma fit_size_factors_held s s' : fit_size_factors lib s = Ok s' -> held s s'.
Proof.
  intros H. eapply held_of_mods; [| apply unchanged_frame | ].
  - shelve.
  - by eapply fit_size_factors_unchanged.
  - by eapply fit_size_factors_mods.
  Unshelve. reflexivity.
Qed.

Lemma fit_genewise_dispersions_held vst s s' :
  fit_genewise_dispersions inference lib vst s = Ok s' -> held s s'.
Proof.
  intros H. eapply (held_of_mods W_genewise); [reflexivity | apply unchanged_frame | ].
  - by eapply fit_genewise_dispersions_unchanged.
  - by eapply fit_genewise_dispersions_mods.
Qed.

Lemma fit_dispersion_trend_held fuel s s' :
  fit_dispersion_trend inference lib fuel s = Some (Ok s') -> held s s'.
Proof.
  intros H. eapply (held_of_mods W_trend); [reflexivity | apply unchanged_frame | ].
  - by eapply fit_dispersion_trend_unchanged.
  - by eapply fit_dispersion_trend_mods.
Qed.

Lemma fit_dispersion_prior_held fuel s s' :
  fit_dispersion_prior inference lib fuel s = Some (Ok s') -> held s s'.
Proof.
  intros H. eapply (held_of_mods W_prior); [reflexivity | apply unchanged_frame | ].
  - by eapply fit_dispersion_prior_unchanged.
  - by eapply fit_dispersion_prior_mods.
Qed.

Lemma fit_MAP_dispersions_held fuel s s' :
  fit_MAP_dispersions inference lib fuel s = Some (Ok s') -> held s s'.
Proof.
  intros H. eapply (held_of_mods W_MAP); [reflexivity | apply unchanged_frame | ].
  - by eapply fit_MAP_dispersions_unchanged.
  - by eapply fit_MAP_dispersions_mods.
Qed.

Lemma fit_LFC_held fuel s s' :
  fit_LFC inference lib fuel s = Some (Ok s') -> held s s'.
Proof.
  intros H. eapply (held_of_mods W_LFC); [reflexivity | | ].
  - by eapply fit_LFC_frame.
  - by eapply fit_LFC_mods.
Qed.

Ltac held_step :=
  first
    [ apply held_set_obsm; discriminate
    | apply held_set_layers | apply held_set_varm | apply held_set_uns
    | apply held_set_attr | apply held_set_fit_type | apply held_record_calls_of
    | solve [eapply fit_size_factors_held; eassumption]
    | solve [eapply fit_genewise_dispersions_held; eassumption]
    | solve [eapply fit_dispersion_trend_held; eassumption]
    | solve [eapply fit_dispersion_prior_held; eassumption]
    | solve [eapply fit_MAP_dispersions_held; eassumption]
    | solve [eapply fit_LFC_held; eassumption]
    | solve [eauto with held_db] ].

Ltac held_close :=
  repeat first [ apply held_refl | (eapply held_trans; [| held_step ]) ].

(** [calculate_cooks] binds [self.data["counts"]] to the array under the
    frame; nothing else of the inputs changes. *)
Lemma calculate_cooks_data fuel s s' :
  calculate_cooks inference lib fuel s = Some (Ok s') ->
  exists l t, held s t /\ data s !! "counts" = Some (DataFrame l) /\
    heap s' = heap t /\ cfg s' = cfg t /\ obsm s' = obsm t /\
    data s' = <["counts" := NdArray l]> (data t).
Proof.
  unfold calculate_cooks. intros H.
  apply run_bind_ok in H as (t & Ht & H).
  assert (held s t) as Hst.
  { destruct (has (varm s) "dispersions"); [injection Ht as <-; apply held_refl|].
    by eapply fit_MAP_dispersions_held. }
  clear Ht. apply lift_ok in H.
  do 6 (apply result_bind_ok in H as (? & ? & H)).
  match goal with Hn : to_numpy ?r = Ok _ |- _ => destruct r as [l|l]; [|discriminate] end.
  run_inv. subst. exists l, t.
  unfold data_ref in *. destruct (data t !! "counts") eqn:E; [|discriminate].
  simpl in *. simplify_eq. split; [done|]. split; [|done].
  destruct Hst as [(_ & _ & Hd) _]. by rewrite <- Hd.
Qed.

Lemma has_get_mask (d : gmap string value) k m : get_mask d k = Ok m -> has d k = true.
Proof.
  intros H. apply get_mask_lookup in H. apply has_lookup. by rewrite H.
Qed.

Lemma _replace_outliers_held fuel s s' :
  has (layers s) "cooks" = true ->
  _replace_outliers inference lib fuel s = Some (Ok s') -> held s s'.
Proof.
  unfold _replace_outliers. intros -> H. run_inv; subst; held_close.
Qed.

Ltac step H x Hx :=
  first [ apply run_bind_ok in H as (x & Hx & H)
        | apply result_bind_ok in H as (x & Hx & H) ].

Lemma _refit_without_outliers_held fuel s s' :
  has (varm s) "replaced" = true ->
  _refit_without_outliers inference lib fuel s = Some (Ok s') -> held s s'.
Proof.
  unfold _refit_without_outliers. intros -> H.
  destruct (negb (refit_cooks (cfg s))); [discriminate|].
  step H s1 Hs1. injection Hs1 as <-.
  step H fr Hfr. destruct fr as [columns counts_to_refit].
  step H naz Hnaz. step H replaced Hrep. step H refitted Href.
  step H s2 Hs2. apply lift_ok in Hs2.
  assert (held s s2) as H2 by (clear H; run_inv; subst; held_close).
  clear Hs2.
  destruct (Np.count_true refitted =? 0)%nat; [by injection H as <-|].
  step H ctr Hctr. step H cols Hcols. step H cnv Hcnv.
  unfold alloc in H.
  step H sub0 Hsub0. apply lift_ok in Hsub0. apply init_heap in Hsub0. simpl in Hsub0.
  step H size_factors Hsf.
  step H sub2 Hsub2. apply lift_ok in Hsub2.
  assert (heap sub2 = heap sub0) as Hh2 by (clear H; run_inv; by subst).
  clear Hsub2.
  step H sub3 Hsub3. apply lift_ok in Hsub3.
  destruct (fit_genewise_dispersions_unchanged _ _ _ _ _ Hsub3) as (Hh3 & _). clear Hsub3.
  step H sub4 Hsub4. apply lift_ok in Hsub4.
  assert (heap sub4 = heap sub3) as Hh4 by (clear H; run_inv; by subst).
  clear Hsub4.
  step H sub5 Hsub5.
  destruct (fit_MAP_dispersions_unchanged _ _ _ _ _ Hsub5) as (Hh5 & _). clear Hsub5.
  step H sub6 Hsub6.
  destruct (fit_LFC_frame _ _ _ _ _ Hsub6) as (Hh6 & _). clear Hsub6.
  assert (heap s2 `prefix_of` heap sub6) as Hp.
  { etrans; [|exact Hh6]. rewrite Hh5, Hh4, Hh3, Hh2.
    etrans; [|exact Hsub0]. by apply prefix_app_r. }
  apply lift_ok in H. run_inv; subst.
  all: eapply held_trans; [exact H2|].
  all: repeat first
         [ apply held_refl
         | (eapply held_trans;
            [| first [ held_step | apply held_set_heap; simpl; exact Hp ] ]) ].
Qed.

Lemma refit_held fuel s s' :
  has (layers s) "cooks" = true ->
  refit inference lib fuel s = Some (Ok s') -> held s s'.
Proof.
  unfold refit. intros Hc H.
  step H s1 Hs1. step H replaced Hrep. apply lift_ok in Hrep.
  apply _replace_outliers_held in Hs1; [|done].
  eapply held_trans; [exact Hs1|].
  destruct (0 <? Np.count_true replaced)%nat.
  - eapply _refit_without_outliers_held; [|exact H]. by eapply has_get_mask.
  - injection H as <-. apply held_set_varm.
Qed.

(** What a run of [deseq2] that returns has done to the inputs. *)
Lemma deseq2_inputs fuel ft s s' :
  deseq2 inference lib fuel ft s = Some (Ok s') ->
  heap s `prefix_of` heap s' /\ cfg s' = cfg s /\
  obsm s' !! "design_matrix" = obsm s !! "design_matrix" /\
  (exists dm, get_mat (obsm s) "design_matrix" = Ok dm) /\
  exists l, data s !! "counts" = Some (DataFrame l) /\
            data s' = <["counts" := NdArray l]> (data s).
Proof.
  unfold deseq2. intros H.
  step H s1 H1. apply lift_ok in H1. step H s2 H2. apply lift_ok in H2.
  step H s3 H3. step H s4 H4. step H s5 H5. step H s6 H6. step H s7 H7.
  assert (held s s6) as (Hf & Ho).
  { eapply held_trans; [|eapply fit_LFC_held; exact H6].
    eapply held_trans; [|eapply fit_MAP_dispersions_held; exact H5].
    eapply held_trans; [|eapply fit_dispersion_prior_held; exact H4].
    eapply held_trans; [|eapply fit_dispersion_trend_held; exact H3].
    eapply held_trans; [|eapply fit_genewise_dispersions_held; exact H2].
    eapply held_trans; [|eapply fit_size_factors_held; exact H1].
    destruct ft; [apply held_set_fit_type | apply held_refl]. }
  assert (is_Some (layers s7 !! "cooks") /\
          exists dm, get_mat (obsm s7) "design_matrix" = Ok dm) as [Hcooks [dm Hdm]].
  { clear H. unfold calculate_cooks in H7. step H7 t Ht. apply lift_ok in H7.
    clear Ht. run_inv. subst. simpl. split; [by rewrite lookup_insert_eq | eauto]. }
  apply calculate_cooks_data in H7 as (l & t & (Ht & Hto) & Hl & Hh7 & Hc7 & Ho7 & Hd7).
  assert (held s7 s') as ((Hh' & Hc' & Hd') & Ho').
  { destruct (refit_cooks (cfg s7)).
    - eapply refit_held; [|exact H]. by apply has_lookup.
    - injection H as <-. apply held_refl. }
  destruct Hf as (Hh & Hc & Hd). destruct Ht as (Hht & Hct & Hdt).
  split; [etrans; [exact Hh|]; etrans; [exact Hht|]; by rewrite <- Hh7|].
  split; [congruence|]. split; [congruence|].
  split.
  - exists dm. erewrite get_mat_ext; [exact Hdm|]. rewrite Ho7. congruence.
  - exists l. rewrite <- Hd. split; [done|]. by rewrite Hd', Hd7, Hdt.
Qed.

(** X6. A run of [deseq2] that returns leaves the inputs of the object as
    they were: the configuration and the design matrix are the same, the
    frame [self.data["cnv"]] is the same object, and the counts and the copy
    numbers read through [self.data] have the same values. The counts, a
    frame before the run, are bound to the array under that frame after
    it. *)
Theorem deseq2_leaves_inputs fuel ft s s' :
  deseq2 inference lib fuel ft s = Some (Ok s') ->
  cfg s' = cfg s /\
  obsm s' !! "design_matrix" = obsm s !! "design_matrix" /\
  data s' !! "cnv" = data s !! "cnv" /\
  (exists l, data s !! "counts" = Some (DataFrame l) /\
             data s' !! "counts" = Some (NdArray l)) /\
  forall k m, data_values s k = Ok m -> data_values s' k = Ok m.
Proof.
  intros H. apply deseq2_inputs in H as (Hp & Hc & Ho & _ & l & Hl & Hd).
  split; [done|]. split; [done|].
  split; [by rewrite Hd, lookup_insert_ne|].
  split; [exists l; by rewrite Hd, lookup_insert_eq|].
  intros k m. unfold data_values, data_ref. rewrite Hd.
  destruct (decide (k = "counts")) as [->|Hk].
  - rewrite lookup_insert_eq, Hl. simpl.
    intros Hm. unfold deref in *. simpl in *.
    destruct (heap s !! l) as [a|] eqn:E; [|discriminate].
    by rewrite (prefix_lookup_Some _ _ _ _ E Hp).
  - rewrite lookup_insert_ne by done.
    destruct (data s !! k) as [r|]; [|done]. simpl.
    intros Hm. unfold deref in *.
    destruct (heap s !! buffer r) as [a|] eqn:E; [|discriminate].
    by rewrite (prefix_lookup_Some _ _ _ _ E Hp).
Qed.

(** The genewise fit reads the counts with [to_numpy]: it returns only on an
    object whose counts are a frame. *)
Lemma fit_genewise_dispersions_counts vst s s' :
  fit_genewise_dispersions inference lib vst s = Ok s' ->
  exists l, data s !! "counts" = Some (DataFrame l).
Proof.
  unfold fit_genewise_dispersions. intros H.
  step H s0 H0.
  assert (data s0 = data s) as <-.
  { destruct (has (obsm s) "size_factors"); [by injection H0 as <-|].
    by destruct (fit_size_factors_unchanged _ _ _ H0) as (_ & _ & ?). }
  clear H0.
  step H r Hr. step H a Ha. step H c Hc. step H idx Hidx. step H s1 H1.
  destruct (_fit_MoM_dispersions_unchanged _ _ _ _ H1) as (_ & _ & Hd1). simpl in Hd1.
  step H dm Hdm. step H counts Hcounts.
  unfold counts_to_numpy, data_ref in Hcounts. rewrite Hd1 in Hcounts.
  destruct (data s0 !! "counts") as [[l|l]|]; [eauto | discriminate | discriminate].
Qed.

(** X7. A run of [deseq2] that returns leaves the counts bound to an array
    ([calculate_cooks] assigns [self.data["counts"].to_numpy()] to
    [self.data["counts"]]), and the methods that call [to_numpy] on the counts
    then fail: on the object it leaves, [fit_LFC] raises an
    [AttributeError], and a second run of [deseq2] does not return. *)
Theorem deseq2_not_twice fuel ft s s' :
  deseq2 inference lib fuel ft s = Some (Ok s') ->
  (forall fuel', fit_LFC inference lib fuel' s' = Some (Raise (AttributeError "to_numpy"))) /\
  (forall fuel' ft' s'', deseq2 inference lib fuel' ft' s' <> Some (Ok s'')).
Proof.
  intros H. destruct (deseq2_sets _ _ _ _ _ _ H) as (_ & Hdisp & _).
  apply deseq2_inputs in H as (_ & _ & Ho & (dm & Hdm) & l & _ & Hd).
  split.
  - intros fuel'. unfold fit_LFC.
    apply has_lookup in Hdisp. rewrite Hdisp.
    rewrite <- (get_mat_ext _ _ _ Ho) in Hdm.
    unfold counts_to_numpy, data_ref. cbn -[get_mat]. rewrite Hdm.
    cbn. by rewrite Hd, lookup_insert_eq.
  - intros fuel' ft' s'' H. unfold deseq2 in H.
    step H s1 H1. apply lift_ok in H1. step H s2 H2. apply lift_ok in H2.
    apply fit_genewise_dispersions_counts in H2 as [l' Hl'].
    destruct (fit_size_factors_unchanged _ _ _ H1) as (_ & _ & Hd1).
    rewrite Hd1 in Hl'. destruct ft'; simpl in Hl'.
    all: by rewrite Hd, lookup_insert_eq in Hl'.
Qed.

End whole_run.

(** ** The class: the refit of the outliers *)

Section refit_facts.

Import Dds.
Context (inference : Inference) (lib : Lib).

Ltac step H x Hx :=
  first [ apply run_bind_ok in H as (x & Hx & H)
        | apply result_bind_ok in H as (x & Hx & H) ].

Lemma count_true_full_false n : Np.count_true (Np.full n false) = 0%nat.
Proof. unfold Np.count_true, Np.full. induction n as [|n IH]; [done | exact IH]. Qed.

Lemma _replace_outliers_uns fuel s s' :
  has (layers s) "cooks" = true ->
  _replace_outliers inference lib fuel s = Some (Ok s') -> uns s' = uns s.
Proof. unfold _replace_outliers. intros -> H. run_inv; by subst. Qed.

(** [disp_function] returns only for the parametric trend. *)
Lemma disp_function_parametric x s r :
  disp_function lib x s = Ok r ->
  exists t, uns s !! "disp_function_type" = Some (VStr t) /\ String.eqb t "parametric" = true.
Proof.
  unfold disp_function, get_str, get. intros H.
  destruct (uns s !! "disp_function_type") as [[]|]; try discriminate.
  simpl in H. eexists. split; [done|].
  by destruct (String.eqb _ "parametric").
Qed.

(** The part of [_refit_without_outliers] up to the test of
    [self.varm["refitted"].sum() == 0]. *)
Lemma _refit_without_outliers_type fuel s s' t :
  has (varm s) "replaced" = true ->
  uns s !! "disp_function_type" = Some t -> is_str t "parametric" = false ->
  _refit_without_outliers inference lib fuel s = Some (Ok s') ->
  uns s' = uns s /\
  exists r, varm s' !! "refitted" = Some (VMask r) /\ Np.count_true r = 0%nat.
Proof.
  unfold _refit_without_outliers. intros -> Ht Hnp H.
  destruct (negb (refit_cooks (cfg s))); [discriminate|].
  step H s1 Hs1. injection Hs1 as <-.
  step H fr Hfr. destruct fr as [columns counts_to_refit].
  step H naz Hnaz. step H replaced Hrep. step H refitted Href.
  step H s2 Hs2. apply lift_ok in Hs2.
  assert (uns s2 = uns s /\ varm s2 !! "refitted" = Some (VMask refitted)) as [Hu2 Hv2].
  { clear H. run_inv; subst; simpl; (split; [done|]).
    - rewrite !lookup_insert_ne by done. by rewrite lookup_insert_eq.
    - by rewrite lookup_insert_eq. }
  clear Hs2.
  destruct (Np.count_true refitted =? 0)%nat eqn:Hz.
  { injection H as <-. split; [done|]. exists refitted. split; [done|].
    by apply Nat.eqb_eq. }
  exfalso.
  step H ctr Hctr. step H cols Hcols. step H cnv Hcnv.
  unfold alloc in H.
  step H sub0 Hsub0. step H size_factors Hsf. step H sub2 Hsub2. step H sub3 Hsub3.
  step H sub4 Hsub4. clear H. apply lift_ok in Hsub4.
  step Hsub4 t' Ht'. simpl in Ht'. unfold get in Ht'. rewrite Hu2, Ht in Ht'.
  injection Ht' as <-. rewrite Hnp in Hsub4.
  step Hsub4 sub3' Hsub3'. step Hsub4 nc Hnc. step Hsub4 fitted Hfitted.
  apply disp_function_parametric in Hfitted as (t' & Ht' & Hp).
  assert (uns sub3' !! "disp_function_type" = Some t) as Hty.
  { destruct (is_str t "mean"); run_inv; subst; simpl.
    - rewrite lookup_insert_ne by done. by rewrite lookup_insert_eq.
    - by rewrite lookup_insert_eq. }
  simpl in Ht'. rewrite Hty in Ht'. injection Ht' as ->. simpl in Hnp. congruence.
Qed.

Lemma _refit_without_outliers_uns fuel s s' :
  has (varm s) "replaced" = true ->
  _refit_without_outliers inference lib fuel s = Some (Ok s') -> uns s' = uns s.
Proof.
  unfold _refit_without_outliers. intros -> H.
  destruct (negb (refit_cooks (cfg s))); [discriminate|].
  step H s1 Hs1. injection Hs1 as <-.
  step H fr Hfr. destruct fr as [columns counts_to_refit].
  step H naz Hnaz. step H replaced Hrep. step H refitted Href.
  step H s2 Hs2. apply lift_ok in Hs2.
  assert (uns s2 = uns s) as Hu2 by (clear H; run_inv; by subst).
  clear Hs2.
  destruct (Np.count_true refitted =? 0)%nat; [by injection H as <-|].
  step H ctr Hctr. step H cols Hcols. step H cnv Hcnv.
  unfold alloc in H.
  step H sub0 Hsub0. step H size_factors Hsf. step H sub2 Hsub2. step H sub3 Hsub3.
  step H sub4 Hsub4. step H sub5 Hsub5. step H sub6 Hsub6.
  clear Hsub0 Hsub2 Hsub3 Hsub4 Hsub5 Hsub6.
  apply lift_ok in H. run_inv; by subst.
Qed.

(** X8. A run of [deseq2] with [refit_cooks] that returns with the mean trend
    in place (asked for, or taken when the parametric fit did not converge)
    has refitted no gene: with that trend [_refit_without_outliers] calls
    [disp_function] on the object of the genes to refit, which reads the
    attribute [disp_function_type] that is never set, so that a run with a
    gene to refit does not return. *)
Theorem mean_trend_refits_nothing fuel ft s s' :
  deseq2 inference lib fuel ft s = Some (Ok s') ->
  refit_cooks (cfg s) = true ->
  uns s' !! "disp_function_type" = Some (VStr "mean") ->
  exists r, varm s' !! "refitted" = Some (VMask r) /\ Np.count_true r = 0%nat.
Proof.
  intros H Hrc Hty.
  pose proof (deseq2_inputs _ _ _ _ _ _ H) as (_ & Hc & _).
  unfold deseq2 in H.
  step H s1 H1. step H s2 H2. step H s3 H3. step H s4 H4. step H s5 H5.
  step H s6 H6. step H s7 H7. clear H1 H2 H3 H4 H5 H6.
  assert (has (layers s7) "cooks" = true) as Hcooks.
  { clear H. unfold calculate_cooks in H7. step H7 t Ht. apply lift_ok in H7.
    clear Ht. run_inv. subst. apply has_lookup. simpl. by rewrite lookup_insert_eq. }
  assert (cfg s7 = cfg s') as Hc7.
  { destruct (refit_cooks (cfg s7)).
    - by destruct (refit_held _ _ _ _ _ Hcooks H) as ((_ & ? & _) & _).
    - by injection H as <-. }
  rewrite Hc7, Hc, Hrc in H. clear H7.
  unfold refit in H. step H s8 H8. step H replaced Hrep. apply lift_ok in Hrep.
  pose proof (_replace_outliers_uns _ _ _ Hcooks H8) as Hu8.
  destruct (0 <? Np.count_true replaced)%nat.
  - pose proof (has_get_mask _ _ _ Hrep) as Hhas.
    pose proof (_refit_without_outliers_uns _ _ _ Hhas H) as Hu.
    rewrite Hu in Hty.
    by destruct (_refit_without_outliers_type _ _ _ _ Hhas Hty eq_refl H) as [_ ?].
  - injection H as <-. eexists. split; [simpl; by rewrite lookup_insert_eq|].
    apply count_true_full_false.
Qed.

(** X9. When no sample is in a cohort of [min_replicates] or more samples,
    [refit] on an object with Cook's distances returns, whatever the
    distances are: it stores the empty mask of replaceable samples and marks
    every gene as neither replaced nor refitted; the dispersions, the
    log-fold changes and all other entries stay as they were. *)
Theorem refit_without_replaceable fuel s design_matrix :
  has (layers s) "cooks" = true ->
  get_mat (obsm s) "design_matrix" = Ok design_matrix ->
  Np.count_true (n_or_more_replicates lib design_matrix (min_replicates (cfg s))) = 0%nat ->
  refit inference lib fuel s =
  Some (Ok (set_varm "refitted" (VMask (Np.full (n_vars (cfg s)) false))
              (set_varm "replaced" (VMask (Np.full (n_vars (cfg s)) false))
                 (set_obsm "replaceable"
                    (VMask (n_or_more_replicates lib design_matrix (min_replicates (cfg s))))
                    s)))).
Proof.
  intros Hc Hdm Hz. unfold refit, _replace_outliers. rewrite Hc.
  cbn -[get_mat get_mask n_or_more_replicates Np.count_true Np.full]. rewrite Hdm.
  cbn -[get_mat get_mask n_or_more_replicates Np.count_true Np.full]. rewrite Hz.
  cbn -[get_mask n_or_more_replicates Np.count_true Np.full].
  unfold get_mask, get. cbn -[n_or_more_replicates Np.count_true Np.full].
  rewrite lookup_insert_eq. cbn -[n_or_more_replicates Np.count_true Np.full].
  by rewrite count_true_full_false.
Qed.

End refit_facts.

(** ** The class: one entry per gene *)

Section shapes.

Import Dds.
Context (inference : Inference) (lib : Lib).

Ltac step H x Hx :=
  first [ apply run_bind_ok in H as (x & Hx & H)
        | apply result_bind_ok in H as (x & Hx & H) ].

Lemma put_at_length {A} (idx : list nat) : forall (a v : list A),
  length (Np.put_at a idx v) = length a.
Proof.
  unfold Np.put_at.
  induction idx as [|i idx IH]; intros a [|y v]; simpl; try done.
  by rewrite IH, length_insert.
Qed.

Lemma foldl_alter_length {A} (f : A -> A) (idx : list nat) : forall a : list A,
  length (foldl (fun a i => alter f i a) a idx) = length a.
Proof.
  induction idx as [|i idx IH]; intros a; simpl; [done|].
  by rewrite IH, length_alter.
Qed.

Lemma put_cols_shape {A} (x : A) n m mask (v r : list (list A)) :
  Np.put_cols (Np.full2 n m x) mask v = Ok r ->
  length r = n /\ Forall (fun row => length row = m) r.
Proof.
  unfold Np.put_cols, Np.full2.
  destruct (Nat.eqb_spec (length (replicate n (replicate m x))) (length v)) as [E|];
    [|discriminate].
  intros H. split.
  - rewrite (mapR_length _ _ _ H), length_zip_with_l_eq by done.
    apply length_replicate.
  - eapply mapR_Forall; [exact H|]. intros [a b] y Hin Hy. simpl in Hy.
    apply put_mask_length in Hy as [_ ->].
    apply elem_of_zip_l in Hin. simpl in Hin.
    apply elem_of_replicate in Hin as [-> _]. apply length_replicate.
Qed.

(** The dispersions, the log-fold changes and the Cook's distances have an
    entry, a row, a column for each of the [n_vars] genes. *)
Definition dispersions_per_gene (s : deconveil_fit) : Prop :=
  exists d, varm s !! "dispersions" = Some (VVec d) /\ length d = n_vars (cfg s).

Definition LFC_per_gene (s : deconveil_fit) : Prop :=
  exists m, varm s !! "LFC" = Some (VMat m) /\ length m = n_vars (cfg s).

Definition cooks_per_gene (s : deconveil_fit) : Prop :=
  exists c, layers s !! "cooks" = Some (VMat c) /\ length c = n_obs (cfg s) /\
            Forall (fun row => length row = n_vars (cfg s)) c.

Lemma fit_MAP_dispersions_length fuel s s' :
  fit_MAP_dispersions inference lib fuel s = Some (Ok s') -> dispersions_per_gene s'.
Proof.
  unfold fit_MAP_dispersions. intros H.
  step H s0 Hs0. clear Hs0. apply lift_ok in H. run_inv. subst s'.
  eexists. split; [simpl; by rewrite lookup_insert_eq|]. simpl.
  repeat match goal with
  | Hp : Np.put_mask _ _ _ = Ok _ |- _ => apply put_mask_length in Hp as [_ ?]
  end.
  unfold Np.full in *. rewrite length_replicate in *. congruence.
Qed.

Lemma fit_LFC_length fuel s s' :
  has (varm s) "dispersions" = true ->
  fit_LFC inference lib fuel s = Some (Ok s') ->
  cfg s' = cfg s /\ varm s' !! "dispersions" = varm s !! "dispersions" /\ LFC_per_gene s'.
Proof.
  unfold fit_LFC. intros -> H.
  step H s0 Hs0. injection Hs0 as <-. apply lift_ok in H.
  step H dm Hdm. step H counts Hcounts. step H cnv Hcnv.
  step H p1 Hp1. destruct p1 as [r1 s1]. step H p2 Hp2. destruct p2 as [r2 s2].
  assert (cfg s2 = cfg s /\ varm s2 = varm s) as [Hc Hv].
  { clear H. unfold nd_arith in *. run_inv. by subst. }
  clear Hp1 Hp2.
  run_inv. subst s'. simpl. rewrite Hc, Hv.
  split; [done|]. split; [by rewrite !lookup_insert_ne by done|].
  eexists. simpl. split; [rewrite lookup_insert_ne by done; by rewrite lookup_insert_eq|].
  rewrite put_at_length. unfold Np.full2. by rewrite length_replicate, Hc.
Qed.

Lemma calculate_cooks_shape fuel s s' :
  has (varm s) "dispersions" = true ->
  calculate_cooks inference lib fuel s = Some (Ok s') ->
  cfg s' = cfg s /\ varm s' = varm s /\ cooks_per_gene s'.
Proof.
  unfold calculate_cooks. intros -> H.
  step H s0 Hs0. injection Hs0 as <-. apply lift_ok in H. run_inv. subst s'.
  split; [done|]. split; [done|].
  eexists. split; [simpl; by rewrite lookup_insert_eq|]. simpl.
  match goal with Hp : Np.put_cols _ _ _ = Ok _ |- _ => by apply put_cols_shape in Hp end.
Qed.

Lemma _replace_outliers_varm fuel s s' :
  has (layers s) "cooks" = true ->
  _replace_outliers inference lib fuel s = Some (Ok s') ->
  cfg s' = cfg s /\ layers s' = layers s /\
  forall k, k <> "replaced" -> varm s' !! k = varm s !! k.
Proof.
  unfold _replace_outliers. intros -> H. run_inv; subst; simpl.
  all: split; [done|]; split; [done|]; intros k Hk; by rewrite lookup_insert_ne.
Qed.

Lemma _refit_without_outliers_length fuel s s' :
  has (varm s) "replaced" = true ->
  _refit_without_outliers inference lib fuel s = Some (Ok s') ->
  dispersions_per_gene s -> LFC_per_gene s ->
  cfg s' = cfg s /\ layers s' !! "cooks" = layers s !! "cooks" /\
  dispersions_per_gene s' /\ LFC_per_gene s'.
Proof.
  unfold _refit_without_outliers. intros -> H (d & Hd & Hdl) (m & Hm & Hml).
  destruct (negb (refit_cooks (cfg s))); [discriminate|].
  step H s1 Hs1. injection Hs1 as <-.
  step H fr Hfr. destruct fr as [columns counts_to_refit].
  step H naz Hnaz. step H replaced Hrep. step H refitted Href.
  step H s2 Hs2. apply lift_ok in Hs2.
  assert (cfg s2 = cfg s /\ layers s2 = layers s /\
          dispersions_per_gene s2 /\ LFC_per_gene s2) as (Hc2 & Hl2 & Hd2 & Hm2).
  { clear H. run_inv; subst; (split; [done|]); (split; [done|]); split.
    - exists d. simpl. by rewrite !lookup_insert_ne by done.
    - eexists. simpl. split; [by rewrite lookup_insert_eq|].
      match goal with
      | Hg : get_mat _ "LFC" = Ok _ |- _ =>
          apply get_mat_lookup in Hg; simpl in Hg;
          rewrite !lookup_insert_ne in Hg by done; rewrite Hm in Hg; injection Hg as <-
      end.
      by rewrite foldl_alter_length.
    - exists d. simpl. by rewrite !lookup_insert_ne by done.
    - exists m. simpl. by rewrite !lookup_insert_ne by done. }
  clear Hs2.
  destruct (Np.count_true refitted =? 0)%nat; [injection H as <-; by rewrite Hl2|].
  step H ctr Hctr. step H cols Hcols. step H cnv Hcnv.
  unfold alloc in H.
  step H sub0 Hsub0. step H size_factors Hsf. step H sub2 Hsub2. step H sub3 Hsub3.
  step H sub4 Hsub4. step H sub5 Hsub5. step H sub6 Hsub6.
  clear Hsub0 Hsub2 Hsub3 Hsub4 Hsub5 Hsub6.
  destruct Hd2 as (d2 & Hd2 & Hdl2). destruct Hm2 as (m2 & Hm2 & Hml2).
  apply lift_ok in H. run_inv; subst; simpl in *.
  repeat match goal with
  | Hg : get_mat _ _ = Ok _ |- _ => apply get_mat_lookup in Hg; simpl in Hg
  | Hg : get_vec _ _ = Ok _ |- _ => apply get_vec_lookup in Hg; simpl in Hg
  end.
  repeat match goal with
  | Hg : <[_ := _]> _ !! _ = Some _ |- _ =>
      first [ rewrite lookup_insert_ne in Hg by done
            | rewrite lookup_insert_eq in Hg ]
  end.
  simplify_eq.
  repeat match goal with
  | Hp : Np.put_mask _ _ _ = Ok _ |- _ => apply put_mask_length in Hp as [_ ?]
  end.
  split; [done|]. split; [by rewrite lookup_insert_ne, Hl2|]. split.
  - eexists. simpl. split; [by rewrite lookup_insert_eq|]. congruence.
  - eexists. simpl.
    split; [rewrite !lookup_insert_ne by done; by rewrite lookup_insert_eq|].
    congruence.
Qed.

(** X10. When [deseq2] returns, the dispersions have one entry and the
    log-fold changes one row for each of the [n_vars] genes, genes without
    counts and refitted genes included, and the Cook's distances are a matrix
    of [n_obs] rows and [n_vars] columns. *)
Theorem deseq2_one_entry_per_gene fuel ft s s' :
  deseq2 inference lib fuel ft s = Some (Ok s') ->
  (exists d, get_vec (varm s') "dispersions" = Ok d /\ length d = n_vars (cfg s)) /\
  (exists lfc, get_mat (varm s') "LFC" = Ok lfc /\ length lfc = n_vars (cfg s)) /\
  (exists cooks, get_mat (layers s') "cooks" = Ok cooks /\ length cooks = n_obs (cfg s) /\
                 Forall (fun row => length row = n_vars (cfg s)) cooks).
Proof.
  intros H.
  pose proof (deseq2_inputs _ _ _ _ _ _ H) as (_ & Hc & _).
  unfold deseq2 in H.
  step H s1 H1. step H s2 H2. step H s3 H3. step H s4 H4. step H s5 H5.
  step H s6 H6. step H s7 H7. clear H1 H2 H3 H4.
  pose proof (fit_MAP_dispersions_length _ _ _ H5) as (d & Hd & Hdl). clear H5.
  assert (has (varm s5) "dispersions" = true) as Hh5 by (apply has_lookup; by rewrite Hd).
  destruct (fit_LFC_length _ _ _ Hh5 H6) as (Hc6 & Hd6 & Hm6). clear H6.
  assert (has (varm s6) "dispersions" = true) as Hh6
    by (apply has_lookup; by rewrite Hd6, Hd).
  destruct (calculate_cooks_shape _ _ _ Hh6 H7) as (Hc7 & Hv7 & (ck & Hck & Hckl & Hckr)).
  clear H7.
  assert (dispersions_per_gene s7) as Hd7.
  { exists d. rewrite Hv7, Hd6, Hc7, Hc6. done. }
  assert (LFC_per_gene s7) as Hm7.
  { destruct Hm6 as (m & Hm & Hml). exists m. by rewrite Hv7, Hc7. }
  assert (has (layers s7) "cooks" = true) as Hcooks by (apply has_lookup; by rewrite Hck).
  assert (cfg s' = cfg s7 /\ layers s' !! "cooks" = layers s7 !! "cooks" /\
          dispersions_per_gene s' /\ LFC_per_gene s') as (Hc' & Hck' & Hd' & Hm').
  { destruct (refit_cooks (cfg s7)); [|by injection H as <-].
    unfold refit in H. step H s8 H8. step H replaced Hrep. apply lift_ok in Hrep.
    destruct (_replace_outliers_varm _ _ _ Hcooks H8) as (Hc8 & Hl8 & Hv8).
    assert (dispersions_per_gene s8) as Hd8.
    { destruct Hd7 as (x & Hx & Hxl). exists x. by rewrite Hv8, Hc8. }
    assert (LFC_per_gene s8) as Hm8.
    { destruct Hm7 as (x & Hx & Hxl). exists x. by rewrite Hv8, Hc8. }
    destruct (0 <? Np.count_true replaced)%nat.
    - pose proof (has_get_mask _ _ _ Hrep) as Hhas.
      destruct (_refit_without_outliers_length _ _ _ Hhas H Hd8 Hm8) as (? & ? & ? & ?).
      split; [congruence|]. split; [congruence|]. done.
    - injection H as <-. split; [done|]. split; [by rewrite <- Hl8|]. split.
      + destruct Hd8 as (x & Hx & Hxl). exists x. simpl. by rewrite lookup_insert_ne.
      + destruct Hm8 as (x & Hx & Hxl). exists x. simpl. by rewrite lookup_insert_ne. }
  rewrite <- Hc. split; [|split].
  - destruct Hd' as (x & Hx & Hxl). exists x. split; [|done].
    unfold get_vec, get. by rewrite Hx.
  - destruct Hm' as (x & Hx & Hxl). exists x. split; [|done].
    unfold get_mat, get. by rewrite Hx.
  - exists ck. rewrite Hc'. split; [|done].
    unfold get_mat, get. by rewrite Hck', Hck.
Qed.

End shapes.

(** ** The class: the variance stabilising transformation *)

Section vst_facts.

Import Dds.
Context (inference : Inference) (lib : Lib).
Context (np_log2 np_arcsinh : float -> float).

Lemma vst_bind_returns {A B} (m : vst_run A) (k : A -> vst_run B) b :
  m ≫= k = Some (Returns b) -> exists a, m = Some (Returns a) /\ k a = Some (Returns b).
Proof. destruct m as [[a|e]|]; [eauto | discriminate | discriminate]. Qed.

Lemma of_run_returns {A} (r : run A) a : of_run r = Some (Returns a) -> r = Some (Ok a).
Proof. destruct r as [[x|e]|]; [by intros [= ->] | discriminate | discriminate]. Qed.

(** A call of the transformation that returns. *)
Definition returns {A} (r : vst_run A) : bool :=
  match r with Some (Returns _) => true | _ => false end.

Lemma returns_inv {A} (r : vst_run A) : returns r = true -> exists a, r = Some (Returns a).
Proof. destruct r as [[a|e]|]; [eauto | discriminate | discriminate]. Qed.

Lemma vst_without_design fuel fit_type' o :
  exists e, vst inference lib np_log2 np_arcsinh fuel false fit_type' o
            = Some (Raises (Exn e)).
Proof.
  unfold vst, vst_fit. simpl.
  match goal with
  | |- context [of_run ?r] => destruct r as [[s|e]|] eqn:E
  end; simpl.
  - destruct (get (obsm s) "design_matrix"); simpl; eauto.
  - eauto.
  - exfalso. destruct (_ || _); discriminate.
Qed.

(** X11. [vst] with [use_design=False], its default, does not return: when
    the size factors are there, or have been fitted, [vst_fit] reads the
    attribute [obs_names], which the class never sets, and the call ends in
    an exception that is not the [RuntimeError] of the transformation. *)
Theorem vst_without_design_raises fuel fit_type' o :
  exists e, vst inference lib np_log2 np_arcsinh fuel false fit_type' o
            = Some (Raises (Exn e)).
Proof. apply vst_without_design. Qed.

(** X12. On an object without an entry [vst_genewise_dispersions], which no
    method of the class writes, [vst] returns only when it is called with
    [use_design=True] and the fit type is parametric: the coefficients of
    the trend are then in [uns["vst_trend_coeffs"]] and [vst_counts] is the
    closed form of the normalised counts. In particular the call does not
    return with the mean fit type, whose branch reads that entry. *)
Theorem vst_returns_parametric fuel use_design fit_type' o o' :
  varm (obj o) !! "vst_genewise_dispersions" = None ->
  vst inference lib np_log2 np_arcsinh fuel use_design fit_type' o = Some (Returns o') ->
  use_design = true /\ vst_fit_type o' = Some Parametric /\
  exists a0 a1 normed_counts,
    uns (obj o') !! "vst_trend_coeffs" = Some (VCoeffs (a0, a1)) /\
    layers (obj o') !! "normed_counts" = Some (VMat normed_counts) /\
    layers (obj o') !! "vst_counts"
    = Some (VMat (map (map (vst_parametric np_log2 a0 a1)) normed_counts)).
Proof.
  intros Hno H.
  destruct use_design.
  2: { destruct (vst_without_design fuel fit_type' o) as [e He].
       rewrite He in H. discriminate. }
  split; [done|].
  unfold vst in H. apply vst_bind_returns in H as (o1 & Hfit & H).
  apply vst_bind_returns in H as (v & Hv & H). injection H as <-. injection Hv as Hv.
  unfold vst_fit in Hfit. simpl in Hfit.
  apply vst_bind_returns in Hfit as (s1 & Hs1 & Hfit). apply of_run_returns in Hs1.
  apply vst_bind_returns in Hfit as (s2 & Hs2 & Hfit). apply of_run_returns in Hs2.
  injection Hfit as <-.
  assert (varm s1 !! "vst_genewise_dispersions" = None) as Hno1.
  { destruct (_ || _).
    - apply lift_ok, fit_size_factors_mods in Hs1 as (_ & _ & Hv1 & _).
      by rewrite Hv1.
    - by injection Hs1 as <-. }
  set (t := match fit_type' with Some t => t | None => fit_type (obj o) end) in *.
  assert (varm s2 !! "vst_genewise_dispersions" = None) as Hno2.
  { destruct t.
    - apply _fit_parametric_dispersion_trend_mods in Hs2 as (_ & _ & Hv2 & _).
      by rewrite Hv2.
    - apply lift_ok, fit_genewise_dispersions_mods in Hs2 as (_ & _ & Hv2 & _).
      by rewrite Hv2.
    - apply lift_ok, fit_genewise_dispersions_mods in Hs2 as (_ & _ & Hv2 & _).
      by rewrite Hv2. }
  unfold vst_transform in Hv. simpl in Hv.
  destruct (negb (has (obsm s2) "size_factors")); [discriminate|].
  destruct (get_mat (layers s2) "normed_counts") as [nc|] eqn:Hnc; [|discriminate].
  destruct t; [| |discriminate].
  - destruct (negb (has (uns s2) "vst_trend_coeffs")); [discriminate|].
    destruct (get_coeffs (uns s2) "vst_trend_coeffs") as [[a0 a1]|] eqn:Hco; [|discriminate].
    injection Hv as <-. split; [done|]. exists a0, a1, nc. simpl.
    split; [|split].
    + unfold get_coeffs, get in Hco.
      destruct (uns s2 !! "vst_trend_coeffs") as [[]|]; try discriminate.
      by injection Hco as ->.
    + rewrite lookup_insert_ne by done. by apply get_mat_lookup.
    + by rewrite lookup_insert_eq.
  - unfold get_vec, get in Hv. rewrite Hno2 in Hv. discriminate.
Qed.

(** X13. A call of [vst] that returns leaves the inputs and the results of
    the analysis in place: the store, the configuration, the frames of
    [self.data] and the design matrix are the same, and so are the final and
    the MAP dispersions, the log-fold changes, the outlier masks and the
    Cook's distances. *)
Theorem vst_leaves_results fuel use_design fit_type' o o' :
  vst inference lib np_log2 np_arcsinh fuel use_design fit_type' o = Some (Returns o') ->
  heap (obj o') = heap (obj o) /\ cfg (obj o') = cfg (obj o) /\
  data (obj o') = data (obj o) /\
  obsm (obj o') !! "design_matrix" = obsm (obj o) !! "design_matrix" /\
  layers (obj o') !! "cooks" = layers (obj o) !! "cooks" /\
  forall k, k ∈ ["dispersions"; "MAP_dispersions"; "LFC"; "replaced"; "refitted"] ->
            varm (obj o') !! k = varm (obj o) !! k.
Proof.
  intros H.
  destruct use_design.
  2: { destruct (vst_without_design fuel fit_type' o) as [e He].
       rewrite He in H. discriminate. }
  unfold vst in H. apply vst_bind_returns in H as (o1 & Hfit & H).
  apply vst_bind_returns in H as (v & Hv & H). injection H as <-. clear Hv.
  unfold vst_fit in Hfit. simpl in Hfit.
  apply vst_bind_returns in Hfit as (s1 & Hs1 & Hfit). apply of_run_returns in Hs1.
  apply vst_bind_returns in Hfit as (s2 & Hs2 & Hfit). apply of_run_returns in Hs2.
  injection Hfit as <-. simpl.
  assert (unchanged (obj o) s1 /\ mods W_trend (obj o) s1) as [U1 M1].
  { destruct (_ || _).
    - apply lift_ok in Hs1. split; [by eapply fit_size_factors_unchanged|].
      eapply mods_mono; [|by eapply fit_size_factors_mods]. reflexivity.
    - injection Hs1 as <-. split; [by repeat split | apply mods_refl]. }
  assert (unchanged s1 s2 /\ mods W_trend s1 s2) as [U2 M2].
  { destruct (match fit_type' with Some t => t | None => fit_type (obj o) end).
    - split; [by eapply _fit_parametric_dispersion_trend_unchanged|].
      by eapply _fit_parametric_dispersion_trend_mods.
    - apply lift_ok in Hs2. split; [by eapply fit_genewise_dispersions_unchanged|].
      eapply mods_mono; [|by eapply fit_genewise_dispersions_mods]. reflexivity.
    - apply lift_ok in Hs2. split; [by eapply fit_genewise_dispersions_unchanged|].
      eapply mods_mono; [|by eapply fit_genewise_dispersions_mods]. reflexivity. }
  destruct U1 as (Hh1 & Hc1 & Hd1). destruct U2 as (Hh2 & Hc2 & Hd2).
  destruct (mods_trans _ _ _ _ M1 M2) as (Ho & Hl & Hvm & _).
  split; [congruence|]. split; [congruence|]. split; [congruence|].
  split; [by apply Ho|].
  split; [rewrite lookup_insert_ne by done; by apply Hl|].
  intros k Hk. apply Hvm.
  rewrite !elem_of_cons, elem_of_nil in Hk.
  destruct Hk as [->|[->|[->|[->|[->|[]]]]]]; reflexivity.
Qed.

End vst_facts.

(** ** The moments estimate of the dispersions *)

Section moments_facts.

Import Utils.
Context (num : Numeric) (mean_axis0 var_axis0 : matrix -> vec).

Lemma compress_cols_rows {A} (mask : list bool) (m : list (list A)) :
  Forall (fun row => length row = length mask) m ->
  exists r, Np.compress_cols mask m = Ok r.
Proof.
  unfold Np.compress_cols. induction m as [|row m IH]; intros Hm; simpl; [eauto|].
  apply Forall_cons in Hm as [Hrow Hm]. destruct (IH Hm) as [r ->].
  unfold Np.compress at 1. rewrite Hrow, Nat.eqb_refl. simpl. eauto.
Qed.

Lemma broadcast_mismatch {A B C} (f : A -> B -> C) (xs : list A) (ys : list B) :
  length xs <> length ys -> length xs <> 1%nat -> length ys <> 1%nat ->
  Np.broadcast f xs ys = Raise (ValueError "operands could not be broadcast together").
Proof.
  intros H H1 H2. unfold Np.broadcast.
  destruct (Nat.eqb_spec (length xs) (length ys)); [done|].
  destruct xs as [|x [|x' xs]]; destruct ys as [|y [|y' ys]]; simpl in *; done.
Qed.

(** X14. With a copy number of two dimensions, a row per sample and a column
    per gene, [fit_moments_dispersions] divides each row, gene by gene, by
    the vector of the size factors, which has an entry per sample: when the
    number of genes differs from the number of samples, and neither is one,
    the call ends in numpy's broadcasting error. *)
Theorem fit_moments_dispersions_broadcast normed_counts size_factors row cnv :
  Forall (fun r => length r = Np.ncols normed_counts) normed_counts ->
  length row <> length size_factors -> length row <> 1%nat ->
  length size_factors <> 1%nat ->
  fit_moments_dispersions num mean_axis0 var_axis0 normed_counts size_factors
    (Cnv2 (row :: cnv))
  = Raise (ValueError "operands could not be broadcast together").
Proof.
  intros Hnc H H1 H2. unfold fit_moments_dispersions.
  destruct (compress_cols_rows
              (map negb (Np.all_axis0 (Np.ncols normed_counts)
                           (map (map (fun x => x =? 0)) normed_counts)))
              normed_counts) as [r Hr].
  { eapply Forall_impl; [exact Hnc|]. intros x Hx. simpl in Hx.
    rewrite length_map. unfold Np.all_axis0.
    by rewrite length_map, transpose_length. }
  rewrite Hr. simpl.
  rewrite broadcast_mismatch; [done | by rewrite length_map..| done].
Qed.

(** X15. What [fit_moments_dispersions] returns has no NaN and no infinity
    among its entries: the quotient of a gene with a zero mean, or of an
    overflow, is replaced by [np.nan_to_num]. *)
Theorem fit_moments_dispersions_finite normed_counts size_factors cnv r :
  fit_moments_dispersions num mean_axis0 var_axis0 normed_counts size_factors cnv = Ok r ->
  Forall (fun x => PrimFloat.is_nan x = false /\ Np.isinf x = false) r.
Proof.
  unfold fit_moments_dispersions. intros H.
  apply result_bind_ok in H as (nc & _ & H). apply result_bind_ok in H as (q & _ & H).
  apply result_bind_ok in H as (v & _ & H). injection H as <-.
  apply Forall_forall. intros x Hx. apply list_elem_of_fmap in Hx as (y & -> & _).
  unfold nan_to_num, Np.isinf.
  destruct (PrimFloat.is_nan y) eqn:Hn; [by vm_compute|].
  destruct (y =? infinity) eqn:Hp; [by vm_compute|].
  destruct (y =? neg_infinity) eqn:Hm; [by vm_compute|].
  by rewrite Hn, Hp, Hm.
Qed.

End moments_facts.

(** ** The class: the fit type, and what the Cook's distances need *)

Section more_facts.

Import Dds.
Context (inference : Inference) (lib : Lib).

Ltac step H x Hx :=
  first [ apply run_bind_ok in H as (x & Hx & H)
        | apply result_bind_ok in H as (x & Hx & H) ].

Lemma fit_size_factors_fit_type s s' :
  fit_size_factors lib s = Ok s' -> fit_type s' = fit_type s.
Proof.
  unfold fit_size_factors, _fit_iterate_size_factors. intros H. run_inv; by subst.
Qed.

Lemma fit_genewise_dispersions_fit_type vst s s' :
  fit_genewise_dispersions inference lib vst s = Ok s' ->
  fit_type s' = fit_type s /\ has (varm s') "genewise_dispersions" = true.
Proof.
  unfold fit_genewise_dispersions. intros H.
  step H s0 H0.
  assert (fit_type s0 = fit_type s) as <-.
  { destruct (has (obsm s) "size_factors"); [by injection H0 as <-|].
    by eapply fit_size_factors_fit_type. }
  clear H0.
  step H r Hr. step H a Ha. step H c Hc. step H idx Hidx. step H s1 H1.
  assert (fit_type s1 = fit_type s0) as <-.
  { clear H. unfold _fit_MoM_dispersions in H1. step H1 s2 H2.
    assert (fit_type s2 = fit_type s0) as <-.
    { destruct (has _ "normed_counts"); [by injection H2 as <-|].
      by apply fit_size_factors_fit_type in H2. }
    clear H2. run_inv. by subst. }
  clear H1. run_inv; subst; simpl.
  all: split; [done|]; apply has_lookup; simpl.
  all: rewrite lookup_insert_ne by done; by rewrite lookup_insert_eq.
Qed.

(** X17. A fit type other than ["parametric"] and ["mean"] is refused by
    [fit_dispersion_trend] only: [deseq2] called with such a type fits the
    size factors and the gene-wise dispersions, and when these two steps have
    passed it ends in a [NotImplementedError]. *)
Theorem deseq2_unknown_fit_type fuel name s s1 s2 :
  fit_size_factors lib (set_fit_type (OtherFit name) s) = Ok s1 ->
  fit_genewise_dispersions inference lib false s1 = Ok s2 ->
  deseq2 inference lib fuel (Some (OtherFit name)) s = Some (Raise NotImplementedError).
Proof.
  intros H1 H2. unfold deseq2. rewrite H1. simpl. rewrite H2. simpl.
  destruct (fit_genewise_dispersions_fit_type _ _ _ H2) as [Ht Hh].
  apply fit_size_factors_fit_type in H1. simpl in H1.
  unfold fit_dispersion_trend. rewrite Hh. simpl. by rewrite Ht, H1.
Qed.

(** X18. [calculate_cooks] fits the dispersions when they are missing, but
    not the log-fold changes: on an object whose [obsm] has no entry
    [_mu_LFC], which only [fit_LFC] writes, it does not return. *)
Theorem calculate_cooks_needs_LFC fuel s s' :
  obsm s !! "_mu_LFC" = None ->
  calculate_cooks inference lib fuel s <> Some (Ok s').
Proof.
  intros Hno H. unfold calculate_cooks in H.
  step H t Ht.
  assert (obsm t !! "_mu_LFC" = None) as Hno'.
  { destruct (has (varm s) "dispersions"); [by injection Ht as <-|].
    apply fit_MAP_dispersions_mods in Ht as (Ho & _). by rewrite Ho. }
  clear Ht. apply lift_ok in H. run_inv.
  match goal with
  | Hg : get_mat (obsm _) "_mu_LFC" = Ok _ |- _ =>
      apply get_mat_lookup in Hg; simpl in Hg; by rewrite Hno' in Hg
  end.
Qed.

End more_facts.

(** ** The class: which genes the refit touches *)

Section refit_masks.

Import Dds.
Context (inference : Inference) (lib : Lib).

Ltac step H x Hx :=
  first [ apply run_bind_ok in H as (x & Hx & H)
        | apply result_bind_ok in H as (x & Hx & H) ].

(** The three arrays of dispersions. *)
Definition dispersion_keys : list string :=
  ["genewise_dispersions"; "fitted_dispersions"; "dispersions"].

(** [s'] has the masks [replaced] and [refitted], the second within the
    first, and its dispersions are those of [s] outside of [refitted]. *)
Definition refit_within (s s' : deconveil_fit) : Prop :=
  exists replaced refitted,
    varm s' !! "replaced" = Some (VMask replaced) /\
    varm s' !! "refitted" = Some (VMask refitted) /\
    (forall g, refitted !! g = Some true -> replaced !! g = Some true) /\
    forall k x x', k ∈ dispersion_keys ->
      get_vec (varm s) k = Ok x -> get_vec (varm s') k = Ok x' ->
      forall g, refitted !! g <> Some true -> x' !! g = x !! g.

Lemma dispersion_keys_spec k :
  k ∈ dispersion_keys <->
  k = "genewise_dispersions" \/ k = "fitted_dispersions" \/ k = "dispersions".
Proof.
  unfold dispersion_keys. rewrite !elem_of_cons, elem_of_nil. tauto.
Qed.

Lemma full_false_lookup n g : Np.full n false !! g <> Some true.
Proof.
  unfold Np.full. intros H. apply lookup_replicate in H as [? _]. discriminate.
Qed.

Lemma _refit_without_outliers_within fuel s s' :
  has (varm s) "replaced" = true ->
  _refit_without_outliers inference lib fuel s = Some (Ok s') -> refit_within s s'.
Proof.
  unfold _refit_without_outliers. intros -> H.
  destruct (negb (refit_cooks (cfg s))); [discriminate|].
  step H s1 Hs1. injection Hs1 as <-.
  step H fr Hfr. destruct fr as [columns counts_to_refit].
  step H naz Hnaz. step H replaced Hrep. step H refitted Href.
  apply lift_ok in Hrep, Href. simpl in Hrep. apply get_mask_lookup in Hrep.
  assert (forall g, refitted !! g = Some true -> replaced !! g = Some true) as Hin.
  { intros g Hg. destruct (decide (replaced !! g = Some true)) as [|Hn]; [done|].
    by rewrite (put_mask_lookup_not_on _ _ _ _ g Href Hn) in Hg. }
  step H s2 Hs2. apply lift_ok in Hs2.
  assert (varm s2 !! "replaced" = Some (VMask replaced) /\
          varm s2 !! "refitted" = Some (VMask refitted) /\
          forall k, k ∈ dispersion_keys -> varm s2 !! k = varm s !! k) as (Hr2 & Hf2 & Hk2).
  { clear H. run_inv; subst; simpl.
    all: split; [rewrite !lookup_insert_ne by done; exact Hrep|].
    all: split; [rewrite ?lookup_insert_ne by done; by rewrite lookup_insert_eq|].
    all: intros k Hk; unfold dispersion_keys in Hk.
    all: repeat (apply elem_of_cons in Hk as [->|Hk];
                 [by rewrite !lookup_insert_ne by done|]).
    all: by apply elem_of_nil in Hk. }
  clear Hs2.
  destruct (Np.count_true refitted =? 0)%nat.
  { injection H as <-. exists replaced, refitted. repeat (split; [done|]).
    intros k x x' Hk Hx Hx' g _.
    rewrite (get_vec_ext _ _ _ (Hk2 k Hk)) in Hx'. congruence. }
  step H ctr Hctr. step H cols Hcols. step H cnv Hcnv.
  unfold alloc in H.
  step H sub0 Hsub0. step H size_factors Hsf. step H sub2 Hsub2. step H sub3 Hsub3.
  step H sub4 Hsub4. step H sub5 Hsub5. step H sub6 Hsub6.
  clear Hsub0 Hsub2 Hsub3 Hsub4 Hsub5 Hsub6.
  apply lift_ok in H.
  step H nm Hnm. step H snm Hsnm. step H v1 Hv1. step H lfc Hlfc. step H slfc Hslfc.
  step H v2 Hv2. step H gw Hgw. step H sgw Hsgw. step H v3 Hv3.
  step H fd Hfd. step H sfd Hsfd. step H v4 Hv4.
  step H dd Hdd. step H sdd Hsdd. step H v5 Hv5.
  step H cooks Hcooks. step H replaceable Hreplaceable.
  destruct (negb _); [discriminate|]. injection H as <-.
  apply get_vec_lookup in Hgw, Hfd, Hdd. simpl in Hgw, Hfd, Hdd.
  rewrite !lookup_insert_ne in Hgw by done.
  rewrite !lookup_insert_ne in Hfd by done.
  rewrite !lookup_insert_ne in Hdd by done.
  exists replaced, refitted. simpl.
  split; [by rewrite !lookup_insert_ne by done|].
  split; [by rewrite !lookup_insert_ne by done|].
  split; [done|].
  intros k x x' Hk Hx Hx' g Hg.
  apply get_vec_lookup in Hx, Hx'. simpl in Hx'.
  unfold dispersion_keys in Hk.
  apply elem_of_cons in Hk as [->|Hk];
    [|apply elem_of_cons in Hk as [->|Hk];
      [|apply elem_of_cons in Hk as [->|Hk]; [|by apply elem_of_nil in Hk]]].
  - rewrite !lookup_insert_ne in Hx' by done. rewrite lookup_insert_eq in Hx'.
    injection Hx' as <-.
    rewrite (put_mask_lookup_not_on _ _ _ _ g Hv3 Hg).
    rewrite (Hk2 "genewise_dispersions") in Hgw by (apply dispersion_keys_spec; auto).
    congruence.
  - rewrite !lookup_insert_ne in Hx' by done. rewrite lookup_insert_eq in Hx'.
    injection Hx' as <-.
    rewrite (put_mask_lookup_not_on _ _ _ _ g Hv4 Hg).
    rewrite (Hk2 "fitted_dispersions") in Hfd by (apply dispersion_keys_spec; auto).
    congruence.
  - rewrite lookup_insert_eq in Hx'. injection Hx' as <-.
    rewrite (put_mask_lookup_not_on _ _ _ _ g Hv5 Hg).
    rewrite (Hk2 "dispersions") in Hdd by (apply dispersion_keys_spec; auto).
    congruence.
Qed.

(** X19. When [refit] returns on an object with Cook's distances, every
    refitted gene is a replaced gene, and the gene-wise, fitted and final
    dispersions of the genes that are not refitted are those from before the
    call. *)
Theorem refit_only_refitted_genes fuel s s' :
  has (layers s) "cooks" = true ->
  refit inference lib fuel s = Some (Ok s') ->
  exists replaced refitted,
    varm s' !! "replaced" = Some (VMask replaced) /\
    varm s' !! "refitted" = Some (VMask refitted) /\
    (forall g, refitted !! g = Some true -> replaced !! g = Some true) /\
    forall k x x', k ∈ dispersion_keys ->
      get_vec (varm s) k = Ok x -> get_vec (varm s') k = Ok x' ->
      forall g, refitted !! g <> Some true -> x' !! g = x !! g.
Proof.
  intros Hc H. unfold refit in H.
  step H s1 H1. step H replaced Hrep. apply lift_ok in Hrep.
  destruct (_replace_outliers_varm _ _ _ _ _ Hc H1) as (_ & _ & Hv1).
  assert (forall k x, k ∈ dispersion_keys ->
            get_vec (varm s) k = Ok x -> get_vec (varm s1) k = Ok x) as Hk1.
  { intros k x Hk Hx. rewrite <- Hx. apply get_vec_ext, Hv1.
    intros ->. apply dispersion_keys_spec in Hk as [|[|]]; discriminate. }
  destruct (0 <? Np.count_true replaced)%nat.
  - pose proof (has_get_mask _ _ _ Hrep) as Hhas.
    destruct (_refit_without_outliers_within _ _ _ Hhas H)
      as (rep & ref & Hr & Hf & Hin & Hd).
    exists rep, ref. repeat (split; [done|]).
    intros k x x' Hk Hx Hx'. eapply Hd; [done | by apply Hk1 | done].
  - injection H as <-. apply get_mask_lookup in Hrep.
    exists replaced, (Np.full (n_vars (cfg s1)) false). simpl.
    split; [by rewrite lookup_insert_ne|]. split; [by rewrite lookup_insert_eq|].
    split; [intros g Hg; by apply full_false_lookup in Hg|].
    intros k x x' Hk Hx Hx' g _. apply Hk1 in Hx; [|done].
    apply get_vec_lookup in Hx, Hx'. simpl in Hx'.
    rewrite lookup_insert_ne in Hx'; [congruence|].
    intros <-. apply dispersion_keys_spec in Hk as [|[|]]; discriminate.
Qed.

End refit_masks.

(** ** The further properties on the example data *)

Section more_on_examples.

Import Dds.

(** X1 on a design of three columns, with a single turn allowed and a
    minimiser that fails. *)
Lemma irls_glm_converged_flag_witness :
  exists beta mu hat,
    Utils.irls_glm (Ref.numeric false) [3; 5; 4; 6]%Z [1; 1.1; 0.9; 1]
      [[1; 0; 0]; [1; 1; 0]; [1; 0; 1]; [1; 1; 1]] [2; 3; 2; 2] 0.5 0.5 1e-8 (-30) 30
      Utils.L_BFGS_B 1 []
    = Some (Ok (beta, mu, hat, false), [Utils.EvMinimize false]) /\
    (false = false <-> Utils.EvMinimize false ∈ [Utils.EvMinimize false]) /\
    (Utils.EvGridFit ∉ [Utils.EvMinimize false]) /\
    (false = false ->
     (2 < Np.ncols [[1; 0; 0]; [1; 1; 0]; [1; 0; 1]; [1; 1; 1]])%nat).
Proof.
  eexists _, _, _. split; [vm_compute; reflexivity|].
  eapply (irls_glm_converged_flag (Ref.numeric false) [3; 5; 4; 6]%Z [1; 1.1; 0.9; 1]
            [[1; 0; 0]; [1; 1; 0]; [1; 0; 1]; [1; 1; 1]] [2; 3; 2; 2] 0.5 0.5 1e-8 (-30) 30
            Utils.L_BFGS_B 1).
  vm_compute. reflexivity.
Defined.

(** On a design of two columns the same run raises in the grid search. *)
Example grid_search_raises_on_two_columns :
  Utils.irls_glm (Ref.numeric false) [3; 5; 4]%Z [1; 1.1; 0.9] [[1; 0]; [1; 1]; [1; 1]]
    [2; 3; 2] 0.5 0.5 1e-8 (-30) 30 Utils.L_BFGS_B 1 []
  = Some (Raise IndexError, [Utils.EvMinimize false; Utils.EvGridFit]).
Proof. vm_compute. reflexivity. Qed.

(** X3 on the counts with a zero in every gene. *)
Lemma zero_in_every_gene_raises_witness :
  exists s,
    Ex4.new = Ok s /\
    zero_in_every_gene Ex4.counts /\
    fit_size_factors Ref.lib s = Raise (AttributeError "obs_names") /\
    forall fuel ft,
      deseq2 Ex.inference Ref.lib fuel ft s = Some (Raise (AttributeError "obs_names")).
Proof.
  assert (zero_in_every_gene Ex4.counts) as Hz.
  { intros g Hg. simpl in Hg.
    destruct g as [|[|g]]; [exists [0; 5]%Z | exists [3; 0]%Z | lia].
    - split; [by left | done].
    - split; [right; by left | done]. }
  destruct (succeeds_inv
              (s ← lift Ex4.new;
               r ← lift (data_ref s "counts");
               _ ← guard (match r with DataFrame _ => true | NdArray _ => false end);
               a ← lift (deref (heap s) r);
               c ← lift (as_counts a);
               _ ← guard (bool_decide (c = Ex4.counts));
               mret (s, r, a))) as [[[s r] a] H]; [vm_compute; reflexivity|].
  run_inv. simplify_eq.
  repeat match goal with
  | Hg : guard (bool_decide _) = _ |- _ => apply guard_ok, bool_decide_eq_true_1 in Hg
  | Hg : guard _ = _ |- _ => apply guard_ok in Hg
  end.
  subst. destruct r as [l|l]; [|discriminate].
  exists s. split; [assumption|]. split; [exact Hz|].
  eapply (zero_in_every_gene_raises Ex.inference Ref.lib s l a);
    [| |eassumption|exact Hz].
  - unfold data_ref in *. destruct (data s !! "counts"); by simplify_eq.
  - unfold deref in *. simpl in *. destruct (heap s !! l); by simplify_eq.
Defined.

(** X5 on the example data. *)
Lemma prior_disp_var_floor_witness :
  exists s s' sq v,
    Ex.new ["condition"] = Ok s /\
    fit_dispersion_prior Ex.inference Ref.lib 20 s = Some (Ok s') /\
    uns s' !! "_squared_logres" = Some (VNum sq) /\
    uns s' !! "prior_disp_var" = Some (VNum v) /\
    (v <? 0.25) = false /\
    (PrimFloat.is_nan v = false -> (0.25 <=? v) = true).
Proof.
  destruct (succeeds_inv
              (s ← lift (Ex.new ["condition"]);
               s' ← fit_dispersion_prior Ex.inference Ref.lib 20 s;
               mret (s, s'))) as [[s s'] H]; [vm_compute; reflexivity|].
  run_inv. simplify_eq.
  destruct (prior_disp_var_floor Ex.inference Ref.lib 20 s s') as (sq & v & ?);
    [assumption|].
  exists s, s', sq, v. by repeat (split; [assumption|]).
Defined.

(** X4 on the example data. *)
Lemma fit_dispersion_trend_kinds_witness :
  exists s s',
    Ex.new ["condition"] = Ok s /\
    fit_dispersion_trend Ex.inference Ref.lib 20 s = Some (Ok s') /\
    ((uns s' !! "disp_function_type" = Some (VStr "parametric") /\
      exists coeffs, uns s' !! "trend_coeffs" = Some (VCoeffs coeffs) /\
                     above_threshold coeffs) \/
     (uns s' !! "disp_function_type" = Some (VStr "mean") /\
      exists m, uns s' !! "mean_disp" = Some (VNum m) /\
                varm s' !! "fitted_dispersions"
                = Some (VVec (Np.full (n_vars (cfg s')) m)))).
Proof.
  destruct (succeeds_inv
              (s ← lift (Ex.new ["condition"]);
               s' ← fit_dispersion_trend Ex.inference Ref.lib 20 s;
               mret (s, s'))) as [[s s'] H]; [vm_compute; reflexivity|].
  run_inv. simplify_eq.
  exists s, s'. repeat (split; [assumption|]).
  by eapply (fit_dispersion_trend_kinds Ex.inference Ref.lib 20).
Defined.

(** X6 on the example data. *)
Lemma deseq2_leaves_inputs_witness :
  exists s s',
    Ex.new ["condition"] = Ok s /\
    deseq2 Ex.inference Ref.lib 20 None s = Some (Ok s') /\
    cfg s' = cfg s /\
    obsm s' !! "design_matrix" = obsm s !! "design_matrix" /\
    data s' !! "cnv" = data s !! "cnv" /\
    (exists l, data s !! "counts" = Some (DataFrame l) /\
               data s' !! "counts" = Some (NdArray l)) /\
    forall k m, data_values s k = Ok m -> data_values s' k = Ok m.
Proof.
  destruct (succeeds_inv
              (s ← lift (Ex.new ["condition"]);
               s' ← deseq2 Ex.inference Ref.lib 20 None s;
               mret (s, s'))) as [[s s'] H]; [vm_compute; reflexivity|].
  run_inv. simplify_eq.
  exists s, s'. repeat (split; [assumption|]).
  by eapply (deseq2_leaves_inputs Ex.inference Ref.lib 20 None).
Defined.

(** X7 on the example data. *)
Lemma deseq2_not_twice_witness :
  exists s s',
    Ex.new ["condition"] = Ok s /\
    deseq2 Ex.inference Ref.lib 20 None s = Some (Ok s') /\
    (forall fuel',
        fit_LFC Ex.inference Ref.lib fuel' s' = Some (Raise (AttributeError "to_numpy"))) /\
    (forall fuel' ft' s'', deseq2 Ex.inference Ref.lib fuel' ft' s' <> Some (Ok s'')).
Proof.
  destruct (succeeds_inv
              (s ← lift (Ex.new ["condition"]);
               s' ← deseq2 Ex.inference Ref.lib 20 None s;
               mret (s, s'))) as [[s s'] H]; [vm_compute; reflexivity|].
  run_inv. simplify_eq.
  exists s, s'. repeat (split; [assumption|]).
  by eapply (deseq2_not_twice Ex.inference Ref.lib 20 None).
Defined.

(** X8 on the first example with the default [min_replicates], and the mean
    trend asked for. *)
Lemma mean_trend_refits_nothing_witness :
  exists s s',
    Ex5.new = Ok s /\
    deseq2 Ex.inference Ref.lib 20 (Some Mean) s = Some (Ok s') /\
    refit_cooks (cfg s) = true /\
    uns s' !! "disp_function_type" = Some (VStr "mean") /\
    exists r, varm s' !! "refitted" = Some (VMask r) /\ Np.count_true r = 0%nat.
Proof.
  destruct (succeeds_inv
              (s ← lift Ex5.new;
               s' ← deseq2 Ex.inference Ref.lib 20 (Some Mean) s;
               _ ← guard (refit_cooks (cfg s));
               t ← lift (get (uns s') "disp_function_type");
               _ ← guard (is_str t "mean");
               mret (s, s', t))) as [[[s s'] t] H]; [vm_compute; reflexivity|].
  run_inv. simplify_eq.
  repeat match goal with Hg : guard _ = _ |- _ => apply guard_ok in Hg end.
  assert (uns s' !! "disp_function_type" = Some (VStr "mean")) as Ht.
  { unfold get in *. destruct (uns s' !! "disp_function_type") as [[]|]; simplify_eq.
    simpl in *. f_equal. f_equal. by apply String.eqb_eq. }
  exists s, s'. repeat (split; [assumption|]).
  by eapply (mean_trend_refits_nothing Ex.inference Ref.lib 20 (Some Mean)).
Defined.

(** X9 on the same object, with Cook's distances put in by hand. *)
Lemma refit_without_replaceable_witness :
  exists s design_matrix,
    (s0 ← Ex5.new; Ok (set_layers "cooks" (VMat (Np.full2 8 4 1e9)) s0))
    = Ok s /\
    get_mat (obsm s) "design_matrix" = Ok design_matrix /\
    refit Ex.inference Ref.lib 0 s =
    Some (Ok (set_varm "refitted" (VMask (Np.full (n_vars (cfg s)) false))
                (set_varm "replaced" (VMask (Np.full (n_vars (cfg s)) false))
                   (set_obsm "replaceable"
                      (VMask (n_or_more_replicates Ref.lib design_matrix
                                (min_replicates (cfg s))))
                      s)))).
Proof.
  destruct (succeeds_inv
              (s ← lift (s0 ← Ex5.new;
                         Ok (set_layers "cooks" (VMat (Np.full2 8 4 1e9)) s0));
               _ ← guard (has (layers s) "cooks");
               dm ← lift (get_mat (obsm s) "design_matrix");
               _ ← guard (Np.count_true (n_or_more_replicates Ref.lib dm
                                           (min_replicates (cfg s))) =? 0)%nat;
               mret (s, dm))) as [[s dm] H]; [vm_compute; reflexivity|].
  apply run_bind_ok in H as (s1 & Hs & H). apply lift_ok in Hs.
  apply run_bind_ok in H as (u1 & Hc & H). apply guard_ok in Hc.
  apply run_bind_ok in H as (dm1 & Hdm & H). apply lift_ok in Hdm.
  apply run_bind_ok in H as (u2 & Hz & H). apply guard_ok in Hz.
  injection H as <- <-.
  exists s1, dm1. split; [assumption|]. split; [assumption|].
  eapply (refit_without_replaceable Ex.inference Ref.lib 0); [assumption..|].
  by apply Nat.eqb_eq.
Defined.

(** X10 on the example data. *)
Lemma deseq2_one_entry_per_gene_witness :
  exists s s',
    Ex.new ["condition"] = Ok s /\
    deseq2 Ex.inference Ref.lib 20 None s = Some (Ok s') /\
    (exists d, get_vec (varm s') "dispersions" = Ok d /\ length d = n_vars (cfg s)) /\
    (exists lfc, get_mat (varm s') "LFC" = Ok lfc /\ length lfc = n_vars (cfg s)) /\
    (exists cooks, get_mat (layers s') "cooks" = Ok cooks /\ length cooks = n_obs (cfg s) /\
                   Forall (fun row => length row = n_vars (cfg s)) cooks).
Proof.
  destruct (succeeds_inv
              (s ← lift (Ex.new ["condition"]);
               s' ← deseq2 Ex.inference Ref.lib 20 None s;
               mret (s, s'))) as [[s s'] H]; [vm_compute; reflexivity|].
  run_inv. simplify_eq.
  exists s, s'. repeat (split; [assumption|]).
  by eapply (deseq2_one_entry_per_gene Ex.inference Ref.lib 20 None).
Defined.

(** X12 on the example data, with the design and the trend fit that
    converges. *)
Lemma vst_returns_parametric_witness :
  exists s o',
    Ex.new ["condition"] = Ok s /\
    varm s !! "vst_genewise_dispersions" = None /\
    vst Ex5.fixed_trend Ref.lib Ex5.np_log2 Ex5.np_arcsinh 20 true None
      {| obj := s; vst_fit_type := None |}
    = Some (Returns o') /\
    vst_fit_type o' = Some Parametric /\
    exists a0 a1 normed_counts,
      uns (obj o') !! "vst_trend_coeffs" = Some (VCoeffs (a0, a1)) /\
      layers (obj o') !! "normed_counts" = Some (VMat normed_counts) /\
      layers (obj o') !! "vst_counts"
      = Some (VMat (map (map (vst_parametric Ex5.np_log2 a0 a1)) normed_counts)).
Proof.
  destruct (returns_inv
              (s ← of_run (lift (Ex.new ["condition"]));
               o' ← vst Ex5.fixed_trend Ref.lib Ex5.np_log2 Ex5.np_arcsinh 20 true None
                      {| obj := s; vst_fit_type := None |};
               mret (s, o'))) as [[s o'] H]; [vm_compute; reflexivity|].
  apply vst_bind_returns in H as (s1 & Hs & H). apply of_run_returns, lift_ok in Hs.
  apply vst_bind_returns in H as (o1 & Ho & H). injection H as -> ->.
  assert (varm s = ∅) as Hv.
  { unfold Ex.new, __init__ in Hs. run_inv; by subst. }
  exists s, o'. split; [done|]. split; [by rewrite Hv|]. split; [done|].
  eapply (vst_returns_parametric Ex5.fixed_trend Ref.lib Ex5.np_log2 Ex5.np_arcsinh 20 true
            None); [|exact Ho].
  simpl. by rewrite Hv.
Defined.

(** X13 on the same call. *)
Lemma vst_leaves_results_witness :
  exists s o',
    Ex.new ["condition"] = Ok s /\
    vst Ex5.fixed_trend Ref.lib Ex5.np_log2 Ex5.np_arcsinh 20 true None
      {| obj := s; vst_fit_type := None |}
    = Some (Returns o') /\
    heap (obj o') = heap s /\ cfg (obj o') = cfg s /\ data (obj o') = data s /\
    obsm (obj o') !! "design_matrix" = obsm s !! "design_matrix" /\
    layers (obj o') !! "cooks" = layers s !! "cooks" /\
    forall k, k ∈ ["dispersions"; "MAP_dispersions"; "LFC"; "replaced"; "refitted"] ->
              varm (obj o') !! k = varm s !! k.
Proof.
  destruct (returns_inv
              (s ← of_run (lift (Ex.new ["condition"]));
               o' ← vst Ex5.fixed_trend Ref.lib Ex5.np_log2 Ex5.np_arcsinh 20 true None
                      {| obj := s; vst_fit_type := None |};
               mret (s, o'))) as [[s o'] H]; [vm_compute; reflexivity|].
  apply vst_bind_returns in H as (s1 & Hs & H). apply of_run_returns, lift_ok in Hs.
  apply vst_bind_returns in H as (o1 & Ho & H). injection H as -> ->.
  exists s, o'. split; [done|]. split; [done|].
  exact (vst_leaves_results Ex5.fixed_trend Ref.lib Ex5.np_log2 Ex5.np_arcsinh 20 true None
           _ _ Ho).
Defined.

(** X18 on the example data, after the MAP dispersions. *)
Lemma calculate_cooks_needs_LFC_witness :
  exists s,
    (s0 ← lift (Ex.new ["condition"]); fit_MAP_dispersions Ex.inference Ref.lib 20 s0)
    = Some (Ok s) /\
    obsm s !! "_mu_LFC" = None /\
    forall s', calculate_cooks Ex.inference Ref.lib 20 s <> Some (Ok s').
Proof.
  destruct (succeeds_inv
              (s ← (s0 ← lift (Ex.new ["condition"]);
                    fit_MAP_dispersions Ex.inference Ref.lib 20 s0);
               _ ← guard (negb (has (obsm s) "_mu_LFC"));
               mret s)) as [s H]; [vm_compute; reflexivity|].
  apply run_bind_ok in H as (s1 & Hs & H).
  apply run_bind_ok in H as (u & Hg & H). apply guard_ok, negb_true_iff in Hg.
  injection H as ->.
  assert (obsm s !! "_mu_LFC" = None) as Hno.
  { destruct (obsm s !! "_mu_LFC") eqn:E; [|done].
    assert (has (obsm s) "_mu_LFC" = true) by (apply has_lookup; by rewrite E).
    congruence. }
  exists s. split; [done|]. split; [done|].
  intros s'. by apply (calculate_cooks_needs_LFC Ex.inference Ref.lib 20).
Defined.

(** X14: two samples, three genes. *)
Lemma fit_moments_dispersions_broadcast_witness :
  Utils.fit_moments_dispersions (Ref.numeric true) (mean_axis0 Ref.lib) Ex5.var_axis0
    [[1; 2; 3]; [4; 5; 6]] [1; 1.1] (Utils.Cnv2 [[2; 2; 2]; [2; 4; 2]])
  = Raise (ValueError "operands could not be broadcast together").
Proof.
  apply (fit_moments_dispersions_broadcast (Ref.numeric true) (mean_axis0 Ref.lib)
           Ex5.var_axis0 [[1; 2; 3]; [4; 5; 6]] [1; 1.1] [2; 2; 2] [[2; 4; 2]]).
  - repeat constructor.
  - simpl. lia.
  - simpl. lia.
  - simpl. lia.
Defined.

(** X15: the same counts, with a copy number per sample. *)
Lemma fit_moments_dispersions_finite_witness :
  exists r,
    Utils.fit_moments_dispersions (Ref.numeric true) (mean_axis0 Ref.lib) Ex5.var_axis0
      [[1; 2; 3]; [4; 5; 6]] [1; 1.1] (Utils.Cnv1 [2; 4]) = Ok r /\
    Forall (fun x => PrimFloat.is_nan x = false /\ Np.isinf x = false) r.
Proof.
  eexists. split; [vm_compute; reflexivity|].
  eapply (fit_moments_dispersions_finite (Ref.numeric true) (mean_axis0 Ref.lib)
            Ex5.var_axis0 [[1; 2; 3]; [4; 5; 6]] [1; 1.1] (Utils.Cnv1 [2; 4])).
  vm_compute. reflexivity.
Defined.

(** X17 on the example data. *)
Lemma deseq2_unknown_fit_type_witness :
  exists s s1 s2,
    Ex.new ["condition"] = Ok s /\
    fit_size_factors Ref.lib (set_fit_type (OtherFit "local") s) = Ok s1 /\
    fit_genewise_dispersions Ex.inference Ref.lib false s1 = Ok s2 /\
    deseq2 Ex.inference Ref.lib 20 (Some (OtherFit "local")) s
    = Some (Raise NotImplementedError).
Proof.
  destruct (succeeds_inv
              (s ← lift (Ex.new ["condition"]);
               s1 ← lift (fit_size_factors Ref.lib (set_fit_type (OtherFit "local") s));
               s2 ← lift (fit_genewise_dispersions Ex.inference Ref.lib false s1);
               mret (s, s1, s2))) as [[[s s1] s2] H]; [vm_compute; reflexivity|].
  run_inv. simplify_eq.
  exists s, s1, s2. repeat (split; [assumption|]).
  by eapply (deseq2_unknown_fit_type Ex.inference Ref.lib 20 "local").
Defined.

(** X19 on the data with the extreme count, with the fixed trend: the first
    gene is replaced and refitted. *)
Lemma refit_only_refitted_genes_witness :
  exists s s' replaced refitted,
    (s0 ← lift (Ex2.new 10 true);
     s1 ← fit_LFC Ex5.fixed_trend Ref.lib 20 s0;
     calculate_cooks Ex5.fixed_trend Ref.lib 20 s1) = Some (Ok s) /\
    has (layers s) "cooks" = true /\
    refit Ex5.fixed_trend Ref.lib 20 s = Some (Ok s') /\
    varm s' !! "replaced" = Some (VMask replaced) /\
    varm s' !! "refitted" = Some (VMask refitted) /\
    (forall g, refitted !! g = Some true -> replaced !! g = Some true) /\
    forall k x x', k ∈ dispersion_keys ->
      get_vec (varm s) k = Ok x -> get_vec (varm s') k = Ok x' ->
      forall g, refitted !! g <> Some true -> x' !! g = x !! g.
Proof.
  destruct (succeeds_inv
              (s ← (s0 ← lift (Ex2.new 10 true);
                    s1 ← fit_LFC Ex5.fixed_trend Ref.lib 20 s0;
                    calculate_cooks Ex5.fixed_trend Ref.lib 20 s1);
               _ ← guard (has (layers s) "cooks");
               s' ← refit Ex5.fixed_trend Ref.lib 20 s;
               mret (s, s'))) as [[s s'] H]; [vm_compute; reflexivity|].
  apply run_bind_ok in H as (s1 & Hs & H).
  apply run_bind_ok in H as (u & Hc & H). apply guard_ok in Hc.
  apply run_bind_ok in H as (s2 & Hr & H). injection H as -> ->.
  destruct (refit_only_refitted_genes Ex5.fixed_trend Ref.lib 20 s s' Hc Hr)
    as (replaced & refitted & ?).
  exists s, s', replaced, refitted. by repeat (split; [assumption|]).
Defined.

(** On the same data, the refit changes the dispersion of the first gene. *)
Example refit_changes_refitted_gene :
  (s0 ← lift (Ex2.new 10 true);
   s1 ← fit_LFC Ex5.fixed_trend Ref.lib 20 s0;
   s ← calculate_cooks Ex5.fixed_trend Ref.lib 20 s1;
   s' ← refit Ex5.fixed_trend Ref.lib 20 s;
   lift (refitted ← get_mask (varm s') "refitted";
         x ← get_vec (varm s) "dispersions";
         x' ← get_vec (varm s') "dispersions";
         Ok (refitted, zip_with PrimFloat.eqb x x')))
  = Some (Ok ([true; false; false], [false; true; true])).
Proof. vm_compute. reflexivity. Qed.

(** On the same data with the routines of the examples, whose trend fit
    ends in the mean trend, the run with the refit ends in the
    [AttributeError] of [disp_function]. *)
Example mean_trend_refit_raises :
  (s0 ← lift (Ex2.new 10 true); deseq2 Ex.inference Ref.lib 20 (Some Mean) s0)
  = Some (Raise (AttributeError "disp_function_type")).
Proof. vm_compute. reflexivity. Qed.

End more_on_examples.
